(** * MetaLangSAM: the Streamlit segmentation page [testApp.py]

    A shallow embedding of the one script of the repository.  The script is
    re-executed from top to bottom on every widget event; what survives
    between two executions is [st.session_state], the files on disk and the
    state of the external libraries.  The embedding therefore threads one
    [World] through the script and lets every statement either finish, raise,
    or stop the execution through [st.rerun()].

    Conventions.
    - Python [str] is [string], the bytes of its UTF-8 encoding; a [dict]
      with string keys is a [gmap string _].
    - Python [float] values (coordinates, thresholds, clock readings) are
      rationals: every finite double is one.  The rounding of a float
      subtraction is not modelled; it never changes the sign of the result.
    - leafmap, samgeo and matplotlib are collaborators whose code is not part
      of the repository.  They are a parameter of the development
      ([Environment]): every call may change the disk and the library's own
      state in any way, and may raise.  They cannot reach [st.session_state].
    - Streamlit's display calls append to the page being rendered; the
      widgets' return values are the inputs of one execution.  The page
      holds each element as Streamlit sends it to the browser: the body of
      a title, header, subheader, alert or spinner has gone through
      [clean_text], which dedents and strips it.
    - Every entry of the disk is a regular file.  Directories and
      permissions are not on the disk: whether a path can be opened for
      writing is asked of the [Environment]. *)

From Stdlib Require Import Ascii String QArith Lqa.
From stdpp Require Import base option list strings pretty gmap fin_maps.

Open Scope Z_scope.

(** ** Strings and POSIX paths ([os.path]) *)

Module Path.

(** [s.rfind(c)] for a one-character needle: index of the last occurrence,
    [-1] when there is none. *)
Fixpoint rfind (c : ascii) (s : string) : Z :=
  match s with
  | EmptyString => -1
  | String a s' =>
      let r := rfind c s' in
      if 0 <=? r then r + 1
      else if Ascii.eqb a c then 0 else -1
  end.

(** [s[:n]] and [s[n:]] for [0 <= n]. *)
Fixpoint take (n : nat) (s : string) : string :=
  match n, s with
  | S n', String a s' => String a (take n' s')
  | _, _ => EmptyString
  end.

Fixpoint drop (n : nat) (s : string) : string :=
  match n, s with
  | S n', String _ s' => drop n' s'
  | _, _ => s
  end.

(** [s[i:i+1]]: the character at [i], or the empty string past the end. *)
Definition char_at (i : nat) (s : string) : string := take 1 (drop i s).

Definition sep : ascii := "/"%char.
Definition extsep : ascii := "."%char.

(** [os.path.basename(p)]: [i = p.rfind('/') + 1; return p[i:]]. *)
Definition basename (p : string) : string :=
  let i := rfind sep p + 1 in
  drop (Z.to_nat i) p.

(** The loop of [genericpath._splitext] that skips the leading dots of the
    file name: [fuel] bounds [dotIndex - filenameIndex]. *)
Fixpoint splitext_scan (fuel : nat) (p : string) (filenameIndex dotIndex : Z)
  : string * string :=
  match fuel with
  | O => (p, EmptyString)
  | S fuel' =>
      if filenameIndex <? dotIndex then
        if negb (String.eqb (char_at (Z.to_nat filenameIndex) p)
                   (String extsep EmptyString))
        then (take (Z.to_nat dotIndex) p, drop (Z.to_nat dotIndex) p)
        else splitext_scan fuel' p (filenameIndex + 1) dotIndex
      else (p, EmptyString)
  end.

(** [os.path.splitext(p)] on POSIX ([altsep] is [None]). *)
Definition splitext (p : string) : string * string :=
  let sepIndex := rfind sep p in
  let dotIndex := rfind extsep p in
  if sepIndex <? dotIndex then
    splitext_scan (S (Z.to_nat (dotIndex - (sepIndex + 1)))) p (sepIndex + 1)
      dotIndex
  else (p, EmptyString).

End Path.

(** ** Text as Streamlit shows it *)

(** A Python [str] is held as the bytes of its UTF-8 encoding.  [dedent]
    follows [textwrap.dedent] as CPython has it up to version 3.13. *)

Module Text.

Definition encoded (l : list N) : string :=
  foldr (λ n s, String (ascii_of_N n) s) EmptyString l.

(** The characters [str.isspace] accepts, which are those [str.strip]
    removes, each by its encoding: U+0009 to U+000D, U+001C to U+0020,
    U+0085, U+00A0, U+1680, U+2000 to U+200A, U+2028, U+2029, U+202F, U+205F
    and U+3000. *)
Definition whitespace : list string :=
  encoded <$>
    [ [9]; [10]; [11]; [12]; [13]; [28]; [29]; [30]; [31]; [32];
      [194; 133]; [194; 160]; [225; 154; 128];
      [226; 128; 128]; [226; 128; 129]; [226; 128; 130]; [226; 128; 131];
      [226; 128; 132]; [226; 128; 133]; [226; 128; 134]; [226; 128; 135];
      [226; 128; 136]; [226; 128; 137]; [226; 128; 138];
      [226; 128; 168]; [226; 128; 169]; [226; 128; 175];
      [226; 129; 159]; [227; 128; 128] ]%N.

(** [s[len(p):]] when [s.startswith(p)]. *)
Fixpoint after_prefix (p s : string) : option string :=
  match p, s with
  | EmptyString, _ => Some s
  | String a p', String b s' => if Ascii.eqb a b then after_prefix p' s' else None
  | String _ _, EmptyString => None
  end.

(** What follows the first character of [s] when it is one of [chars]. *)
Definition after_any (chars : list string) (s : string) : option string :=
  foldr (λ c r, match after_prefix c s with Some t => Some t | None => r end)
    None chars.

(** The loop of [str.lstrip]: at most one character per character of the
    string is removed. *)
Fixpoint skip (chars : list string) (fuel : nat) (s : string) : string :=
  match fuel with
  | O => s
  | S fuel' =>
      match after_any chars s with
      | Some t => skip chars fuel' t
      | None => s
      end
  end.

Fixpoint reverse_onto (s acc : string) : string :=
  match s with
  | EmptyString => acc
  | String a s' => reverse_onto s' (String a acc)
  end.

(** [s[::-1]] *)
Definition reverse (s : string) : string := reverse_onto s EmptyString.

(** [s.lstrip()], [s.rstrip()] and [s.strip()] *)
Definition lstrip (s : string) : string := skip whitespace (String.length s) s.

Definition rstrip (s : string) : string :=
  reverse (skip (reverse <$> whitespace) (String.length s) (reverse s)).

Definition strip (s : string) : string := rstrip (lstrip s).

Definition newline : ascii := ascii_of_N 10.
Definition tab : ascii := ascii_of_N 9.

(** [s.split("\n")] *)
Fixpoint split_lines (s : string) : list string :=
  match s with
  | EmptyString => [EmptyString]
  | String a s' =>
      if Ascii.eqb a newline then EmptyString :: split_lines s'
      else match split_lines s' with
           | l :: ls => String a l :: ls
           | [] => [String a EmptyString]
           end
  end.

(** A space or a tab, the two characters [textwrap] counts as indentation. *)
Definition is_blank (a : ascii) : bool := Ascii.eqb a " " || Ascii.eqb a tab.

(** [line[:n]] for the longest [n] with only blanks before it. *)
Fixpoint indent (line : string) : string :=
  match line with
  | String a l' => if is_blank a then String a (indent l') else EmptyString
  | EmptyString => EmptyString
  end.

(** The line has a character other than a blank. *)
Definition has_text (line : string) : bool :=
  negb (String.eqb (indent line) line).

(** [os.path.commonprefix([s, t])] *)
Fixpoint common_prefix (s t : string) : string :=
  match s, t with
  | String a s', String b t' =>
      if Ascii.eqb a b then String a (common_prefix s' t') else EmptyString
  | _, _ => EmptyString
  end.

(** The indentation common to the lines that have text. *)
Definition margin (lines : list string) : string :=
  match indent <$> List.filter has_text lines with
  | [] => EmptyString
  | i :: rest => foldl common_prefix i rest
  end.

(** [textwrap.dedent(text)]: the lines made of blanks only are emptied, and
    the margin is removed from the start of the others. *)
Definition dedent (text : string) : string :=
  let lines := (λ l, if has_text l then l else EmptyString) <$> split_lines text in
  let m := margin lines in
  String.concat (String newline EmptyString)
    ((λ l, default l (after_prefix m l)) <$> lines).

(** [streamlit.string_util.clean_text(text)]:
    [textwrap.dedent(str(text)).strip()]. *)
Definition clean_text (text : string) : string := strip (dedent text).
Arguments clean_text : simpl never.





End Text.

(** ** The disk *)

(** What a file holds.  File formats are not modelled: a file is raw bytes,
    or an archive under construction or finished, given by its entries in
    the order they were written. *)
#[warnings="-register-all"] Inductive Content :=
| Raw (bytes : string)
| Zip (entries : list (string * Content)).

(** [removable = false] stands for whatever makes [unlink] fail on a path
    that exists: a read-only parent directory, an immutable flag, a file
    held open on Windows. *)
Record File := mkFile { data : Content; removable : bool }.

Abbreviation Disk := (gmap string File).

(** Why the operating system refuses to open a path for writing: the file
    or its directory is protected (read-only, immutable), or a directory of
    the path does not exist.  This is independent of [removable]: a file in
    a read-only directory cannot be removed but can be written, a read-only
    file can be removed but not written, an immutable one neither. *)
Variant OpenError := no_permission | no_such_directory.

(** ** Python values stored in the results record and in the session *)

Abbreviation Handle := nat.

Inductive Value :=
| VStr (s : string)
| VFloat (x : Q)
| VHandle (h : Handle).

Inductive SVal :=
| SNone
| SBool (b : bool)
| SDict (d : gmap string Value).

Definition truthy (v : SVal) : bool :=
  match v with
  | SNone => false
  | SBool b => b
  | SDict d => negb (bool_decide (d = ∅))
  end.

(** [v == s] for a string literal [s]. *)
Definition value_eq_str (v : Value) (s : string) : bool :=
  match v with
  | VStr s' => String.eqb s' s
  | _ => false
  end.

(** ** Exceptions *)

(** What a collaborator raises is opaque to the script. *)
Variant LibExn := lib_exn (message : string).

Inductive Exn :=
| KeyError (key : string)
| NameError (name : string)
| AttributeError (attr : string)
| TypeError
| ValueError
| FileNotFoundError (path : string)
| PermissionError (path : string)
| LibraryError (e : LibExn).

(** ** Calls into leafmap, samgeo and matplotlib *)

(** The keyword arguments of [SamGeo(model_type=..., sam_kwargs={...})]. *)
Record SamGeoArgs := mkSamGeoArgs {
  model_type : string;
  points_per_side : Z;
  pred_iou_thresh : Q;
  stability_score_thresh : Q }.

(** One constructor per call site of the script, with the arguments the
    script passes.  An object the script creates is named by its [Handle];
    arguments read from the results record are untyped [Value]s.  The figure
    and axes [plt.subplots] returns, and the [ax] argument of [show_anns]
    that passes the axes on, are left out: they live in matplotlib's state. *)
Inductive Call :=
| leafmap_Map (self : Handle) (center : option (Q * Q)) (zoom : option Z) (height : Z)
| Map_add_basemap (self : Handle) (name : string)
| Map_to_streamlit (self : Handle) (height : option Z) (key : string)
| map_tiles_to_geotiff (output : string) (bbox : list Q) (zoom : Z) (source : string)
    (overwrite : bool)
| SamGeo_init (self : Handle) (args : option SamGeoArgs)
| LangSAM_init (self : Handle)
| sam_generate (self : Handle) (source output : string) (foreground : bool)
| sam_predict (self : Handle) (image text_prompt : string)
    (box_threshold text_threshold : Q) (output : string)
| plt_subplots (figsize : Z * Z)
| sam_show_anns (self : Handle) (cmap box_color title : string) (blend : bool)
| plt_axis (arg : string)
| plt_savefig (fname bbox_inches : string) (pad_inches : Z)
| plt_close
| leafmap_image_comparison (img1 img2 : Value) (label1 label2 : string)
    (starting_position width : Z)
| Map_add_raster (self : Handle) (source : Value) (layer_name : string)
    (opacity : option Q) (palette : option string) (nodata : option Z)
| raster_to_vector (self : Handle) (source output : Value)
| Map_add_vector (self : Handle) (source : Value) (layer_name : string)
    (color : string) (weight : Z) (fillOpacity : Q)
| Map_add_layer_control (self : Handle).

(** What one execution leaves behind for an observer: the calls made, each
    with what it raised if it did, and the readings of [time.time()]. *)
Inductive Event :=
| ev_call (c : Call) (raised : option LibExn)
| ev_time (t : Q).

(** The collaborators and the parts of the Python runtime the script relies
    on but does not define.  [ExtSt] is the state outside the script: that of
    the libraries, the clock, the permissions and directories of the file
    system.  A call into a library may change all of it; the file operations
    of the script itself do not. *)
Class Environment := {
  ExtSt : Type;
  (** a call into leafmap, samgeo or matplotlib *)
  lib_call : Call → ExtSt → Disk → option LibExn * ExtSt * Disk;
  (** [time.time()] *)
  time_time : ExtSt → Q * ExtSt;
  (** [open(path, "w")]: what refuses the path, if anything does *)
  open_w : string → ExtSt → option OpenError;
  (** [str(x)] and [format(x, ".1f")] of a float, [str(o)] of an object *)
  float_str : Q → string;
  float_format_1f : Q → string;
  object_str : Handle → string }.

(** ** The page *)

Inductive UIElem :=
| ui_title (body : string)
| ui_header (body : string)
| ui_subheader (body : string)
| ui_info (body : string)
| ui_success (body : string)
| ui_spinner (text : string)
| ui_radio (label : string) (options : list string)
| ui_text_input (label : string)
| ui_slider (label : string)
| ui_number_input (label : string)
| ui_button (label : string)
| ui_download_button (label : string) (data : Content) (file_name : string).

(** The widgets' return values in one execution of the script. *)
Inductive Mode := Automatic | TextPrompt.

Definition mode_label (m : Mode) : string :=
  match m with
  | Automatic => "Automatische Segmentierung"
  | TextPrompt => "Text-Prompt Suche"
  end.

Record Inputs := mkInputs {
  in_mode : Mode;              (* st.radio: one of its two options *)
  in_text_prompt : string;     (* st.text_input *)
  in_box_threshold : Q;        (* st.slider *)
  in_text_threshold : Q;       (* st.slider *)
  in_left : Q;                 (* st.number_input, four times *)
  in_bottom : Q;
  in_right : Q;
  in_top : Q;
  in_run : bool;               (* st.button("Starte Segmentierung") *)
  in_reset : bool }.           (* st.button("Neue Segmentierung starten") *)

(** ** The world and the script monad *)

Record World `{Environment} := mkWorld {
  disk : Disk;
  session : gmap string SVal;       (* st.session_state *)
  ext : ExtSt;                      (* state of the collaborators *)
  next_handle : Handle;             (* identity of the next object created *)
  trace : list Event;
  page : list UIElem }.
Arguments mkWorld {_} disk session ext next_handle trace page.

(** How a run of statements ends: normally, by an exception that nothing in
    the script catches, or by [st.rerun()], which stops the execution and
    asks Streamlit for a new one. *)
Inductive Outcome (W A : Type) :=
| Done (a : A) (w : W)
| Raised (e : Exn) (w : W)
| Rerun (w : W).
Arguments Done {W A} a w.
Arguments Raised {W A} e w.
Arguments Rerun {W A} w.

Definition final {W A} (o : Outcome W A) : W :=
  match o with
  | Done _ w | Raised _ w | Rerun w => w
  end.

Definition raised {W A} (o : Outcome W A) : option Exn :=
  match o with
  | Raised e _ => Some e
  | _ => None
  end.

Definition reruns {W A} (o : Outcome W A) : bool :=
  match o with
  | Rerun _ => true
  | _ => false
  end.

Section Script.
Context `{Env : Environment}.

Definition M (A : Type) : Type := World → Outcome World A.

#[export] Instance M_ret : MRet M := λ A a w, Done a w.
#[export] Instance M_bind : MBind M := λ A B f m w,
  match m w with
  | Done a w' => f a w'
  | Raised e w' => Raised e w'
  | Rerun w' => Rerun w'
  end.

Definition raise {A} (e : Exn) : M A := λ w, Raised e w.

(** [st.rerun()] *)
Definition st_rerun : M unit := λ w, Rerun w.

Definition when (b : bool) (body : M unit) : M unit :=
  if b then body else mret tt.

(** [for x in xs: body(x)] *)
Fixpoint for_each {A} (xs : list A) (body : A → M unit) : M unit :=
  match xs with
  | [] => mret tt
  | x :: xs' => body x;; for_each xs' body
  end.

(** *** Session state *)

(** ['k' in st.session_state] *)
Definition session_contains (k : string) : M bool := λ w,
  Done (bool_decide (is_Some (session w !! k))) w.

(** [st.session_state.k] *)
Definition session_get (k : string) : M SVal := λ w,
  match session w !! k with
  | Some v => Done v w
  | None => Raised (AttributeError k) w
  end.

(** [st.session_state.k = v] *)
Definition session_set (k : string) (v : SVal) : M unit := λ w,
  Done tt (mkWorld (disk w) (<[k := v]> (session w)) (ext w) (next_handle w)
             (trace w) (page w)).

(** *** The results record *)

(** [results[k]] *)
Definition subscript (results : SVal) (k : string) : M Value :=
  match results with
  | SDict d =>
      match d !! k with
      | Some v => mret v
      | None => raise (KeyError k)
      end
  | _ => raise TypeError
  end.

(** [f"{v}"] *)
Definition value_str (v : Value) : string :=
  match v with
  | VStr s => s
  | VFloat x => float_str x
  | VHandle h => object_str h
  end.

(** [f"{v:.1f}"] *)
Definition format_1f (v : Value) : M string :=
  match v with
  | VFloat x => mret (float_format_1f x)
  | VStr _ => raise ValueError
  | VHandle _ => raise TypeError
  end.

(** The receiver of [v.raster_to_vector(...)]. *)
Definition method_receiver (v : Value) (attr : string) : M Handle :=
  match v with
  | VHandle h => mret h
  | _ => raise (AttributeError attr)
  end.

(** A value used where the standard library wants a path. *)
Definition as_path (v : Value) : M string :=
  match v with
  | VStr s => mret s
  | _ => raise TypeError
  end.

(** *** Collaborators, clock, objects *)

Definition call (c : Call) : M unit := λ w,
  let '(r, x, d) := lib_call c (ext w) (disk w) in
  let w' := mkWorld d (session w) x (next_handle w)
              (trace w ++ [ev_call c r]) (page w) in
  match r with
  | None => Done tt w'
  | Some e => Raised (LibraryError e) w'
  end.

Definition time_now : M Q := λ w,
  let '(t, x) := time_time (ext w) in
  Done t (mkWorld (disk w) (session w) x (next_handle w)
            (trace w ++ [ev_time t]) (page w)).

(** Every object the script creates gets an identity never used before. *)
Definition new_object : M Handle := λ w,
  Done (next_handle w)
    (mkWorld (disk w) (session w) (ext w) (S (next_handle w)) (trace w) (page w)).

(** *** Streamlit display *)

Definition emit (u : UIElem) : M unit := λ w,
  Done tt (mkWorld (disk w) (session w) (ext w) (next_handle w) (trace w)
             (page w ++ [u])).

(** [st.title], [st.header], [st.subheader], [st.info], [st.success] and
    [st.spinner] clean the body they are given. *)
Definition st_title (body : string) : M unit :=
  emit (ui_title (Text.clean_text body)).

Definition st_header (body : string) : M unit :=
  emit (ui_header (Text.clean_text body)).

Definition st_subheader (body : string) : M unit :=
  emit (ui_subheader (Text.clean_text body)).

Definition st_info (body : string) : M unit :=
  emit (ui_info (Text.clean_text body)).

Definition st_success (body : string) : M unit :=
  emit (ui_success (Text.clean_text body)).

Definition st_spinner (text : string) : M unit :=
  emit (ui_spinner (Text.clean_text text)).

(** *** Files *)

Definition os_path_exists (p : string) : M bool := λ w,
  Done (bool_decide (is_Some (disk w !! p))) w.

Definition set_disk (d : Disk) : M unit := λ w,
  Done tt (mkWorld d (session w) (ext w) (next_handle w) (trace w) (page w)).

Definition os_remove (p : string) : M unit := λ w,
  match disk w !! p with
  | None => Raised (FileNotFoundError p) w
  | Some f =>
      if removable f then set_disk (delete p (disk w)) w
      else Raised (PermissionError p) w
  end.

(** [open(p, "rb")]: the bytes the download button will serve. *)
Definition open_rb (p : string) : M Content := λ w,
  match disk w !! p with
  | Some f => Done (data f) w
  | None => Raised (FileNotFoundError p) w
  end.

(** What [open(p, "w")] raises when the path is refused. *)
Definition open_exn (p : string) (e : OpenError) : Exn :=
  match e with
  | no_permission => PermissionError p
  | no_such_directory => FileNotFoundError p
  end.

(** The disk once [c] has been written through a file opened at [p]: the
    file is created if there was none, its content replaced if there was
    one.  Whether [p] can be opened is decided before, by [open_w]. *)
Definition put_file (p : string) (c : Content) (d : Disk) : Disk :=
  match d !! p with
  | Some f => <[p := mkFile c (removable f)]> d
  | None => <[p := mkFile c true]> d
  end.

(** [zipfile.ZipFile(zip_path, 'w')] opens the path for writing: it raises
    when the path is refused, and otherwise the archive file is created
    empty, or truncated. *)
Definition ZipFile_w (zip_path : string) : M unit := λ w,
  match open_w zip_path (ext w) with
  | Some e => Raised (open_exn zip_path e) w
  | None => set_disk (put_file zip_path (Zip []) (disk w)) w
  end.

(** [zipf.write(filename, arcname)]: the entry is appended, through the
    file [ZipFile_w] has opened, to the archive as it is written.
    [arcname] is stored as given: the normalisation [zipfile] applies
    leaves a name without separator unchanged. *)
Definition ZipFile_write (zip_path filename arcname : string) : M unit := λ w,
  match disk w !! filename with
  | None => Raised (FileNotFoundError filename) w
  | Some f =>
      let old := match data <$> disk w !! zip_path with
                 | Some (Zip es) => es
                 | _ => []
                 end in
      set_disk (put_file zip_path (Zip (old ++ [(arcname, data f)])) (disk w)) w
  end.

(** *** The script *)

(** The variables the sidebar and the bounding-box form bind.  The three
    text-prompt settings are bound only when that mode is selected; reading
    an unbound name raises [NameError]. *)
Record Locals := mkLocals {
  process_type : string;
  text_prompt : option string;
  box_threshold : option Q;
  text_threshold : option Q;
  bbox : list Q }.

Definition name_lookup {A} (x : string) (v : option A) : M A :=
  match v with
  | Some a => mret a
  | None => raise (NameError x)
  end.

(** [st.button(label)] *)
Definition st_button (label : string) (clicked : bool) : M bool :=
  emit (ui_button label);; mret clicked.

(** Lines 16-19: defaults of the two session fields. *)
Definition init_session_state : M unit :=
  b ← session_contains "results";
  when (negb b) (session_set "results" SNone);;
  b ← session_contains "map_visible";
  when (negb b) (session_set "map_visible" (SBool true)).

(** Lines 22-25: the input map. *)
Definition show_input_map : M unit :=
  v ← session_get "map_visible";
  when (truthy v)
    (m ← new_object;
     call (leafmap_Map m (Some (52.4658, 13.3825)%Q) (Some 18) 700);;
     call (Map_add_basemap m "SATELLITE");;
     call (Map_to_streamlit m (Some 500) "main_map")).

(** Lines 28-50: sidebar and bounding-box form. *)
Definition input_panel (inp : Inputs) : M Locals :=
  st_header "⚙️ Einstellungen";;
  emit (ui_radio "Modus wählen:"
          ["Automatische Segmentierung"; "Text-Prompt Suche"]);;
  let process_type := mode_label (in_mode inp) in
  '(text_prompt, box_threshold, text_threshold) ←
    (if String.eqb process_type "Text-Prompt Suche" then
       emit (ui_text_input "Suchbegriff (Englisch)");;
       emit (ui_slider "Box Threshold");;
       emit (ui_slider "Text Threshold");;
       mret (Some (in_text_prompt inp), Some (in_box_threshold inp),
             Some (in_text_threshold inp))
     else mret (None, None, None));
  st_header " Bounding Box festlegen";;
  emit (ui_number_input "Left (West)");;
  emit (ui_number_input "Bottom (Süd)");;
  emit (ui_number_input "Right (Ost)");;
  emit (ui_number_input "Top (Nord)");;
  let bbox := [in_left inp; in_bottom inp; in_right inp; in_top inp] in
  st_info ("Aktuelle Bounding Box: `[" +:+
           String.concat ", " (float_str <$> bbox) +:+ "]`");;
  mret (mkLocals process_type text_prompt box_threshold text_threshold bbox).

(** Lines 60-61. *)
Definition remove_old_files (files : list string) : M unit :=
  for_each files (λ file,
    b ← os_path_exists file;
    when b (os_remove file)).

(** Lines 83-94: render the annotations and save the picture. *)
Definition save_visualization (sam : Handle) (title vis_path : string) : M unit :=
  call (plt_subplots (12, 12));;
  call (sam_show_anns sam "Greens" "red" title true);;
  call (plt_axis "off");;
  call (plt_savefig vis_path "tight" 0);;
  call plt_close.

(** Lines 55-57: the three fixed output paths, and line 92. *)
Definition tiff_path : string := "satellite.tif".
Definition mask_path : string := "masks.tif".
Definition vector_path : string := "masks.shp".
Definition vis_path : string := "visualization.png".

(** Lines 99-106 and 138-147: the record a run stores. *)
Definition automatic_record (process_type : string) (duration : Q)
  : gmap string Value :=
  <["tiff_path" := VStr tiff_path]> (
  <["mask_path" := VStr mask_path]> (
  <["vector_path" := VStr vector_path]> (
  <["vis_path" := VStr vis_path]> (
  <["process_type" := VStr process_type]> (
  <["duration" := VFloat duration]> ∅))))).

Definition text_prompt_record (process_type prompt : string) (duration : Q)
  (sam : Handle) : gmap string Value :=
  <["tiff_path" := VStr tiff_path]> (
  <["mask_path" := VStr mask_path]> (
  <["vector_path" := VStr vector_path]> (
  <["vis_path" := VStr vis_path]> (
  <["process_type" := VStr process_type]> (
  <["text_prompt" := VStr prompt]> (
  <["duration" := VFloat duration]> (
  <["sam" := VHandle sam]> ∅))))))).

(** Lines 64-151: download, segment, visualise, store, rerun. *)
Definition download_and_segment (L : Locals) : M unit :=
  call (map_tiles_to_geotiff tiff_path (bbox L) 18 "Satellite" true);;
  (if String.eqb (process_type L) "Automatische Segmentierung" then
     st_spinner "Segmentiere Objekte...";;
     start_time ← time_now;
     sam ← new_object;
     call (SamGeo_init sam (Some (mkSamGeoArgs "vit_h" 32 0.86 0.92)));;
     call (sam_generate sam tiff_path mask_path true);;
     save_visualization sam "Automatic Segmentation" vis_path;;
     now ← time_now;
     let duration := (now - start_time)%Q in
     session_set "results" (SDict (automatic_record (process_type L) duration))
   else
     prompt ← name_lookup "text_prompt" (text_prompt L);
     st_spinner ("Suche nach '" +:+ prompt +:+ "'...");;
     start_time ← time_now;
     sam ← new_object;
     call (LangSAM_init sam);;
     prompt ← name_lookup "text_prompt" (text_prompt L);
     box ← name_lookup "box_threshold" (box_threshold L);
     text ← name_lookup "text_threshold" (text_threshold L);
     call (sam_predict sam tiff_path prompt box text mask_path);;
     prompt ← name_lookup "text_prompt" (text_prompt L);
     save_visualization sam ("Segmentation of " +:+ prompt) vis_path;;
     now ← time_now;
     let duration := (now - start_time)%Q in
     prompt ← name_lookup "text_prompt" (text_prompt L);
     session_set "results"
       (SDict (text_prompt_record (process_type L) prompt duration sam)));;
  session_set "map_visible" (SBool false);;
  st_rerun.

(** Lines 53-151: the body of [if st.button("Starte Segmentierung")]. *)
Definition run_segmentation (L : Locals) : M unit :=
  st_spinner "Lade Satellitenbild...";;
  remove_old_files [tiff_path; mask_path; vector_path];;
  download_and_segment L.

(** Lines 210-219. *)
Definition create_shapefile_zip (shp_path zip_path : string) : M unit :=
  let base := (Path.splitext shp_path).1 in
  let extensions := [".shp"; ".shx"; ".dbf"; ".prj"] in
  ZipFile_w zip_path;;
  for_each extensions (λ ext,
    let file_path := base +:+ ext in
    b ← os_path_exists file_path;
    when b (ZipFile_write zip_path file_path (Path.basename file_path))).

(** [download_button(label=..., data=open(path, "rb"), file_name=...)] *)
Definition download_button (label : string) (path : Value) (file_name : string)
  : M unit :=
  p ← as_path path;
  c ← open_rb p;
  emit (ui_download_button label c file_name).

(** Lines 157-158: the success message and the header. *)
Definition show_heading (results : SVal) : M unit :=
  d ← subscript results "duration";
  secs ← format_1f d;
  st_success ("Segmentierung fertig (" +:+ secs +:+ "s)");;
  pt ← subscript results "process_type";
  shown ← (if value_eq_str pt "Text-Prompt Suche"
           then v ← subscript results "text_prompt"; mret (value_str v)
           else mret "Automatische Segmentierung");
  st_header ("Ergebnisse: " +:+ shown).

(** Lines 161-169: the comparison slider. *)
Definition show_comparison (results : SVal) : M unit :=
  st_subheader "Bildvergleich";;
  tiff ← subscript results "tiff_path";
  vis ← subscript results "vis_path";
  call (leafmap_image_comparison tiff vis "Satellitenbild" "Segmentierung" 50 700).

(** Lines 172-184: the result map with its two raster layers. *)
Definition show_result_map (results : SVal) : M Handle :=
  result_map ← new_object;
  call (leafmap_Map result_map None None 700);;
  tiff ← subscript results "tiff_path";
  call (Map_add_raster result_map tiff "Satellitenbild" None None None);;
  pt ← subscript results "process_type";
  let palette := if value_eq_str pt "Automatische Segmentierung"
                 then "viridis" else "Greens" in
  mask ← subscript results "mask_path";
  call (Map_add_raster result_map mask "Segmentierung" (Some 0.7%Q) (Some palette)
          (Some 0));;
  mret result_map.

(** Lines 187-191: the vectorisation. *)
Definition vectorize (results : SVal) : M unit :=
  pt ← subscript results "process_type";
  if value_eq_str pt "Text-Prompt Suche" then
    stored ← subscript results "sam";
    sam ← method_receiver stored "raster_to_vector";
    mask ← subscript results "mask_path";
    vector ← subscript results "vector_path";
    call (raster_to_vector sam mask vector)
  else
    sam ← new_object;
    call (SamGeo_init sam None);;
    mask ← subscript results "mask_path";
    vector ← subscript results "vector_path";
    call (raster_to_vector sam mask vector).

(** Lines 194-205: the vector layer and the map itself. *)
Definition show_vector_layer (results : SVal) (result_map : Handle) : M unit :=
  vector ← subscript results "vector_path";
  call (Map_add_vector result_map vector "Vektorisierte Objekte" "#3388ff" 2 0.5);;
  call (Map_add_layer_control result_map);;
  call (Map_to_streamlit result_map None "result_map").

(** Lines 208-246: the three downloads. *)
Definition show_downloads (results : SVal) : M unit :=
  st_header "Ergebnisse exportieren";;
  mask ← subscript results "mask_path";
  download_button "GeoTIFF herunterladen" mask "segmentation.tif";;
  vis ← subscript results "vis_path";
  download_button "Visualisierung herunterladen" vis "visualization.png";;
  let zip_path := "segmentation_shp.zip" in
  vector ← subscript results "vector_path";
  shp ← as_path vector;
  create_shapefile_zip shp zip_path;;
  download_button "Vektordaten (Shapefile)" (VStr zip_path) "segmentation_shp.zip".

(** Lines 249-252: the reset button. *)
Definition reset_button (inp : Inputs) : M unit :=
  clicked ← st_button "Neue Segmentierung starten" (in_reset inp);
  when clicked
    (session_set "results" SNone;;
     session_set "map_visible" (SBool true);;
     st_rerun).

(** Lines 155-252: the body of [if st.session_state.results]. *)
Definition render_results (inp : Inputs) : M unit :=
  results ← session_get "results";
  show_heading results;;
  show_comparison results;;
  result_map ← show_result_map results;
  vectorize results;;
  show_vector_layer results result_map;;
  show_downloads results;;
  reset_button inp.

(** One execution of [testApp.py]. *)
Definition script (inp : Inputs) : M unit :=
  st_title "KI-basierte Objekterkennung mit Meta's LangSAM";;
  init_session_state;;
  show_input_map;;
  L ← input_panel inp;
  clicked ← st_button "Starte Segmentierung" (in_run inp);
  when clicked (run_segmentation L);;
  results ← session_get "results";
  when (truthy results) (render_results inp).

End Script.

(** ** One interaction *)

Section Interaction.
Context `{Env : Environment}.

Definition clear_page (w : World) : World :=
  mkWorld (disk w) (session w) (ext w) (next_handle w) (trace w) [].

(** In the execution [st.rerun()] asks for, no button reports a click. *)
Definition no_clicks (inp : Inputs) : Inputs :=
  mkInputs (in_mode inp) (in_text_prompt inp) (in_box_threshold inp)
    (in_text_threshold inp) (in_left inp) (in_bottom inp) (in_right inp)
    (in_top inp) false false.

(** A widget event: the script is executed, and once more if it asked
    for it. *)
Definition interact (inp : Inputs) (w : World) : Outcome World unit :=
  match script inp (clear_page w) with
  | Rerun w' => script (no_clicks inp) (clear_page w')
  | o => o
  end.

End Interaction.

(** ** Vocabulary of the statements *)

Section Vocabulary.
Context `{Env : Environment}.

(** [wp m Qd Qr Qn w]: running [m] from [w] ends in an outcome that
    satisfies the postcondition for its kind. *)
Definition wp {A} (m : M A) (Qd : A → World → Prop) (Qr : Exn → World → Prop)
  (Qn : World → Prop) (w : World) : Prop :=
  match m w with
  | Done a w' => Qd a w'
  | Raised e w' => Qr e w'
  | Rerun w' => Qn w'
  end.

(** The entries an archive of the files [base +:+ ext] found on [d] holds:
    one per extension whose file exists, in the order of [exts]. *)
Definition existing_entries (d : Disk) (base : string) (exts : list string)
  : list (string * Content) :=
  omap (λ ext, f ← d !! (base +:+ ext);
               Some (Path.basename base +:+ ext, data f)) exts.

(** Lines 217-219, one iteration. *)
Definition add_if_exists (zip_path file_path : string) : M unit :=
  b ← os_path_exists file_path;
  when b (ZipFile_write zip_path file_path (Path.basename file_path)).

(** The four sidecar paths of a shapefile path. *)
Definition sidecar_paths (shp_path : string) : list string :=
  (λ x, (Path.splitext shp_path).1 +:+ x) <$> [".shp"; ".shx"; ".dbf"; ".prj"].

Definition cleared (s : gmap string SVal) : gmap string SVal :=
  <["map_visible" := SBool true]> (<["results" := SNone]> s).

(** Two worlds that differ at most in their disk. *)
Definition same_but_disk (w w' : World) : Prop :=
  session w' = session w ∧ ext w' = ext w ∧ next_handle w' = next_handle w ∧
  trace w' = trace w ∧ page w' = page w.

Definition with_disk (d : Disk) (w : World) : World :=
  mkWorld d (session w) (ext w) (next_handle w) (trace w) (page w).

(** A path that is absent, or that [os.remove] can delete. *)
Definition clearable (d : Disk) (p : string) : Prop :=
  ∀ f, d !! p = Some f → removable f = true.

(** What a run that completes leaves in the trace, in order. *)
Definition visualization_events (sam : Handle) (title : string) : list Event :=
  [ ev_call (plt_subplots (12, 12)) None;
    ev_call (sam_show_anns sam "Greens" "red" title true) None;
    ev_call (plt_axis "off") None;
    ev_call (plt_savefig vis_path "tight" 0) None;
    ev_call plt_close None ].

Definition automatic_events (bbox : list Q) (sam : Handle) (t0 t1 : Q)
  : list Event :=
  [ ev_call (map_tiles_to_geotiff tiff_path bbox 18 "Satellite" true) None;
    ev_time t0;
    ev_call (SamGeo_init sam (Some (mkSamGeoArgs "vit_h" 32 0.86 0.92))) None;
    ev_call (sam_generate sam tiff_path mask_path true) None ]
  ++ visualization_events sam "Automatic Segmentation"
  ++ [ ev_time t1 ].

Definition text_prompt_events (bbox : list Q) (prompt : string) (box text : Q)
  (sam : Handle) (t0 t1 : Q) : list Event :=
  [ ev_call (map_tiles_to_geotiff tiff_path bbox 18 "Satellite" true) None;
    ev_time t0;
    ev_call (LangSAM_init sam) None;
    ev_call (sam_predict sam tiff_path prompt box text mask_path) None ]
  ++ visualization_events sam ("Segmentation of " +:+ prompt)
  ++ [ ev_time t1 ].

Definition stored (record : gmap string Value) (s : gmap string SVal)
  : gmap string SVal :=
  <["map_visible" := SBool false]> (<["results" := SDict record]> s).

(** A failure inside a collaborator: the exception is the library's, the
    failed call is the last event, the session is as it was. *)
Definition library_failure (w : World) (e : Exn) (w' : World) : Prop :=
  session w' = session w ∧
  ∃ c l, e = LibraryError l ∧ last (trace w') = Some (ev_call c (Some l)).

(** The session after lines 16-19. *)
Definition with_default (k : string) (v : SVal) (s : gmap string SVal)
  : gmap string SVal :=
  if bool_decide (is_Some (s !! k)) then s else <[k := v]> s.

Definition with_defaults (s : gmap string SVal) : gmap string SVal :=
  with_default "map_visible" (SBool true) (with_default "results" SNone s).

(** What the sidebar and the form bind. *)
Definition locals_of (inp : Inputs) : Locals :=
  let bbox := [in_left inp; in_bottom inp; in_right inp; in_top inp] in
  match in_mode inp with
  | Automatic => mkLocals (mode_label Automatic) None None None bbox
  | TextPrompt =>
      mkLocals (mode_label TextPrompt) (Some (in_text_prompt inp))
        (Some (in_box_threshold inp)) (Some (in_text_threshold inp)) bbox
  end.

(** What a completed run of the selected mode traces and stores. *)
Definition pipeline_events (inp : Inputs) (sam : Handle) (t0 t1 : Q)
  : list Event :=
  match in_mode inp with
  | Automatic => automatic_events (bbox (locals_of inp)) sam t0 t1
  | TextPrompt =>
      text_prompt_events (bbox (locals_of inp)) (in_text_prompt inp)
        (in_box_threshold inp) (in_text_threshold inp) sam t0 t1
  end.

Definition results_record (inp : Inputs) (sam : Handle) (duration : Q)
  : gmap string Value :=
  match in_mode inp with
  | Automatic => automatic_record (mode_label Automatic) duration
  | TextPrompt =>
      text_prompt_record (mode_label TextPrompt) (in_text_prompt inp)
        duration sam
  end.

(** What the sidebar and the form put on the page.  The second header
    has lost the blank its body starts with. *)
Definition input_elements (inp : Inputs) : list UIElem :=
  [ ui_header "⚙️ Einstellungen";
    ui_radio "Modus wählen:" ["Automatische Segmentierung"; "Text-Prompt Suche"] ]
  ++ match in_mode inp with
     | Automatic => []
     | TextPrompt =>
         [ ui_text_input "Suchbegriff (Englisch)";
           ui_slider "Box Threshold";
           ui_slider "Text Threshold" ]
     end
  ++ [ ui_header "Bounding Box festlegen";
       ui_number_input "Left (West)";
       ui_number_input "Bottom (Süd)";
       ui_number_input "Right (Ost)";
       ui_number_input "Top (Nord)";
       ui_info (Text.clean_text
                  ("Aktuelle Bounding Box: `[" +:+
                   String.concat ", " (float_str <$> bbox (locals_of inp)) +:+
                   "]`")) ].

(** Lines 23-25 when every call returns. *)
Definition input_map_events (m : Handle) : list Event :=
  [ ev_call (leafmap_Map m (Some (52.4658, 13.3825)%Q) (Some 18) 700) None;
    ev_call (Map_add_basemap m "SATELLITE") None;
    ev_call (Map_to_streamlit m (Some 500) "main_map") None ].

(** *** The results panel *)

(** The calls that create a model or vectorise with one. *)
Definition model_event (e : Event) : bool :=
  match e with
  | ev_call (raster_to_vector _ _ _) _
  | ev_call (SamGeo_init _ _) _
  | ev_call (LangSAM_init _) _ => true
  | _ => false
  end.

(** [w'] continues [w]: the session is the same, the page and the trace
    have grown, the trace by [evs], and no identity is handed out twice. *)
Definition continues (w w' : World) (evs : list Event) : Prop :=
  session w' = session w ∧ (next_handle w ≤ next_handle w')%nat ∧
  (∃ elements, page w' = page w ++ elements) ∧ trace w' = trace w ++ evs.

Definition quiet (w w' : World) : Prop :=
  ∃ evs, continues w w' evs ∧ Forall (λ e, model_event e = false) evs.

(** A record with every key the panel reads, each of the type the run
    handler stores; "text_prompt" and "sam" are asked for in text-prompt mode
    only. *)
Definition complete_record (r : gmap string Value) : Prop :=
  ∃ tiff mask vector vis pt d,
    r !! "tiff_path" = Some (VStr tiff) ∧ r !! "mask_path" = Some (VStr mask) ∧
    r !! "vector_path" = Some (VStr vector) ∧ r !! "vis_path" = Some (VStr vis) ∧
    r !! "process_type" = Some (VStr pt) ∧ r !! "duration" = Some (VFloat d) ∧
    (pt = "Text-Prompt Suche" →
     ∃ p h, r !! "text_prompt" = Some (VStr p) ∧ r !! "sam" = Some (VHandle h)).

(** Exceptions that come from a collaborator, from a file that is not
    there or from the archive that cannot be written, as opposed to a misuse
    of the record. *)
Definition benign (e : Exn) : Prop :=
  (∃ l, e = LibraryError l) ∨ (∃ p, e = FileNotFoundError p) ∨
  e = PermissionError "segmentation_shp.zip".

Definition raises_benign (results : SVal) (e : Exn) : Prop :=
  ∀ r, results = SDict r → complete_record r → benign e.

(** The events of lines 187-191 in text-prompt mode: the receiver of
    [raster_to_vector] is the stored object, and no model is created. *)
Definition vectorizes_with_stored (r : gmap string Value) (evs : list Event) : Prop :=
  (∀ h m v o, ev_call (raster_to_vector h m v) o ∈ evs →
     r !! "sam" = Some (VHandle h)) ∧
  (∀ h a o, ev_call (SamGeo_init h a) o ∉ evs) ∧
  (∀ h o, ev_call (LangSAM_init h) o ∉ evs).

(** In any other mode: the receiver is an object that did not exist before
    [n], on which [SamGeo()] has been called without arguments and has
    returned. *)
Definition vectorizes_with_fresh (n : Handle) (evs : list Event) : Prop :=
  (∀ h m v o, ev_call (raster_to_vector h m v) o ∈ evs →
     (n ≤ h)%nat ∧ ev_call (SamGeo_init h None) None ∈ evs) ∧
  (∀ h a o, ev_call (SamGeo_init h a) o ∈ evs → (n ≤ h)%nat ∧ a = None) ∧
  (∀ h o, ev_call (LangSAM_init h) o ∉ evs).

Definition vectorizes (results : SVal) (n : Handle) (evs : list Event) : Prop :=
  ∀ r pt, results = SDict r → r !! "process_type" = Some pt →
    if value_eq_str pt "Text-Prompt Suche"
    then vectorizes_with_stored r evs
    else vectorizes_with_fresh n evs.

(** The trace of one rendering of the panel, started in [w0]: events that
    concern no model, then those of the vectorisation, then again events
    that concern no model.  [vectorized] tells that [raster_to_vector] has
    returned. *)
Definition panel_trace (w0 : World) (results : SVal) (vectorized : bool)
  (w' : World) : Prop :=
  (∃ elements, page w' = page w0 ++ elements) ∧
  ∃ before vec after n,
    trace w' = trace w0 ++ before ++ vec ++ after ∧
    Forall (λ e, model_event e = false) before ∧
    Forall (λ e, model_event e = false) after ∧
    (next_handle w0 ≤ n)%nat ∧ (n ≤ next_handle w')%nat ∧
    vectorizes results n vec ∧
    (vectorized = true → ∃ h m v, ev_call (raster_to_vector h m v) None ∈ vec).



End Vocabulary.

(** ** Vocabulary of the further properties *)

Section Coverage.
Context `{Env : Environment}.

(** *** The session *)

(** The session of the initial load, or the one a completed run leaves: a
    complete record with the input map hidden. *)
Definition consistent (s : gmap string SVal) : Prop :=
  (s !! "results" = Some SNone ∧ s !! "map_visible" = Some (SBool true)) ∨
  (∃ r, s !! "results" = Some (SDict r) ∧ complete_record r ∧
        s !! "map_visible" = Some (SBool false)).

(** *** The run handler *)

(** What an execution with a click on the run button can raise:
    [PermissionError] from the cleanup of one of the three output files, or
    whatever a collaborator raised, the failed call being the last event. *)
Definition run_failure (e : Exn) (w' : World) : Prop :=
  (∃ p, e = PermissionError p ∧ p ∈ [tiff_path; mask_path; vector_path]) ∨
  (∃ c l, e = LibraryError l ∧ last (trace w') = Some (ev_call c (Some l))).

(** Of the events [planned] of a run that completes, those that precede
    some call have happened, and that call raised [l]. *)
Definition failed_at (planned : list Event) (l : LibExn) (evs : list Event)
  : Prop :=
  ∃ before c after,
    planned = before ++ ev_call c None :: after ∧
    evs = before ++ [ev_call c (Some l)].

(** *** The calls of the two maps *)

Definition returned (c : Call) : Event := ev_call c None.

(** The events of a sequence of calls of which one raised [l]: the calls
    before it returned, and it is the last event. *)
Definition interrupted (cs : list Call) (l : LibExn) (evs : list Event) : Prop :=
  ∃ before c after,
    cs = before ++ c :: after ∧
    evs = (returned <$> before) ++ [ev_call c (Some l)].

(** The events of the calls [cs], made in order until one raised. *)
Definition calls_until_failure (cs : list Call) (evs : list Event) : Prop :=
  evs = returned <$> cs ∨ ∃ l, interrupted cs l evs.

(** Lines 23-25, [m] being the map object. *)
Definition input_map_calls (m : Handle) : list Call :=
  [ leafmap_Map m (Some (52.4658, 13.3825)%Q) (Some 18) 700;
    Map_add_basemap m "SATELLITE";
    Map_to_streamlit m (Some 500) "main_map" ].

(** [r[k]] for a key the record holds. *)
Definition field_of (r : gmap string Value) (k : string) : Value :=
  default (VStr "") (r !! k).

(** Lines 162-169. *)
Definition comparison_calls (r : gmap string Value) : list Call :=
  [ leafmap_image_comparison (field_of r "tiff_path") (field_of r "vis_path")
      "Satellitenbild" "Segmentierung" 50 700 ].

(** Lines 172-184, [m] being the map object. *)
Definition result_map_calls (r : gmap string Value) (m : Handle) : list Call :=
  [ leafmap_Map m None None 700;
    Map_add_raster m (field_of r "tiff_path") "Satellitenbild" None None None;
    Map_add_raster m (field_of r "mask_path") "Segmentierung" (Some 0.7%Q)
      (Some (if value_eq_str (field_of r "process_type")
                  "Automatische Segmentierung"
             then "viridis" else "Greens"))
      (Some 0) ].

(** Lines 187-191, [fresh] being the object line 190 creates. *)
Definition vectorize_calls (r : gmap string Value) (fresh : Handle) : list Call :=
  if value_eq_str (field_of r "process_type") "Text-Prompt Suche" then
    match r !! "sam" with
    | Some (VHandle sam) =>
        [ raster_to_vector sam (field_of r "mask_path") (field_of r "vector_path") ]
    | _ => []
    end
  else
    [ SamGeo_init fresh None;
      raster_to_vector fresh (field_of r "mask_path") (field_of r "vector_path") ].

(** Lines 194-205. *)
Definition vector_layer_calls (r : gmap string Value) (m : Handle) : list Call :=
  [ Map_add_vector m (field_of r "vector_path") "Vektorisierte Objekte" "#3388ff"
      2 0.5;
    Map_add_layer_control m;
    Map_to_streamlit m None "result_map" ].

(** The calls of one rendering of the panel for the record [r], when the
    next object created is [n]: the result map is [n], the model line 190
    creates is [S n]. *)
Definition panel_calls (r : gmap string Value) (n : Handle) : list Call :=
  comparison_calls r ++ result_map_calls r n ++ vectorize_calls r (S n)
  ++ vector_layer_calls r n.

(** *** The page *)

(** What lines 13-53 put on the page when the input map is hidden or has
    been drawn. *)
Definition form_page (inp : Inputs) : list UIElem :=
  [ui_title "KI-basierte Objekterkennung mit Meta's LangSAM"]
  ++ input_elements inp ++ [ui_button "Starte Segmentierung"].

(** [w'] is reached from [w] with the events [evs], and the reset button
    has not been put on the page. *)
Definition grows (w w' : World) (evs : list Event) : Prop :=
  trace w' = trace w ++ evs ∧
  ∃ elements, page w' = page w ++ elements ∧
              ui_button "Neue Segmentierung starten" ∉ elements.

(** The same, the reset button being the last element of the page. *)
Definition completes (w w' : World) (evs : list Event) : Prop :=
  trace w' = trace w ++ evs ∧
  ∃ elements, page w' = page w ++ elements
                        ++ [ui_button "Neue Segmentierung starten"] ∧
              ui_button "Neue Segmentierung starten" ∉ elements.

(** A block of statements that makes the calls [cs] and stops at the first
    that raises. *)
Definition makes_calls {A} (m : M A) (w : World) (cs : list Call)
  (Q : A → World → Prop) : Prop :=
  wp m
    (λ a w', grows w w' (returned <$> cs) ∧ Q a w')
    (λ e w', ∃ l evs, e = LibraryError l ∧ interrupted cs l evs ∧ grows w w' evs)
    (λ _, False) w.

(** What the exports raise: [open] on a missing file, or the archive
    that cannot be opened for writing. *)
Definition export_failure (e : Exn) : Prop :=
  (∃ p, e = FileNotFoundError p) ∨ e = PermissionError "segmentation_shp.zip".

(** How a rendering of the panel that makes the calls [cs] may end: all
    calls made and the reset button shown; or a call raised, or an export
    failed once all calls have been made, and there is no reset button. *)
Definition renders (m : M unit) (w : World) (cs : list Call) : Prop :=
  wp m
    (λ _ w', completes w w' (returned <$> cs))
    (λ e w',
       (∃ l evs, e = LibraryError l ∧ interrupted cs l evs ∧ grows w w' evs) ∨
       (export_failure e ∧ grows w w' (returned <$> cs)))
    (λ w', completes w w' (returned <$> cs))
    w.

End Coverage.

(** ** A concrete environment *)

(** Collaborators that do the least their interface promises: each call
    that names an output file writes it, nothing else touches the disk, and
    a call raises exactly when [fails] says so.  The state outside the
    script is the list of clock readings still to come; the paths that cannot
    be opened for writing are fixed, given by [refused]. *)
Module Demo.

Definition written_by (c : Call) (d : Disk) : Disk :=
  match c with
  | map_tiles_to_geotiff output _ _ _ _ => put_file output (Raw "tile") d
  | sam_generate _ _ output _ => put_file output (Raw "mask") d
  | sam_predict _ _ _ _ _ output => put_file output (Raw "mask") d
  | plt_savefig fname _ _ => put_file fname (Raw "picture") d
  | raster_to_vector _ _ (VStr output) =>
      let base := (Path.splitext output).1 in
      put_file (base +:+ ".shp") (Raw "shapes") (
      put_file (base +:+ ".shx") (Raw "index") (
      put_file (base +:+ ".dbf") (Raw "attributes") (
      put_file (base +:+ ".prj") (Raw "projection") d)))
  | _ => d
  end.

Definition env_with (refused : string → option OpenError) (fails : Call → bool)
  : Environment := {|
  ExtSt := list Q;
  lib_call c x d :=
    if fails c then (Some (lib_exn "failure"), x, d)
    else (None, x, written_by c d);
  time_time x := (hd 0%Q x, tl x);
  open_w p x := refused p;
  float_str x := pretty (Qnum x) +:+ "/" +:+ pretty (Zpos (Qden x));
  float_format_1f x :=
    let tenths := Qnum x * 10 / Zpos (Qden x) in
    pretty (tenths / 10) +:+ "." +:+ pretty (tenths `mod` 10);
  object_str h := "<object " +:+ pretty h +:+ ">" |}.

(** A file system that lets every path be opened for writing. *)
Definition env (fails : Call → bool) : Environment := env_with (λ _, None) fails.

Definition reliable : Call → bool := λ _, false.

Definition download_fails (c : Call) : bool :=
  match c with
  | map_tiles_to_geotiff _ _ _ _ _ => true
  | _ => false
  end.

Definition savefig_fails (c : Call) : bool :=
  match c with
  | plt_savefig _ _ _ => true
  | _ => false
  end.

(** The form as the page first shows it, with a mode and a prompt. *)
Definition form (mode : Mode) (prompt : string) (run reset : bool) : Inputs :=
  mkInputs mode prompt 0.24 0.24 13.38 52.46436 13.3832 52.4672 run reset.

(** A browser session that has loaded the page once. *)
Definition loaded (fails : Call → bool) (d : Disk) (readings : list Q)
  : @World (env fails) :=
  @mkWorld (env fails) d
    (<["map_visible" := SBool true]> (<["results" := SNone]> ∅))
    readings 0%nat [] [].

(** The forms of four interactions. *)
Definition run_automatic : Inputs := form Automatic "tree" true false.
Definition run_text_prompt : Inputs := form TextPrompt "tree" true false.
Definition idle : Inputs := form Automatic "tree" false false.
Definition reset : Inputs := form Automatic "tree" false true.

(** Disks: one where "masks.tif" cannot be removed, one with files of an
    earlier run, one with two of the four sidecar files. *)
Definition locked_mask : Disk :=
  {[ "masks.tif" := mkFile (Raw "old mask") false ]}.

Definition old_files : Disk :=
  <["satellite.tif" := mkFile (Raw "old tile") true]>
    {[ "masks.shx" := mkFile (Raw "stale index") true ]}.

Definition two_sidecars : Disk :=
  <["masks.shp" := mkFile (Raw "shapes") true]>
    {[ "masks.dbf" := mkFile (Raw "attributes") true ]}.

(** The session after a run of either mode with reliable collaborators, the
    clock reading 10 and then 13. *)
Definition after_automatic_run : @World (env reliable) :=
  final (script run_automatic (loaded reliable ∅ [10; 13]%Q)).

Definition after_text_prompt_run : @World (env reliable) :=
  final (script run_text_prompt (loaded reliable ∅ [10; 13]%Q)).

(** The base layer of the input map cannot be added. *)
Definition basemap_fails (c : Call) : bool :=
  match c with
  | Map_add_basemap _ _ => true
  | _ => false
  end.

(** A session in which another page of the application has stored a key. *)
Definition with_user_key : @World (env reliable) :=
  @mkWorld (env reliable) ∅ {[ "user" := SBool true ]} [10; 13]%Q 0%nat [] [].

(** More disks: one where "satellite.tif" can be removed, "masks.tif" cannot
    and "masks.shp" is there; one with the files of a run and two of the four
    sidecar files. *)
Definition locked_second : Disk :=
  <["satellite.tif" := mkFile (Raw "old tile") true]> (
  <["masks.tif" := mkFile (Raw "old mask") false]> (
  {[ "masks.shp" := mkFile (Raw "old shapes") true ]})).

Definition exported : Disk :=
  <["masks.tif" := mkFile (Raw "mask") true]> (
  <["visualization.png" := mkFile (Raw "picture") true]> two_sidecars).

(** The session an automatic run leaves, on a disk that has lost the files
    of the run. *)
Definition results_without_files : @World (env reliable) :=
  with_disk ∅ after_automatic_run.



(** A file system in which the archive of the page is protected against
    writing, as an immutable file is, and in which "missing" is no
    directory. *)
Definition refused (p : string) : option OpenError :=
  if String.eqb p "segmentation_shp.zip" then Some no_permission
  else match Text.after_prefix "missing/" p with
       | Some _ => Some no_such_directory
       | None => None
       end.

(** The session an automatic run leaves and the files of the run, on that
    file system. *)
Definition protected_archive : @World (env_with refused reliable) :=
  @mkWorld (env_with refused reliable) exported
    (<["map_visible" := SBool false]>
       (<["results" := SDict (automatic_record "Automatische Segmentierung" 3)]> ∅))
    [] 2%nat [] [].

End Demo.

(** * Facts *)

Example splitext_masks : Path.splitext "masks.shp" = ("masks", ".shp").
Proof. reflexivity. Qed.
Example splitext_dir : Path.splitext "out.d/masks" = ("out.d/masks", "").
Proof. reflexivity. Qed.
Example splitext_hidden : Path.splitext "out/.shp" = ("out/.shp", "").
Proof. reflexivity. Qed.
Example splitext_dots : Path.splitext "..a.b" = ("..a", ".b").
Proof. reflexivity. Qed.
Example basename_dir : Path.basename "out/run1/masks.dbf" = "masks.dbf".
Proof. reflexivity. Qed.

(** What Streamlit does to a body: the blank that starts the second header
    of the form is removed, and so is one that ends a prompt; a line of
    blanks is emptied, a common margin removed. *)
Example clean_text_form_header :
  Text.clean_text " Bounding Box festlegen" = "Bounding Box festlegen".
Proof. reflexivity. Qed.
Example clean_text_trailing_blank :
  Text.clean_text "Ergebnisse: tree " = "Ergebnisse: tree".
Proof. reflexivity. Qed.
Example clean_text_lines :
  Text.clean_text
    (Text.encoded [32; 32; 97; 10; 32; 32; 32; 98; 10; 32; 10; 32; 32; 99; 194; 160]%N)
  = Text.encoded [97; 10; 32; 98; 10; 10; 99]%N.
Proof. reflexivity. Qed.

(** Two interactions with the concrete collaborators.  A text-prompt run
    for "tree" ends on the results page, whose headers are those of the form
    and of the panel; when the download fails the execution raises and the
    session still holds no results. *)
Example text_prompt_interaction :
  omap (λ u, match u with ui_header s => Some s | _ => None end)
    (page (final (interact Demo.run_text_prompt
                    (Demo.loaded Demo.reliable ∅ [10; 13]%Q))))
  = [ "⚙️ Einstellungen"; "Bounding Box festlegen"; "Ergebnisse: tree";
      "Ergebnisse exportieren" ].
Proof. vm_compute. reflexivity. Qed.

Example failed_download_interaction :
  raised (interact Demo.run_automatic (Demo.loaded Demo.download_fails ∅ []))
  = Some (LibraryError (lib_exn "failure")) ∧
  session (final (interact Demo.run_automatic
                    (Demo.loaded Demo.download_fails ∅ []))) !! "results"
  = Some SNone.
Proof. split; vm_compute; reflexivity. Qed.

(** ** Reasoning about the script monad *)

Section Logic.
Context `{Env : Environment}.

Lemma wp_done {A} (m : M A) Qd Qr Qn w a w' :
  wp m Qd Qr Qn w → m w = Done a w' → Qd a w'.
Proof. unfold wp. intros H E. by rewrite E in H. Qed.

Lemma wp_raised {A} (m : M A) Qd Qr Qn w e w' :
  wp m Qd Qr Qn w → m w = Raised e w' → Qr e w'.
Proof. unfold wp. intros H E. by rewrite E in H. Qed.

Lemma wp_rerun {A} (m : M A) Qd Qr Qn w w' :
  wp m Qd Qr Qn w → m w = Rerun w' → Qn w'.
Proof. unfold wp. intros H E. by rewrite E in H. Qed.

Lemma wp_mono {A} (m : M A) (Qd Qd' : A → World → Prop)
  (Qr Qr' : Exn → World → Prop) (Qn Qn' : World → Prop) w :
  wp m Qd Qr Qn w →
  (∀ a w', Qd a w' → Qd' a w') → (∀ e w', Qr e w' → Qr' e w') →
  (∀ w', Qn w' → Qn' w') →
  wp m Qd' Qr' Qn' w.
Proof. unfold wp. destruct (m w); eauto. Qed.

Lemma wp_bind {A B} (m : M A) (f : A → M B) Qd Qr Qn w :
  wp m (λ a w', wp (f a) Qd Qr Qn w') Qr Qn w → wp (m ≫= f) Qd Qr Qn w.
Proof. unfold wp, mbind, M_bind. by destruct (m w). Qed.

Lemma wp_ret {A} (a : A) Qd Qr Qn w : Qd a w → wp (mret a) Qd Qr Qn w.
Proof. done. Qed.

Lemma wp_raise {A} e (Qd : A → World → Prop) Qr Qn w :
  Qr e w → wp (raise e) Qd Qr Qn w.
Proof. done. Qed.

Lemma wp_st_rerun Qd Qr (Qn : World → Prop) w : Qn w → wp st_rerun Qd Qr Qn w.
Proof. done. Qed.

Lemma wp_when b body Qd Qr Qn w :
  (b = true → wp body Qd Qr Qn w) → (b = false → Qd tt w) →
  wp (when b body) Qd Qr Qn w.
Proof. intros Ht Hf. destruct b; [by apply Ht | by apply wp_ret, Hf]. Qed.

Lemma wp_emit u Qd Qr Qn w :
  Qd tt (mkWorld (disk w) (session w) (ext w) (next_handle w) (trace w)
           (page w ++ [u])) →
  wp (emit u) Qd Qr Qn w.
Proof. done. Qed.

Lemma wp_session_set k v Qd Qr Qn w :
  Qd tt (mkWorld (disk w) (<[k := v]> (session w)) (ext w) (next_handle w)
           (trace w) (page w)) →
  wp (session_set k v) Qd Qr Qn w.
Proof. done. Qed.

Lemma wp_session_get k Qd Qr Qn w :
  (∀ v, session w !! k = Some v → Qd v w) →
  (session w !! k = None → Qr (AttributeError k) w) →
  wp (session_get k) Qd Qr Qn w.
Proof. unfold wp, session_get. destruct (session w !! k); auto. Qed.

Lemma wp_session_contains k Qd Qr Qn w :
  Qd (bool_decide (is_Some (session w !! k))) w →
  wp (session_contains k) Qd Qr Qn w.
Proof. done. Qed.

Lemma wp_new_object Qd Qr Qn w :
  Qd (next_handle w)
    (mkWorld (disk w) (session w) (ext w) (S (next_handle w)) (trace w) (page w)) →
  wp new_object Qd Qr Qn w.
Proof. done. Qed.

Lemma wp_call c Qd Qr Qn w :
  (∀ x d, lib_call c (ext w) (disk w) = (None, x, d) →
     Qd tt (mkWorld d (session w) x (next_handle w)
              (trace w ++ [ev_call c None]) (page w))) →
  (∀ e x d, lib_call c (ext w) (disk w) = (Some e, x, d) →
     Qr (LibraryError e)
       (mkWorld d (session w) x (next_handle w)
          (trace w ++ [ev_call c (Some e)]) (page w))) →
  wp (call c) Qd Qr Qn w.
Proof.
  intros Hd Hr. unfold wp, call.
  destruct (lib_call c (ext w) (disk w)) as [[[e|] x] d]; auto.
Qed.

Lemma wp_time_now Qd Qr Qn w :
  (∀ t x, time_time (ext w) = (t, x) →
     Qd t (mkWorld (disk w) (session w) x (next_handle w)
             (trace w ++ [ev_time t]) (page w))) →
  wp time_now Qd Qr Qn w.
Proof.
  intros Hd. unfold wp, time_now. destruct (time_time (ext w)) as [t x]. auto.
Qed.

Lemma wp_name_lookup {A} x (v : option A) Qd Qr Qn w :
  (∀ a, v = Some a → Qd a w) → (v = None → Qr (NameError x) w) →
  wp (name_lookup x v) Qd Qr Qn w.
Proof. intros Hs Hn. destruct v; [by apply wp_ret, Hs | by apply wp_raise, Hn]. Qed.

Lemma wp_subscript_dict (d : gmap string Value) k Qd Qr Qn w :
  (∀ v, d !! k = Some v → Qd v w) → (d !! k = None → Qr (KeyError k) w) →
  wp (subscript (SDict d) k) Qd Qr Qn w.
Proof.
  intros Hs Hn. unfold subscript.
  destruct (d !! k); [by apply wp_ret, Hs | by apply wp_raise, Hn].
Qed.

Lemma wp_subscript_known (d : gmap string Value) k v Qd Qr Qn w :
  d !! k = Some v → Qd v w → wp (subscript (SDict d) k) Qd Qr Qn w.
Proof. intros Hk HQ. unfold wp, subscript. by rewrite Hk. Qed.

Lemma wp_session_get_known k v Qd Qr Qn w :
  session w !! k = Some v → Qd v w → wp (session_get k) Qd Qr Qn w.
Proof. intros Hk HQ. unfold wp, session_get. by rewrite Hk. Qed.

Lemma wp_subscript_none k Qd Qr Qn w :
  Qr TypeError w → wp (subscript SNone k) Qd Qr Qn w.
Proof. done. Qed.

Lemma wp_subscript_bool b k Qd Qr Qn w :
  Qr TypeError w → wp (subscript (SBool b) k) Qd Qr Qn w.
Proof. done. Qed.

Lemma wp_as_path v Qd Qr Qn w :
  match v with VStr s => Qd s w | _ => Qr TypeError w end →
  wp (as_path v) Qd Qr Qn w.
Proof. by destruct v. Qed.

Lemma wp_format_1f v Qd Qr Qn w :
  match v with
  | VFloat x => Qd (float_format_1f x) w
  | VStr _ => Qr ValueError w
  | VHandle _ => Qr TypeError w
  end →
  wp (format_1f v) Qd Qr Qn w.
Proof. by destruct v. Qed.

Lemma wp_method_receiver v attr Qd Qr Qn w :
  match v with VHandle h => Qd h w | _ => Qr (AttributeError attr) w end →
  wp (method_receiver v attr) Qd Qr Qn w.
Proof. by destruct v. Qed.

Lemma wp_os_path_exists p Qd Qr Qn w :
  Qd (bool_decide (is_Some (disk w !! p))) w → wp (os_path_exists p) Qd Qr Qn w.
Proof. done. Qed.

Lemma wp_os_remove p Qd Qr Qn w :
  (∀ f, disk w !! p = Some f → removable f = true →
     Qd tt (mkWorld (delete p (disk w)) (session w) (ext w) (next_handle w)
              (trace w) (page w))) →
  (∀ f, disk w !! p = Some f → removable f = false → Qr (PermissionError p) w) →
  (disk w !! p = None → Qr (FileNotFoundError p) w) →
  wp (os_remove p) Qd Qr Qn w.
Proof.
  intros Hd Hp Hn. unfold wp, os_remove.
  destruct (disk w !! p) as [f|]; [|auto].
  destruct (removable f) eqn:E; simpl; eauto.
Qed.

Lemma wp_open_rb p Qd Qr Qn w :
  (∀ f, disk w !! p = Some f → Qd (data f) w) →
  (disk w !! p = None → Qr (FileNotFoundError p) w) →
  wp (open_rb p) Qd Qr Qn w.
Proof.
  intros Hd Hn. unfold wp, open_rb. destruct (disk w !! p); auto.
Qed.

End Logic.

(** ** Facts about paths *)

Module PathFacts.
Import Path.

Lemma app_nil_l (t : string) : "" +:+ t = t.
Proof. reflexivity. Qed.

Lemma app_cons a (s t : string) : String a s +:+ t = String a (s +:+ t).
Proof. reflexivity. Qed.

Lemma rfind_bounds c s : -1 ≤ rfind c s < Z.of_nat (String.length s).
Proof.
  induction s as [|a s IH]; simpl; [lia|].
  destruct (0 <=? rfind c s) eqn:E; [apply Z.leb_le in E; lia|].
  destruct (Ascii.eqb a c); lia.
Qed.

Lemma rfind_app_absent c s t :
  rfind c t = -1 → rfind c (s +:+ t) = rfind c s.
Proof.
  intros Ht. induction s as [|a s IH]; [done|].
  rewrite app_cons. simpl. by rewrite IH.
Qed.

Lemma drop_app n s t :
  (n ≤ String.length s)%nat → drop n (s +:+ t) = drop n s +:+ t.
Proof.
  revert s. induction n as [|n IH]; intros [|a s] Hn; simpl in *;
    try done; try lia.
  rewrite ?app_cons. simpl. apply IH. lia.
Qed.

(** Appending an extension that holds no separator to a path appends it to
    the path's base name. *)
Lemma basename_app p ext :
  rfind sep ext = -1 → basename (p +:+ ext) = basename p +:+ ext.
Proof.
  intros Hext. unfold basename. rewrite rfind_app_absent by done.
  apply drop_app. pose proof (rfind_bounds sep p). lia.
Qed.

Lemma app_length s t :
  String.length (s +:+ t) = (String.length s + String.length t)%nat.
Proof.
  induction s as [|a s IH]; [done|]. rewrite app_cons. simpl. by rewrite IH.
Qed.

Lemma drop_length_app s t : drop (String.length s) (s +:+ t) = t.
Proof.
  induction s as [|a s IH]; [by destruct t|]. by rewrite app_cons.
Qed.






(** The last characters of [s +:+ t] are [t]. *)
Lemma suffix_of_app s t z :
  s +:+ t = z → drop (String.length z - String.length t) z = t.
Proof.
  intros <-. rewrite app_length.
  replace (String.length s + String.length t - String.length t)%nat
    with (String.length s) by lia.
  apply drop_length_app.
Qed.

End PathFacts.

(** ** Facts about the cleaning of text *)

Module TextFacts.
Import Text.


















End TextFacts.

(** The body of an element that is written out is shown cleaned. *)
Ltac is_literal s :=
  lazymatch s with
  | EmptyString => idtac
  | String (Ascii _ _ _ _ _ _ _ _) ?s' => is_literal s'
  end.

Ltac clean_literals :=
  repeat match goal with
         | |- context [Text.clean_text ?s] =>
             is_literal s;
             let v := eval vm_compute in (Text.clean_text s) in
             change (Text.clean_text s) with v
         end.

(** Symbolic execution of one statement.  The world is kept in the form
    [mkWorld _ _ _ _ _ _] over the fields of the initial one. *)
Ltac wp_world :=
  cbv beta;
  lazymatch goal with
  | |- wp ?m ?Qd ?Qr ?Qn ?w =>
      let w' := eval cbn [disk session ext next_handle trace page] in w in
      change (wp m Qd Qr Qn w')
  | |- _ => cbn [disk session ext next_handle trace page]
  end.

Ltac wp_step :=
  lazymatch goal with
  | |- wp (_ ≫= _) _ _ _ _ => apply wp_bind
  | |- wp (mret _) _ _ _ _ => apply wp_ret; wp_world
  | |- wp (raise _) _ _ _ _ => apply wp_raise; wp_world
  | |- wp st_rerun _ _ _ _ => apply wp_st_rerun; wp_world
  | |- wp (emit _) _ _ _ _ => apply wp_emit; wp_world
  | |- wp (st_title _) _ _ _ _ => apply wp_emit; clean_literals; wp_world
  | |- wp (st_header _) _ _ _ _ => apply wp_emit; clean_literals; wp_world
  | |- wp (st_subheader _) _ _ _ _ => apply wp_emit; clean_literals; wp_world
  | |- wp (st_info _) _ _ _ _ => apply wp_emit; clean_literals; wp_world
  | |- wp (st_success _) _ _ _ _ => apply wp_emit; clean_literals; wp_world
  | |- wp (st_spinner _) _ _ _ _ => apply wp_emit; clean_literals; wp_world
  | |- wp (session_set _ _) _ _ _ _ => apply wp_session_set; wp_world
  | |- wp (session_contains _) _ _ _ _ => apply wp_session_contains; wp_world
  | |- wp new_object _ _ _ _ => apply wp_new_object; wp_world
  | |- wp time_now _ _ _ _ => apply wp_time_now; intros ? ? _; wp_world
  | |- wp (call _) _ _ _ _ =>
      apply wp_call; [intros ? ? _|intros ? ? ? _]; wp_world
  | |- wp (os_path_exists _) _ _ _ _ => apply wp_os_path_exists; wp_world
  end.

(** ** The archive export *)

Section Archive.
Context `{Env : Environment}.

Lemma lookup_put_file_eq p c (d : Disk) :
  data <$> put_file p c d !! p = Some c.
Proof.
  unfold put_file. destruct (d !! p); by rewrite lookup_insert_eq.
Qed.

Lemma lookup_put_file_ne p q c (d : Disk) :
  p ≠ q → put_file p c d !! q = d !! q.
Proof.
  intros Hne. unfold put_file. destruct (d !! p); by rewrite lookup_insert_ne.
Qed.

Lemma existing_entries_ext (d d' : Disk) base exts :
  Forall (λ ext, d' !! (base +:+ ext) = d !! (base +:+ ext)) exts →
  existing_entries d' base exts = existing_entries d base exts.
Proof.
  unfold existing_entries. induction 1 as [|ext exts Hx _ IH]; [done|].
  csimpl. by rewrite Hx, IH.
Qed.

Lemma existing_entries_cons (d : Disk) base x exts :
  existing_entries d base (x :: exts)
  = match d !! (base +:+ x) with
    | Some f => (Path.basename base +:+ x, data f) :: existing_entries d base exts
    | None => existing_entries d base exts
    end.
Proof. unfold existing_entries. csimpl. by destruct (d !! (base +:+ x)). Qed.

Lemma add_if_exists_present zip_path file_path w f es :
  disk w !! file_path = Some f →
  data <$> disk w !! zip_path = Some (Zip es) →
  add_if_exists zip_path file_path w
  = Done tt (mkWorld
               (put_file zip_path
                  (Zip (es ++ [(Path.basename file_path, data f)])) (disk w))
               (session w) (ext w) (next_handle w) (trace w) (page w)).
Proof.
  intros Hf Hzip.
  unfold add_if_exists, mbind, M_bind, os_path_exists, ZipFile_write.
  rewrite Hf. simpl. by rewrite Hf, Hzip.
Qed.

Lemma add_if_exists_absent zip_path file_path w :
  disk w !! file_path = None → add_if_exists zip_path file_path w = Done tt w.
Proof.
  intros Hf. unfold add_if_exists, mbind, M_bind, os_path_exists.
  by rewrite Hf.
Qed.

(** The loop of lines 216-219, started on an archive that holds [es]. *)
Lemma zip_loop base zip_path exts : ∀ w es,
  Forall (λ x, Path.rfind Path.sep x = -1 ∧ base +:+ x ≠ zip_path) exts →
  data <$> disk w !! zip_path = Some (Zip es) →
  ∃ d',
    for_each exts (λ x, add_if_exists zip_path (base +:+ x)) w
    = Done tt (mkWorld d' (session w) (ext w) (next_handle w) (trace w) (page w))
    ∧ data <$> d' !! zip_path
      = Some (Zip (es ++ existing_entries (disk w) base exts))
    ∧ ∀ p, p ≠ zip_path → d' !! p = disk w !! p.
Proof.
  induction exts as [|x exts IH]; intros w es Hexts Hzip.
  - exists (disk w). destruct w. simpl in *. by rewrite app_nil_r.
  - apply Forall_cons in Hexts as [[Hsep Hne] Hexts].
    assert (Hrest : ∀ d1 : Disk, (∀ p, p ≠ zip_path → d1 !! p = disk w !! p) →
              existing_entries d1 base exts = existing_entries (disk w) base exts).
    { intros d1 Hd1. apply existing_entries_ext.
      eapply Forall_impl; [exact Hexts|]. intros e [_ He]. by apply Hd1. }
    simpl for_each. unfold mbind at 1, M_bind at 1.
    rewrite existing_entries_cons.
    destruct (disk w !! (base +:+ x)) as [f|] eqn:Hf.
    + rewrite (add_if_exists_present _ _ _ f es) by done.
      set (d1 := put_file zip_path _ (disk w)).
      set (w1 := mkWorld d1 _ _ _ _ _).
      destruct (IH w1 (es ++ [(Path.basename (base +:+ x), data f)]) Hexts)
        as (d' & Hrun & Hd' & Hframe).
      { apply lookup_put_file_eq. }
      exists d'. split; [exact Hrun|]. split.
      * rewrite Hd', (Hrest (disk w1)), <- app_assoc.
        -- by rewrite PathFacts.basename_app.
        -- intros p Hp. by apply lookup_put_file_ne.
      * intros p Hp. rewrite Hframe by done. by apply lookup_put_file_ne.
    + rewrite add_if_exists_absent by done.
      destruct (IH w es Hexts Hzip) as (d' & Hrun & Hd' & Hframe).
      by exists d'.
Qed.


(** No sidecar path is the archive the page writes. *)
Lemma archive_is_no_sidecar shp_path :
  "segmentation_shp.zip" ∉ sidecar_paths shp_path.
Proof.
  unfold sidecar_paths. intros Hin. apply list_elem_of_fmap in Hin as (x & Hx & Hin).
  symmetry in Hx. apply PathFacts.suffix_of_app in Hx.
  repeat (apply elem_of_cons in Hin as [->|Hin]; [by vm_compute in Hx|]).
  by apply elem_of_nil in Hin.
Qed.

Lemma sidecar_ne shp_path zip_path x :
  zip_path ∉ sidecar_paths shp_path →
  x ∈ [".shp"; ".shx"; ".dbf"; ".prj"] →
  (Path.splitext shp_path).1 +:+ x ≠ zip_path.
Proof.
  intros Hzip Hx Heq. apply Hzip. unfold sidecar_paths.
  apply list_elem_of_fmap. by exists x.
Qed.

Lemma extension_no_sep x :
  x ∈ [".shp"; ".shx"; ".dbf"; ".prj"] → Path.rfind Path.sep x = -1.
Proof.
  intros Hx. repeat (apply elem_of_cons in Hx as [->|Hx]; [done|]).
  by apply elem_of_nil in Hx.
Qed.

(** When the archive cannot be opened the export raises at once: nothing
    is written. *)
Lemma create_shapefile_zip_refused shp_path zip_path w e :
  open_w zip_path (ext w) = Some e →
  create_shapefile_zip shp_path zip_path w = Raised (open_exn zip_path e) w.
Proof.
  intros Hopen. unfold create_shapefile_zip. cbv zeta.
  unfold mbind at 1, M_bind at 1. unfold ZipFile_w. by rewrite Hopen.
Qed.

Lemma create_shapefile_zip_run shp_path zip_path w :
  zip_path ∉ sidecar_paths shp_path →
  open_w zip_path (ext w) = None →
  ∃ d',
    create_shapefile_zip shp_path zip_path w
    = Done tt (mkWorld d' (session w) (ext w) (next_handle w) (trace w) (page w))
    ∧ data <$> d' !! zip_path
      = Some (Zip (existing_entries (disk w) (Path.splitext shp_path).1
                     [".shp"; ".shx"; ".dbf"; ".prj"]))
    ∧ ∀ p, p ≠ zip_path → d' !! p = disk w !! p.
Proof.
  intros Hzip Hopen. unfold create_shapefile_zip. cbv zeta.
  unfold mbind at 1, M_bind at 1. unfold ZipFile_w, set_disk. rewrite Hopen.
  set (w0 := mkWorld _ _ _ _ _ _).
  destruct (zip_loop (Path.splitext shp_path).1 zip_path
              [".shp"; ".shx"; ".dbf"; ".prj"] w0 [])
    as (d' & Hrun & Hd' & Hframe).
  - apply Forall_forall. intros x Hx. split;
      [by apply extension_no_sep | by apply sidecar_ne].
  - apply lookup_put_file_eq.
  - exists d'. split; [exact Hrun|]. split.
    + rewrite Hd', app_nil_l.
      rewrite (existing_entries_ext (disk w) (disk w0)); [done|].
      apply Forall_forall. intros x Hx. apply lookup_put_file_ne.
      intros Heq. by apply (sidecar_ne shp_path zip_path x).
    + intros p Hp. rewrite Hframe by done. by apply lookup_put_file_ne.
Qed.

Lemma wp_create_shapefile_zip shp_path zip_path Qd Qr Qn w :
  zip_path ∉ sidecar_paths shp_path →
  (open_w zip_path (ext w) = None →
   ∀ d',
     data <$> d' !! zip_path
     = Some (Zip (existing_entries (disk w) (Path.splitext shp_path).1
                    [".shp"; ".shx"; ".dbf"; ".prj"])) →
     (∀ p, p ≠ zip_path → d' !! p = disk w !! p) →
     Qd tt (mkWorld d' (session w) (ext w) (next_handle w) (trace w) (page w))) →
  (open_w zip_path (ext w) = Some no_permission →
   Qr (PermissionError zip_path) w) →
  (open_w zip_path (ext w) = Some no_such_directory →
   Qr (FileNotFoundError zip_path) w) →
  wp (create_shapefile_zip shp_path zip_path) Qd Qr Qn w.
Proof.
  intros Hzip HQ Hp Hn. unfold wp.
  destruct (open_w zip_path (ext w)) as [e|] eqn:Hopen.
  - rewrite (create_shapefile_zip_refused _ _ _ e Hopen).
    destruct e; [by apply Hp|by apply Hn].
  - destruct (create_shapefile_zip_run shp_path zip_path w Hzip Hopen)
      as (d' & Hrun & Hd' & Hframe).
    rewrite Hrun. by apply HQ.
Qed.

End Archive.

(** Symbolic execution of the statements that branch on a value.  A key
    whose value is known from a hypothesis is read without a case
    distinction. *)
Ltac wp_case :=
  lazymatch goal with
  | |- wp (when _ _) _ _ _ _ => apply wp_when; intros ?
  | |- wp (if value_eq_str (VStr ?a) ?b then _ else _) _ _ _ _ =>
      let H := fresh "Hcmp" in
      change (value_eq_str (VStr a) b) with (String.eqb a b);
      destruct (String.eqb_spec a b) as [H|H];
      [ first [discriminate H | subst a | idtac]
      | first [by (exfalso; apply H) | idtac] ]
  | |- wp (if ?b then _ else _) _ _ _ _ => destruct b eqn:?
  | |- wp (session_get ?k) _ _ _ _ =>
      first [ lazymatch goal with
              | H : session _ !! k = Some ?v |- _ =>
                  apply (wp_session_get_known k v); [exact H|]
              end
            | apply wp_session_get; [intros ? ?|intros ?] ]
  | |- wp (subscript (SDict ?r) ?k) _ _ _ _ =>
      first [ lazymatch goal with
              | H : r !! k = Some ?v |- _ =>
                  apply (wp_subscript_known r k v); [exact H|]
              end
            | apply wp_subscript_dict; [intros ? ?|intros ?] ]
  | |- wp (subscript SNone _) _ _ _ _ => apply wp_subscript_none
  | |- wp (subscript (SBool _) _) _ _ _ _ => apply wp_subscript_bool
  | |- wp (subscript ?v _) _ _ _ _ => destruct v
  | |- wp (format_1f ?v) _ _ _ _ => apply wp_format_1f; destruct v
  | |- wp (as_path ?v) _ _ _ _ => apply wp_as_path; destruct v
  | |- wp (method_receiver ?v _) _ _ _ _ => apply wp_method_receiver; destruct v
  | |- wp (name_lookup _ _) _ _ _ _ => apply wp_name_lookup; [intros ? ?|intros ?]
  | |- wp (open_rb _) _ _ _ _ => apply wp_open_rb; [intros ? _|intros _]
  | |- wp (download_button _ _ _) _ _ _ _ => unfold download_button
  | |- wp (st_button _ _) _ _ _ _ => unfold st_button
  | |- wp (create_shapefile_zip _ "segmentation_shp.zip") _ _ _ _ =>
      apply wp_create_shapefile_zip;
      [ apply archive_is_no_sidecar
      | intros _ ? _ _; wp_world
      | intros _; wp_world
      | intros _; wp_world ]
  end.

Ltac wp_run := repeat first [wp_step | wp_case].

(** ** The results panel *)

Section Results.
Context `{Env : Environment}.

Lemma continues_intro w w' old new evs :
  session w' = session w → (next_handle w ≤ next_handle w')%nat →
  page w' = page w ++ new → trace w = old → trace w' = old ++ evs →
  continues w w' evs.
Proof. intros Hs Hn Hp <- Ht. repeat split; eauto. Qed.

Lemma quiet_refl w : quiet w w.
Proof.
  exists []. split; [|constructor].
  repeat split; [lia|by exists []; rewrite app_nil_r|by rewrite app_nil_r].
Qed.

Lemma quiet_trans w1 w2 w3 : quiet w1 w2 → quiet w2 w3 → quiet w1 w3.
Proof.
  intros (evs1 & (Hs1 & Hn1 & (p1 & Hp1) & Ht1) & Hq1)
         (evs2 & (Hs2 & Hn2 & (p2 & Hp2) & Ht2) & Hq2).
  exists (evs1 ++ evs2). split; [|by apply Forall_app].
  repeat split.
  - congruence.
  - lia.
  - exists (p1 ++ p2). by rewrite Hp2, Hp1, app_assoc.
  - by rewrite Ht2, Ht1, app_assoc.
Qed.

End Results.

(** The world reached at the end of a branch continues the initial one. *)
Ltac solve_continues :=
  eapply continues_intro;
  [ reflexivity
  | cbn [next_handle]; lia
  | cbn [page]; rewrite <- ?app_assoc; first [reflexivity | symmetry; apply app_nil_r]
  | reflexivity
  | cbn [trace]; rewrite <- ?app_assoc; first [reflexivity | symmetry; apply app_nil_r] ].

Ltac solve_quiet :=
  eexists; split; [solve_continues | cbn [app]; by repeat constructor].

(** An exception at the end of a branch, for a complete record. *)
Ltac solve_benign :=
  let r := fresh "r" in
  let Heq := fresh "Heq" in
  let Htext := fresh "Htext" in
  intros r Heq (? & ? & ? & ? & ? & ? & ? & ? & ? & ? & ? & ? & Htext);
  simplify_eq;
  first
    [ by left; eexists
    | by right; left; eexists
    | by right; right
    | exfalso;
      try match goal with
          | H : value_eq_str (VStr _) _ = true |- _ =>
              apply String.eqb_eq in H;
              destruct (Htext H) as (? & ? & ? & ?)
          end;
      congruence ].

Section Blocks.
Context `{Env : Environment}.

Lemma show_heading_wp results w :
  wp (show_heading results)
    (λ _, quiet w) (λ e w', quiet w w' ∧ raises_benign results e) (λ _, False) w.
Proof.
  unfold show_heading. wp_run.
  all: first [ solve_quiet | split; [solve_quiet | solve_benign] ].
Qed.

Lemma show_comparison_wp results w :
  wp (show_comparison results)
    (λ _, quiet w) (λ e w', quiet w w' ∧ raises_benign results e) (λ _, False) w.
Proof.
  unfold show_comparison. wp_run.
  all: first [ solve_quiet | split; [solve_quiet | solve_benign] ].
Qed.

Lemma show_result_map_wp results w :
  wp (show_result_map results)
    (λ _, quiet w) (λ e w', quiet w w' ∧ raises_benign results e) (λ _, False) w.
Proof.
  unfold show_result_map. wp_run.
  all: first [ solve_quiet | split; [solve_quiet | solve_benign] ].
Qed.

Lemma show_vector_layer_wp results result_map w :
  wp (show_vector_layer results result_map)
    (λ _, quiet w) (λ e w', quiet w w' ∧ raises_benign results e) (λ _, False) w.
Proof.
  unfold show_vector_layer. wp_run.
  all: first [ solve_quiet | split; [solve_quiet | solve_benign] ].
Qed.

Lemma show_downloads_wp results w :
  wp (show_downloads results)
    (λ _, quiet w) (λ e w', quiet w w' ∧ raises_benign results e) (λ _, False) w.
Proof.
  unfold show_downloads. wp_run.
  all: first [ solve_quiet | split; [solve_quiet | solve_benign] ].
Qed.

End Blocks.

(** Membership of an event in a list of events that is written out. *)
Ltac in_events H :=
  cbn [app] in H;
  repeat (apply elem_of_cons in H as [H|H]; [simplify_eq|]);
  try (by apply elem_of_nil in H).

(** The events at the end of a branch of lines 187-191. *)
Ltac solve_vectorizes :=
  intros ? ? ? ?; simplify_eq;
  try match goal with H : value_eq_str _ _ = _ |- _ => rewrite H end;
  try lazymatch goal with |- if ?b then _ else _ => destruct b end;
  (split; [|split]); unfold not; intros;
  lazymatch goal with Hin : _ ∈ _ |- _ => in_events Hin end;
  try first
    [ done
    | split; [cbn [next_handle]; lia|];
      first [ done
            | cbn [app];
              repeat first [apply list_elem_of_here | apply list_elem_of_further] ] ].

Section Blocks2.
Context `{Env : Environment}.

Lemma vectorize_wp results w :
  wp (vectorize results)
    (λ _ w', ∃ evs,
       continues w w' evs ∧ vectorizes results (next_handle w) evs ∧
       ∃ h m v, ev_call (raster_to_vector h m v) None ∈ evs)
    (λ e w',
       (∃ evs, continues w w' evs ∧ vectorizes results (next_handle w) evs) ∧
       raises_benign results e)
    (λ _, False) w.
Proof.
  unfold vectorize. wp_run.
  all: first
    [ split; [eexists; split; [solve_continues|solve_vectorizes]|solve_benign]
    | eexists; split; [solve_continues|]; split; [solve_vectorizes|];
      eexists _, _, _; cbn [app];
      repeat first [apply list_elem_of_here | apply list_elem_of_further] ].
Qed.

Lemma reset_button_wp inp w :
  wp (reset_button inp)
    (λ _, quiet w)
    (λ _ _, False)
    (λ w', in_reset inp = true ∧ session w' = cleared (session w) ∧
           (∃ elements, page w' = page w ++ elements) ∧
           trace w' = trace w ∧ next_handle w' = next_handle w)
    w.
Proof.
  unfold reset_button. wp_run; [|solve_quiet].
  repeat split; [done|by eexists].
Qed.


End Blocks2.

Section Panel.
Context `{Env : Environment}.

Lemma vectorizes_nil results n : vectorizes results n [].
Proof.
  intros r pt _ _. destruct (value_eq_str pt _).
  - split; [|split].
    + intros h m v o Hin. by apply elem_of_nil in Hin.
    + intros h a o. apply not_elem_of_nil.
    + intros h o. apply not_elem_of_nil.
  - split; [|split].
    + intros h m v o Hin. by apply elem_of_nil in Hin.
    + intros h a o Hin. by apply elem_of_nil in Hin.
    + intros h o. apply not_elem_of_nil.
Qed.

Lemma quiet_panel_trace w0 results w :
  quiet w0 w → session w = session w0 ∧ panel_trace w0 results false w.
Proof.
  intros (evs & (Hs & Hn & Hp & Ht) & Hq). split; [done|]. split; [done|].
  exists evs, [], [], (next_handle w).
  rewrite Ht, app_nil_r. repeat split; try done; try lia.
  apply vectorizes_nil.
Qed.

Lemma panel_trace_vectorize w0 results w1 w2 evs b :
  quiet w0 w1 → continues w1 w2 evs → vectorizes results (next_handle w1) evs →
  (b = true → ∃ h m v, ev_call (raster_to_vector h m v) None ∈ evs) →
  session w2 = session w0 ∧ panel_trace w0 results b w2.
Proof.
  intros (evs1 & (Hs1 & Hn1 & (p1 & Hp1) & Ht1) & Hq1)
         (Hs2 & Hn2 & (p2 & Hp2) & Ht2) Hvec Hb.
  split; [congruence|]. split.
  - exists (p1 ++ p2). by rewrite Hp2, Hp1, app_assoc.
  - exists evs1, evs, [], (next_handle w1).
    rewrite Ht2, Ht1, app_nil_r, <- app_assoc. repeat split; try done; lia.
Qed.

Lemma panel_trace_quiet w0 results b w1 w2 :
  session w1 = session w0 → panel_trace w0 results b w1 → quiet w1 w2 →
  session w2 = session w0 ∧ panel_trace w0 results b w2.
Proof.
  intros Hs1 ((p1 & Hp1) & before & vec & after & n & Ht1 & Hb & Ha & Hn & Hn' & Hv & Hc)
         (evs & (Hs2 & Hn2 & (p2 & Hp2) & Ht2) & Hq).
  split; [congruence|]. split.
  - exists (p1 ++ p2). by rewrite Hp2, Hp1, app_assoc.
  - exists before, vec, (after ++ evs), n.
    rewrite Ht2, Ht1, <- !app_assoc.
    repeat split; try done; [by apply Forall_app|lia].
Qed.

Lemma panel_trace_weaken w0 results b w :
  panel_trace w0 results b w → panel_trace w0 results false w.
Proof.
  intros (Hp & before & vec & after & n & Ht & Hb & Ha & Hn & Hn' & Hv & _).
  split; [done|]. by exists before, vec, after, n.
Qed.

(** One rendering of the panel. *)
Lemma render_results_panel inp w results :
  session w !! "results" = Some results →
  wp (render_results inp)
    (λ _ w', session w' = session w ∧ panel_trace w results true w')
    (λ e w', (session w' = session w ∧ panel_trace w results false w') ∧
             raises_benign results e)
    (λ w', in_reset inp = true ∧ session w' = cleared (session w) ∧
           panel_trace w results true w')
    w.
Proof.
  intros Hres. unfold render_results.
  apply wp_bind, (wp_session_get_known _ results); [done|].
  apply wp_bind. eapply wp_mono; [apply show_heading_wp| |..]; cbv beta;
    [|by intros e w' [?%(quiet_panel_trace _ results) ?]|done].
  intros _ w1 H1.
  apply wp_bind. eapply wp_mono; [apply show_comparison_wp| |..]; cbv beta;
    [|by intros e w' [?%(quiet_trans _ _ _ H1)%(quiet_panel_trace _ results) ?]
     |done].
  intros _ w2 H2%(quiet_trans _ _ _ H1). clear H1.
  apply wp_bind. eapply wp_mono; [apply show_result_map_wp| |..]; cbv beta;
    [|by intros e w' [?%(quiet_trans _ _ _ H2)%(quiet_panel_trace _ results) ?]
     |done].
  intros result_map w3 H3%(quiet_trans _ _ _ H2). clear H2.
  apply wp_bind. eapply wp_mono; [apply vectorize_wp| |..]; cbv beta;
    [|intros e w' [(evs & Hc & Hv) Hb]; split; [|done];
      by apply (panel_trace_vectorize _ _ _ _ _ _ H3 Hc Hv)
     |done].
  intros _ w4 (evs & Hc & Hv & Hdone).
  destruct (panel_trace_vectorize _ _ _ _ _ true H3 Hc Hv) as [Hs4 H4]; [done|].
  clear H3 Hc Hv Hdone.
  apply wp_bind. eapply wp_mono; [apply show_vector_layer_wp| |..]; cbv beta;
    [|intros e w' [Hq Hb]; split; [|done];
      destruct (panel_trace_quiet _ _ _ _ _ Hs4 H4 Hq) as [? ?%panel_trace_weaken];
      done
     |done].
  intros _ w5 Hq. destruct (panel_trace_quiet _ _ _ _ _ Hs4 H4 Hq) as [Hs5 H5].
  clear Hs4 H4 Hq.
  apply wp_bind. eapply wp_mono; [apply show_downloads_wp| |..]; cbv beta;
    [|intros e w' [Hq Hb]; split; [|done];
      destruct (panel_trace_quiet _ _ _ _ _ Hs5 H5 Hq) as [? ?%panel_trace_weaken];
      done
     |done].
  intros _ w6 Hq. destruct (panel_trace_quiet _ _ _ _ _ Hs5 H5 Hq) as [Hs6 H6].
  clear Hs5 H5 Hq.
  eapply wp_mono; [apply reset_button_wp|..]; cbv beta.
  - intros _ w' Hq. by apply (panel_trace_quiet _ _ _ _ _ Hs6 H6).
  - done.
  - intros w' (Hreset & Hs & (p & Hp) & Ht & Hn). split; [done|].
    split; [by rewrite Hs, Hs6|].
    destruct H6 as ((p6 & Hp6) & before & vec & after & n & Ht6 & Hb & Ha & Hn6
                    & Hn6' & Hv & Hc).
    split.
    + exists (p6 ++ p). by rewrite Hp, Hp6, app_assoc.
    + exists before, vec, after, n. rewrite Ht, Ht6. repeat split; try done; lia.
Qed.

End Panel.

Section Heading.
Context `{Env : Environment}.




End Heading.


(** ** The run handler *)

Section Handler.
Context `{Env : Environment}.

Lemma with_disk_same w : with_disk (disk w) w = w.
Proof. by destruct w. Qed.

(** Lines 60-61, one iteration at a time. *)
Lemma remove_old_files_cons file files w :
  remove_old_files (file :: files) w
  = match disk w !! file with
    | None => remove_old_files files w
    | Some f =>
        if removable f
        then remove_old_files files (with_disk (delete file (disk w)) w)
        else Raised (PermissionError file) w
    end.
Proof.
  unfold remove_old_files. simpl for_each.
  unfold mbind at 1, M_bind at 1. unfold mbind at 1, M_bind at 1.
  unfold os_path_exists at 1.
  destruct (disk w !! file) as [f|] eqn:Hf; simpl; [|done].
  unfold os_remove. rewrite Hf. by destruct (removable f).
Qed.

Lemma remove_old_files_wp files : ∀ w,
  wp (remove_old_files files)
    (λ _ w',
       same_but_disk w w' ∧ Forall (clearable (disk w)) files ∧
       ∀ p, disk w' !! p = if decide (p ∈ files) then None else disk w !! p)
    (λ e w',
       same_but_disk w w' ∧
       (∃ file f, e = PermissionError file ∧ file ∈ files ∧
                  disk w !! file = Some f ∧ disk w' !! file = Some f ∧
                  removable f = false) ∧
       ∀ p, disk w' !! p = disk w !! p ∨ (p ∈ files ∧ disk w' !! p = None))
    (λ _, False) w.
Proof.
  induction files as [|file files IH]; intros w.
  - unfold wp, remove_old_files. simpl for_each. cbv beta.
    split; [done|]. split; [constructor|].
    intros p. by rewrite decide_False by apply not_elem_of_nil.
  - unfold wp. rewrite remove_old_files_cons.
    destruct (disk w !! file) as [f|] eqn:Hf.
    + destruct (removable f) eqn:Hr.
      * specialize (IH (with_disk (delete file (disk w)) w)). unfold wp in IH.
        destruct (remove_old_files files _) as [u w'|e w'|w']; [| |done].
        -- destruct IH as (Hsame & Hall & Hdisk). simpl in *.
           split; [done|]. split.
           ++ constructor; [intros f' Hf'; congruence|].
              eapply Forall_impl; [exact Hall|]. intros p Hp f' Hf'.
              destruct (decide (p = file)) as [->|Hne]; [congruence|].
              apply Hp. by rewrite lookup_delete_ne.
           ++ intros p. rewrite Hdisk.
              destruct (decide (p = file)) as [->|Hne].
              ** rewrite lookup_delete_eq.
                 rewrite (decide_True (P := file ∈ file :: files)) by set_solver.
                 by case_decide.
              ** rewrite lookup_delete_ne by done.
                 destruct (decide (p ∈ files));
                   [by rewrite decide_True by (apply elem_of_cons; auto)
                   |by rewrite decide_False by (apply not_elem_of_cons; auto)].
        -- destruct IH as (Hsame & (file' & f' & -> & Hin & Hw & Hw' & Hr') & Hdisk).
           simpl in *. split; [done|]. split.
           ++ exists file', f'. repeat split; [set_solver| |done..].
              destruct (decide (file' = file)) as [->|Hne].
              ** by rewrite lookup_delete_eq in Hw.
              ** by rewrite lookup_delete_ne in Hw.
           ++ intros p. destruct (Hdisk p) as [Hp|[Hp1 Hp2]].
              ** destruct (decide (p = file)) as [->|Hne].
                 --- right. rewrite Hp, lookup_delete_eq. set_solver.
                 --- left. by rewrite Hp, lookup_delete_ne.
              ** right. set_solver.
      * split; [done|]. split; [|by left].
        exists file, f. repeat split; [set_solver|done..].
    + specialize (IH w). unfold wp in IH.
      destruct (remove_old_files files w) as [u w'|e w'|w']; [| |done].
      * destruct IH as (Hsame & Hall & Hdisk). split; [done|]. split.
        -- constructor; [intros f' Hf'; congruence | done].
        -- intros p. rewrite Hdisk.
           destruct (decide (p = file)) as [->|Hne].
           ++ rewrite (decide_True (P := file ∈ file :: files)) by set_solver.
              by case_decide.
           ++ destruct (decide (p ∈ files));
                [by rewrite decide_True by (apply elem_of_cons; auto)
                |by rewrite decide_False by (apply not_elem_of_cons; auto)].
      * destruct IH as (Hsame & (file' & f' & -> & Hin & Hw & Hw' & Hr') & Hdisk).
        split; [done|]. split.
        -- exists file', f'. repeat split; [set_solver|done..].
        -- intros p. destruct (Hdisk p) as [Hp|[Hp1 Hp2]]; [by left|].
           right. set_solver.
Qed.

Lemma download_and_segment_automatic L w :
  process_type L = "Automatische Segmentierung" →
  wp (download_and_segment L)
    (λ _ _, False)
    (library_failure w)
    (λ w', ∃ t0 t1,
       trace w' = trace w ++ automatic_events (bbox L) (next_handle w) t0 t1 ∧
       session w' = stored (automatic_record (process_type L) (t1 - t0))
                      (session w) ∧
       next_handle w' = S (next_handle w) ∧
       page w' = page w ++ [ui_spinner "Segmentiere Objekte..."])
    w.
Proof.
  intros Hmode. unfold download_and_segment, library_failure.
  rewrite Hmode. simpl String.eqb. cbv iota.
  unfold save_visualization.
  repeat wp_step; try (split; [done|]; eexists _, _; split; [done|apply last_snoc]).
  eexists _, _. split; [|done].
  rewrite <- !app_assoc. reflexivity.
Qed.

Lemma download_and_segment_text_prompt L w prompt box text :
  process_type L = "Text-Prompt Suche" →
  text_prompt L = Some prompt → box_threshold L = Some box →
  text_threshold L = Some text →
  wp (download_and_segment L)
    (λ _ _, False)
    (library_failure w)
    (λ w', ∃ t0 t1,
       trace w' = trace w
                  ++ text_prompt_events (bbox L) prompt box text (next_handle w)
                       t0 t1 ∧
       session w' = stored (text_prompt_record (process_type L) prompt (t1 - t0)
                              (next_handle w))
                      (session w) ∧
       next_handle w' = S (next_handle w) ∧
       page w' = page w ++ [ui_spinner (Text.clean_text
                                          ("Suche nach '" +:+ prompt +:+ "'..."))])
    w.
Proof.
  intros Hmode Hprompt Hbox Htext. unfold download_and_segment, library_failure.
  rewrite Hmode, Hprompt, Hbox, Htext. simpl String.eqb. cbv iota.
  unfold save_visualization, name_lookup.
  repeat wp_step; try (split; [done|]; eexists _, _; split; [done|apply last_snoc]).
  eexists _, _. split; [|done].
  rewrite <- !app_assoc. reflexivity.
Qed.

(** Whatever the variables hold: the handler never falls through, and
    when it raises the session is as it was. *)
Lemma run_segmentation_session L w :
  wp (run_segmentation L)
    (λ _ _, False) (λ _ w', session w' = session w) (λ _, True) w.
Proof.
  unfold run_segmentation. wp_step. wp_step.
  wp_step.
  eapply wp_mono; [apply remove_old_files_wp|..]; cbn beta;
    [|by intros e w' ((? & _) & _)|done].
  intros _ w1 ((Hs & _) & _). simpl in Hs. rewrite <- Hs. clear Hs.
  unfold download_and_segment, save_visualization.
  destruct (String.eqb (process_type L) "Automatische Segmentierung");
    destruct (text_prompt L), (box_threshold L), (text_threshold L);
    unfold name_lookup; repeat wp_step; done.
Qed.

End Handler.

(** ** One execution of the script *)

Section Execution.
Context `{Env : Environment}.

Lemma wp_init_session_state Qd Qr Qn w :
  Qd tt (mkWorld (disk w) (with_defaults (session w)) (ext w) (next_handle w)
           (trace w) (page w)) →
  wp init_session_state Qd Qr Qn w.
Proof.
  intros HQ. unfold wp, init_session_state, mbind, M_bind, session_contains,
    session_set, when. simpl.
  unfold with_defaults, with_default in HQ.
  destruct (bool_decide (is_Some (session w !! "results"))); simpl;
    destruct (bool_decide (is_Some (_ !! "map_visible"))); simpl; try done.
  by destruct w.
Qed.

(** Lines 28-50 never raise and touch nothing but the page. *)
Lemma wp_input_panel inp Qd Qr Qn w :
  Qd (locals_of inp)
    (mkWorld (disk w) (session w) (ext w) (next_handle w) (trace w)
       (page w ++ input_elements inp)) →
  wp (input_panel inp) Qd Qr Qn w.
Proof.
  unfold input_panel, input_elements, locals_of. intros HQ.
  destruct (in_mode inp); simpl mode_label; simpl String.eqb; cbv iota;
    wp_run; rewrite <- ?app_assoc; exact HQ.
Qed.

Lemma run_segmentation_wp inp w :
  wp (run_segmentation (locals_of inp))
    (λ _ _, False)
    (λ _ w', session w' = session w)
    (λ w', ∃ sam t0 t1,
       trace w' = trace w ++ pipeline_events inp sam t0 t1 ∧
       session w' = stored (results_record inp sam (t1 - t0)) (session w) ∧
       (next_handle w ≤ sam < next_handle w')%nat)
    w.
Proof.
  unfold run_segmentation. wp_step. wp_step. wp_step.
  eapply wp_mono; [apply remove_old_files_wp|..]; cbn beta;
    [|by intros e w' ((? & _) & _)|done].
  intros _ w1 ((Hs & _ & Hn & Ht & _) & _). simpl in Hs, Hn, Ht.
  rewrite <- Hs, <- Ht, <- Hn. clear Hs Ht Hn.
  unfold pipeline_events, results_record, locals_of.
  destruct (in_mode inp).
  - eapply wp_mono; [by apply download_and_segment_automatic|..];
      cbn beta; [done|by intros e w' [? _]|].
    intros w' (t0 & t1 & Ht & Hs & Hn & _). exists (next_handle w1), t0, t1.
    repeat split; [done..|lia|lia].
  - eapply wp_mono; [by eapply download_and_segment_text_prompt|..];
      cbn beta; [done|by intros e w' [? _]|].
    intros w' (t0 & t1 & Ht & Hs & Hn & _). exists (next_handle w1), t0, t1.
    repeat split; [done..|lia|lia].
Qed.

Lemma with_defaults_lookup_results s :
  with_defaults s !! "results" = Some (default SNone (s !! "results")).
Proof.
  unfold with_defaults, with_default.
  destruct (s !! "results") as [v|] eqn:Hr; simpl.
  - case_bool_decide; [done|]. by rewrite lookup_insert_ne.
  - case_bool_decide as Hm.
    + by rewrite lookup_insert_eq.
    + rewrite lookup_insert_ne by done. by rewrite lookup_insert_eq.
Qed.

Lemma with_defaults_lookup_map_visible s :
  with_defaults s !! "map_visible"
  = Some (default (SBool true) (s !! "map_visible")).
Proof.
  unfold with_defaults, with_default.
  destruct (s !! "results") as [v|] eqn:Hr; simpl.
  - destruct (s !! "map_visible") as [v'|] eqn:Hm; simpl; [done|].
    by rewrite lookup_insert_eq.
  - rewrite lookup_insert_ne by done.
    destruct (s !! "map_visible") as [v'|] eqn:Hm; simpl.
    + by rewrite lookup_insert_ne.
    + by rewrite lookup_insert_eq.
Qed.

Lemma with_defaults_id s :
  is_Some (s !! "results") → is_Some (s !! "map_visible") → with_defaults s = s.
Proof.
  intros Hr Hm. unfold with_defaults, with_default.
  rewrite (bool_decide_eq_true_2 _ Hr). by rewrite (bool_decide_eq_true_2 _ Hm).
Qed.

End Execution.

Ltac wp_script :=
  repeat first [ wp_step | wp_case
               | apply wp_init_session_state; wp_world
               | apply wp_input_panel; wp_world ].

Section ScriptFacts.
Context `{Env : Environment}.

(** An execution in which the run button reports a click. *)
Lemma script_run_wp inp w :
  in_run inp = true →
  wp (script inp)
    (λ _ _, False)
    (λ _ w', session w' = with_defaults (session w))
    (λ w', ∃ evs0 sam t0 t1,
       trace w' = trace w ++ evs0 ++ pipeline_events inp sam t0 t1 ∧
       (evs0 = [] ∨ evs0 = input_map_events (next_handle w)) ∧
       session w' = stored (results_record inp sam (t1 - t0))
                      (with_defaults (session w)) ∧
       (next_handle w ≤ sam < next_handle w')%nat)
    w.
Proof.
  intros Hrun. unfold script, show_input_map. rewrite Hrun. wp_script; try done.
  - eapply wp_mono; [apply run_segmentation_wp|..]; cbn beta;
      cbn [disk session ext next_handle trace page]; [done..|].
    intros w' (sam & t0 & t1 & Ht & Hs & Hn).
    exists (input_map_events (next_handle w)), sam, t0, t1.
    rewrite Ht, <- !app_assoc. repeat split; [by right|done|lia|lia].
  - eapply wp_mono; [apply run_segmentation_wp|..]; cbn beta;
      cbn [disk session ext next_handle trace page]; [done..|].
    intros w' (sam & t0 & t1 & Ht & Hs & Hn).
    exists [], sam, t0, t1. repeat split; [done|by left|done|lia|lia].
Qed.

(** An execution in which it does not. *)
Lemma script_idle_wp inp w :
  in_run inp = false →
  wp (script inp)
    (λ _ w', session w' = with_defaults (session w))
    (λ _ w', session w' = with_defaults (session w))
    (λ w', in_reset inp = true ∧ session w' = cleared (with_defaults (session w)))
    w.
Proof.
  intros Hrun. unfold script, show_input_map. rewrite Hrun. wp_script; try done.
  all: eapply wp_mono; [by eapply render_results_panel|..]; cbv beta;
    cbn [session]; [by intros _ w' [? _]|by intros e w' [[? _] _]
                   |by intros w' (? & ? & _)].
Qed.

End ScriptFacts.

(** ** Facts the claims rest on *)

(** A path given by its name is not in a list of paths given by theirs. *)
Ltac distinct_path :=
  let Hin := fresh "Hin" in
  intros Hin;
  repeat (apply elem_of_cons in Hin as [Hin|Hin]; [discriminate Hin|]);
  by apply elem_of_nil in Hin.



Section ClaimFacts.
Context `{Env : Environment}.

Lemma stored_lookup_results r s : stored r s !! "results" = Some (SDict r).
Proof. unfold stored. rewrite lookup_insert_ne by done. apply lookup_insert_eq. Qed.

Lemma stored_lookup_map_visible r s :
  stored r s !! "map_visible" = Some (SBool false).
Proof. apply lookup_insert_eq. Qed.





Lemma value_eq_str_true pt s : value_eq_str pt s = true → pt = VStr s.
Proof. destruct pt; simpl; try done. by intros ->%String.eqb_eq. Qed.


Lemma automatic_record_complete d :
  complete_record (automatic_record (mode_label Automatic) d).
Proof.
  by exists tiff_path, mask_path, vector_path, vis_path, (mode_label Automatic), d.
Qed.

Lemma text_prompt_record_complete pt p d h :
  complete_record (text_prompt_record pt p d h).
Proof.
  exists tiff_path, mask_path, vector_path, vis_path, pt, d.
  repeat (split; [done|]). intros _. by exists p, h.
Qed.

Lemma results_record_complete inp sam d : complete_record (results_record inp sam d).
Proof.
  unfold results_record. destruct (in_mode inp).
  - apply automatic_record_complete.
  - apply text_prompt_record_complete.
Qed.


Lemma quiet_not_model e (evs : list Event) :
  Forall (λ e, model_event e = false) evs → e ∈ evs → model_event e = false.
Proof. intros Hall Hin. by apply (proj1 (Forall_forall _ _) Hall). Qed.

(** In a trace of the panel, the events that concern a model are those of
    the vectorisation. *)
Lemma model_event_in_panel e before vec after :
  Forall (λ e, model_event e = false) before →
  Forall (λ e, model_event e = false) after →
  model_event e = true →
  e ∈ before ++ vec ++ after ↔ e ∈ vec.
Proof.
  intros Hb Ha He. rewrite !elem_of_app. split; [|by auto].
  intros [Hin|[Hin|Hin]]; [|done|].
  - pose proof (quiet_not_model _ _ Hb Hin). congruence.
  - pose proof (quiet_not_model _ _ Ha Hin). congruence.
Qed.


Lemma cleared_lookup_results s : cleared s !! "results" = Some SNone.
Proof. unfold cleared. rewrite lookup_insert_ne by done. apply lookup_insert_eq. Qed.

Lemma cleared_lookup_map_visible s : cleared s !! "map_visible" = Some (SBool true).
Proof. apply lookup_insert_eq. Qed.

Lemma with_default_lookup_ne k v (s : gmap string SVal) k' :
  k ≠ k' → with_default k v s !! k' = s !! k'.
Proof.
  intros Hne. unfold with_default. case_bool_decide; [done|].
  by rewrite lookup_insert_ne.
Qed.

Lemma cleared_lookup_other s k :
  k ≠ "results" → k ≠ "map_visible" → cleared (with_defaults s) !! k = s !! k.
Proof.
  intros Hr Hm. unfold cleared, with_defaults.
  rewrite !lookup_insert_ne by done. by rewrite !with_default_lookup_ne.
Qed.

Lemma cleared_initial s :
  (∀ k, is_Some (s !! k) → k = "results" ∨ k = "map_visible") →
  cleared (with_defaults s) = with_defaults ∅.
Proof.
  intros Hdom. apply map_eq. intros k.
  destruct (decide (k = "map_visible")) as [->|Hm].
  { by rewrite cleared_lookup_map_visible, with_defaults_lookup_map_visible. }
  destruct (decide (k = "results")) as [->|Hr].
  { by rewrite cleared_lookup_results, with_defaults_lookup_results. }
  rewrite cleared_lookup_other by done.
  unfold with_defaults. rewrite !with_default_lookup_ne by done.
  rewrite lookup_empty. destruct (s !! k) eqn:Hk; [|done].
  destruct (Hdom k) as [?|?]; [by eexists|done..].
Qed.


Lemma bind_done {A B} (m : M A) (f : A → M B) w a w1 :
  m w = Done a w1 → (m ≫= f) w = f a w1.
Proof. intros Hm. unfold mbind, M_bind. by rewrite Hm. Qed.

Lemma init_session_state_eq w :
  init_session_state w
  = Done tt (mkWorld (disk w) (with_defaults (session w)) (ext w) (next_handle w)
               (trace w) (page w)).
Proof.
  pose proof (wp_init_session_state
                (λ _ w', w' = mkWorld (disk w) (with_defaults (session w)) (ext w)
                                (next_handle w) (trace w) (page w))
                (λ _ _, False) (λ _, False) w eq_refl) as H.
  unfold wp in H. destruct (init_session_state w) as [[] w'| |]; [|done..].
  by rewrite H.
Qed.

(** An execution from the session of the initial load proceeds as one from
    the empty session: lines 16-19 make the two equal. *)
Lemma script_from_initial_session inp w :
  session w = with_defaults ∅ →
  script inp w
  = script inp (mkWorld (disk w) ∅ (ext w) (next_handle w) (trace w) (page w)).
Proof.
  intros Hs. unfold script.
  rewrite !(bind_done (st_title _) _ _ tt _ eq_refl).
  rewrite !(bind_done init_session_state _ _ tt _ (init_session_state_eq _)).
  cbn [disk session ext next_handle trace page]. by rewrite Hs.
Qed.

(** An execution without a click, in a session that shows no results: the
    page is the title, the form and the run button, and the input map is
    shown. *)
Lemma script_input_state inp w :
  in_run inp = false →
  session w !! "results" = Some SNone →
  session w !! "map_visible" = Some (SBool true) →
  wp (script inp)
    (λ _ w',
       session w' = session w ∧
       page w' = page w
                 ++ [ui_title "KI-basierte Objekterkennung mit Meta's LangSAM"]
                 ++ input_elements inp ++ [ui_button "Starte Segmentierung"] ∧
       trace w' = trace w ++ input_map_events (next_handle w))
    (λ e w', session w' = session w ∧ ∃ l, e = LibraryError l)
    (λ _, False)
    w.
Proof.
  intros Hrun Hres Hmap. unfold script, show_input_map. rewrite Hrun.
  wp_step. wp_step. wp_step. apply wp_init_session_state. wp_world.
  rewrite (with_defaults_id (session w)) by by eexists.
  wp_script; try done; try (split; [done|by eexists]).
  cbn [session page trace]. split; [done|]. unfold input_map_events.
  by rewrite <- !app_assoc.
Qed.


End ClaimFacts.

Section Outcomes.
Context {W A : Type}.

Lemma raised_eq (o : Outcome W A) e : raised o = Some e → o = Raised e (final o).
Proof. destruct o; simpl; congruence. Qed.

Lemma reruns_eq (o : Outcome W A) : reruns o = true → o = Rerun (final o).
Proof. by destruct o. Qed.

End Outcomes.

(** * The claims *)

Section Claims.
Context `{Env : Environment}.

(** C1. When a call into a collaborator raises during the run handler, the
    execution ends with that exception and the session holds what it held
    before the handler started: the defaults of lines 16-19 apart, which are
    the session itself once the page has been loaded, [st.session_state] is
    unchanged.  The results record and [map_visible = False] are in the
    session only when the execution ended in [st.rerun()], and then every
    call of the selected branch is in the trace, in order, each having
    returned normally.  The handler never falls through to the results
    panel. *)
Theorem run_failure_keeps_session_state (inp : Inputs) (w : World) :
  in_run inp = true →
  (∀ e w', script inp w = Raised e w' →
     session w' = with_defaults (session w) ∧
     (is_Some (session w !! "results") → is_Some (session w !! "map_visible") →
      session w' = session w)) ∧
  (∀ e w', run_segmentation (locals_of inp) w = Raised e w' →
     session w' = session w) ∧
  (∀ w', script inp w = Rerun w' →
     ∃ evs0 sam t0 t1,
       trace w' = trace w ++ evs0 ++ pipeline_events inp sam t0 t1 ∧
       session w' = stored (results_record inp sam (t1 - t0))
                      (with_defaults (session w))) ∧
  (∀ u w', script inp w ≠ Done u w').
Proof.
  intros Hrun. pose proof (script_run_wp inp w Hrun) as Hwp.
  split; [|split; [|split]].
  - intros e w' Hraised.
    pose proof (wp_raised _ _ _ _ _ _ _ Hwp Hraised) as Hs. cbn beta in Hs.
    split; [done|]. intros Hr Hm. by rewrite Hs, with_defaults_id.
  - intros e w' Hraised.
    exact (wp_raised _ _ _ _ _ _ _ (run_segmentation_wp inp w) Hraised).
  - intros w' Hrerun.
    destruct (wp_rerun _ _ _ _ _ _ Hwp Hrerun)
      as (evs0 & sam & t0 & t1 & Ht & _ & Hs & _).
    by exists evs0, sam, t0, t1.
  - intros u w' Hdone. exact (wp_done _ _ _ _ _ _ _ Hwp Hdone).
Qed.


(** C3 (amended). The handler first tests each of "satellite.tif",
    "masks.tif" and "masks.shp" and removes the ones that exist; a missing
    file is skipped.  When every one of them is absent or can be removed,
    the downloader is then called on a disk that holds none of the three
    and is otherwise unchanged.  A removal that fails is not ignored: the
    handler raises [PermissionError] for that file before the downloader is
    called, with the session and the trace as they were. *)
Theorem cleanup_then_download (L : Locals) (w : World) :
  let files := [tiff_path; mask_path; vector_path] in
  let w0 := mkWorld (disk w) (session w) (ext w) (next_handle w) (trace w)
              (page w ++ [ui_spinner "Lade Satellitenbild..."]) in
  (Forall (clearable (disk w)) files →
   ∃ d1,
     (∀ p, d1 !! p = if decide (p ∈ files) then None else disk w !! p) ∧
     run_segmentation L w = download_and_segment L (with_disk d1 w0)) ∧
  (¬ Forall (clearable (disk w)) files →
   ∃ p f w',
     p ∈ files ∧ disk w !! p = Some f ∧ removable f = false ∧
     run_segmentation L w = Raised (PermissionError p) w' ∧
     session w' = session w ∧ trace w' = trace w).
Proof.
  intros files w0.
  assert (Hrun : run_segmentation L w
                 = match remove_old_files files w0 with
                   | Done _ w1 => download_and_segment L w1
                   | Raised e w1 => Raised e w1
                   | Rerun w1 => Rerun w1
                   end) by done.
  pose proof (remove_old_files_wp files w0) as Hwp. unfold wp in Hwp.
  destruct (remove_old_files files w0) as [u w1|e w1|w1]; [| |done].
  - destruct Hwp as ((Hs & Hx & Hn & Ht & Hp) & Hall & Hdisk). simpl in *.
    split; [|done].
    intros _. exists (disk w1). split; [done|].
    rewrite Hrun. f_equal. destruct w1; simpl in *. unfold with_disk; simpl.
    by subst.
  - destruct Hwp as ((Hs & Hx & Hn & Ht & Hp) &
                     (p & f & -> & Hin & Hw & Hw1 & Hr) & Hdisk).
    simpl in *. split.
    + intros Hall. rewrite Forall_forall in Hall.
      specialize (Hall p Hin f Hw). congruence.
    + intros _. by exists p, f, w1.
Qed.

(** C4. An execution in which the run button reports a click and nothing
    raises ends in [st.rerun()], with [map_visible] false and a results
    record that holds the four paths, the mode and the duration.  The record
    holds the keys "text_prompt" and "sam" exactly when the mode is
    text-prompt; they are then the prompt of the form and the object on which
    [LangSAM()] was called in this execution. *)
Theorem completed_run_stores_results (inp : Inputs) (w : World) :
  in_run inp = true →
  (∀ e w0, script inp w ≠ Raised e w0) →
  ∃ w' r sam duration,
    script inp w = Rerun w' ∧
    session w' !! "map_visible" = Some (SBool false) ∧
    session w' !! "results" = Some (SDict r) ∧
    r !! "tiff_path" = Some (VStr "satellite.tif") ∧
    r !! "mask_path" = Some (VStr "masks.tif") ∧
    r !! "vector_path" = Some (VStr "masks.shp") ∧
    r !! "vis_path" = Some (VStr "visualization.png") ∧
    r !! "process_type" = Some (VStr (mode_label (in_mode inp))) ∧
    r !! "duration" = Some (VFloat duration) ∧
    (is_Some (r !! "text_prompt") ↔ in_mode inp = TextPrompt) ∧
    (is_Some (r !! "sam") ↔ in_mode inp = TextPrompt) ∧
    (in_mode inp = TextPrompt →
     r !! "text_prompt" = Some (VStr (in_text_prompt inp)) ∧
     r !! "sam" = Some (VHandle sam) ∧
     (next_handle w ≤ sam)%nat ∧
     ev_call (LangSAM_init sam) None ∈ trace w').
Proof.
  intros Hrun Hok. pose proof (script_run_wp inp w Hrun) as Hwp. unfold wp in Hwp.
  destruct (script inp w) as [u w'|e w'|w'] eqn:Hscript;
    [done|by destruct (Hok e w')|].
  destruct Hwp as (evs0 & sam & t0 & t1 & Ht & _ & Hs & Hn).
  exists w', (results_record inp sam (t1 - t0)), sam, (t1 - t0)%Q.
  split; [done|]. rewrite Hs.
  split; [apply stored_lookup_map_visible|].
  split; [apply stored_lookup_results|].
  unfold results_record. destruct (in_mode inp) eqn:Hmode.
  - split_and!; try done.
    + split; [by intros [v Hv]|done].
    + split; [by intros [v Hv]|done].
  - split_and!; try done.
    intros _. split_and!; try done; [lia|].
    rewrite Ht. unfold pipeline_events. rewrite Hmode.
    apply elem_of_app; right. apply elem_of_app; right.
    unfold text_prompt_events.
    do 2 apply list_elem_of_further. apply list_elem_of_here.
Qed.

(** C5. In one rendering of the panel for a record whose mode is
    "Text-Prompt Suche", every [raster_to_vector] call has the handle stored
    under "sam" as receiver and no model is created; when the rendering does
    not raise, [raster_to_vector] has been called on that handle and has
    returned.  For a record with any other mode the receiver is an object
    that did not exist when the rendering started, on which [SamGeo()] has
    been called without arguments, and the only models created are such
    objects.  After a completed run the stored handle is the object on which
    the run called [LangSAM()]: the panel vectorises with the model of the
    run exactly when the run was a text-prompt run, and after an automatic
    run never with the model the run created. *)
Theorem vectorization_handle (inp : Inputs) (w : World) (r : gmap string Value) :
  session w !! "results" = Some (SDict r) →
  ∃ evs,
    trace (final (render_results inp w)) = trace w ++ evs ∧
    (∀ stored,
       r !! "process_type" = Some (VStr "Text-Prompt Suche") →
       r !! "sam" = Some (VHandle stored) →
       (∀ h m v o, ev_call (raster_to_vector h m v) o ∈ evs → h = stored) ∧
       (∀ h a o, ev_call (SamGeo_init h a) o ∉ evs) ∧
       (∀ h o, ev_call (LangSAM_init h) o ∉ evs) ∧
       ((∀ e w', render_results inp w ≠ Raised e w') →
        ∃ m v, ev_call (raster_to_vector stored m v) None ∈ evs)) ∧
    (∀ pt,
       r !! "process_type" = Some pt → pt ≠ VStr "Text-Prompt Suche" →
       vectorizes_with_fresh (next_handle w) evs ∧
       ((∀ e w', render_results inp w ≠ Raised e w') →
        ∃ h m v, (next_handle w ≤ h)%nat ∧
                 ev_call (SamGeo_init h None) None ∈ evs ∧
                 ev_call (raster_to_vector h m v) None ∈ evs)) ∧
    (∀ inp0 w0 w1,
       in_run inp0 = true → script inp0 w0 = Rerun w1 →
       session w !! "results" = session w1 !! "results" →
       (next_handle w1 ≤ next_handle w)%nat →
       ∃ sam,
         ev_call (match in_mode inp0 with
                  | Automatic =>
                      SamGeo_init sam (Some (mkSamGeoArgs "vit_h" 32 0.86 0.92))
                  | TextPrompt => LangSAM_init sam
                  end) None ∈ trace w1 ∧
         ∀ h m v o,
           ev_call (raster_to_vector h m v) o ∈ evs →
           match in_mode inp0 with
           | TextPrompt => h = sam
           | Automatic => h ≠ sam ∧ ev_call (SamGeo_init h None) None ∈ evs
           end).
Proof.
  intros Hres.
  pose proof (render_results_panel inp w (SDict r) Hres) as Hwp.
  assert (Htrace : ∃ b, panel_trace w (SDict r) b (final (render_results inp w))
                        ∧ ((∀ e w', render_results inp w ≠ Raised e w') → b = true)).
  { unfold wp in Hwp. destruct (render_results inp w) as [u w'|e w'|w'] eqn:Hrun.
    - exists true. by destruct Hwp.
    - exists false. destruct Hwp as [[_ ?] _]. split; [done|].
      intros Hok. by destruct (Hok e w').
    - exists true. by destruct Hwp as (_ & _ & ?). }
  destruct Htrace as (b & (_ & before & vec & after & n & Ht & Hb & Ha & Hn & Hn'
                           & Hvec & Hdone) & Hcomplete).
  set (evs := before ++ vec ++ after).
  assert (Hmodes : ∀ pt, r !! "process_type" = Some pt →
            if value_eq_str pt "Text-Prompt Suche"
            then vectorizes_with_stored r evs
            else vectorizes_with_fresh (next_handle w) evs).
  { intros pt Hpt. specialize (Hvec r pt eq_refl Hpt).
    destruct (value_eq_str pt "Text-Prompt Suche").
    - destruct Hvec as (Hrtv & Hsam & Hlang). split; [|split].
      + intros h m v o Hin. apply model_event_in_panel in Hin; [|done..].
        by eapply Hrtv.
      + intros h a o Hin. apply model_event_in_panel in Hin; [|done..].
        by eapply Hsam.
      + intros h o Hin. apply model_event_in_panel in Hin; [|done..].
        by eapply Hlang.
    - destruct Hvec as (Hrtv & Hsam & Hlang). split; [|split].
      + intros h m v o Hin. apply model_event_in_panel in Hin; [|done..].
        destruct (Hrtv h m v o Hin) as [Hh Hinit]. split; [lia|].
        by apply model_event_in_panel.
      + intros h a o Hin. apply model_event_in_panel in Hin; [|done..].
        destruct (Hsam h a o Hin) as [Hh ->]. split; [lia|done].
      + intros h o Hin. apply model_event_in_panel in Hin; [|done..].
        by eapply Hlang. }
  assert (Hcalled : (∀ e w', render_results inp w ≠ Raised e w') →
                    ∃ h m v, ev_call (raster_to_vector h m v) None ∈ evs).
  { intros Hok. destruct (Hdone (Hcomplete Hok)) as (h & m & v & Hin).
    exists h, m, v. by apply model_event_in_panel. }
  assert (Hstored : ∀ stored,
            r !! "process_type" = Some (VStr "Text-Prompt Suche") →
            r !! "sam" = Some (VHandle stored) →
            ∀ h m v o, ev_call (raster_to_vector h m v) o ∈ evs → h = stored).
  { intros stored Hpt Hsam h m v o Hin.
    destruct (Hmodes _ Hpt) as (Hrtv & _). specialize (Hrtv h m v o Hin).
    congruence. }
  assert (Hfresh : ∀ pt, r !! "process_type" = Some pt →
            pt ≠ VStr "Text-Prompt Suche" →
            vectorizes_with_fresh (next_handle w) evs).
  { intros pt Hpt Hne. specialize (Hmodes pt Hpt).
    destruct (value_eq_str pt "Text-Prompt Suche") eqn:Heq; [|done].
    by apply value_eq_str_true in Heq. }
  exists evs. split; [done|]. split; [|split].
  - intros stored Hpt Hsam. destruct (Hmodes _ Hpt) as (_ & Hinit & Hlang).
    split; [by apply Hstored|]. split; [done|]. split; [done|].
    intros Hok. destruct (Hcalled Hok) as (h & m & v & Hin).
    rewrite (Hstored stored Hpt Hsam h m v None Hin) in Hin. by exists m, v.
  - intros pt Hpt Hne. split; [by eapply Hfresh|].
    intros Hok. destruct (Hcalled Hok) as (h & m & v & Hin).
    destruct (Hfresh pt Hpt Hne) as (Hrtv & _).
    destruct (Hrtv h m v None Hin) as [Hh Hinit]. by exists h, m, v.
  - intros inp0 w0 w1 Hrun Hscript Hsame Hle.
    destruct (wp_rerun _ _ _ _ _ _ (script_run_wp inp0 w0 Hrun) Hscript)
      as (evs0 & sam & t0 & t1 & Ht1 & _ & Hs & Hsam).
    rewrite Hs, stored_lookup_results, Hres in Hsame.
    injection Hsame as ->. exists sam. split.
    + rewrite Ht1. apply elem_of_app; right. apply elem_of_app; right.
      unfold pipeline_events.
      destruct (in_mode inp0);
        do 2 apply list_elem_of_further; apply list_elem_of_here.
    + intros h m v o Hin. unfold results_record in *.
      destruct (in_mode inp0).
      * destruct (Hfresh (VStr "Automatische Segmentierung")) as (Hrtv & _);
          [done..|].
        destruct (Hrtv h m v o Hin) as [Hh Hinit]. split; [lia|done].
      * by apply (Hstored sam eq_refl eq_refl h m v o).
Qed.

(** C6. When the reset button fires, the execution ends in [st.rerun()]
    with [results] set to [None] and [map_visible] to [True], the values
    lines 16-19 give them in a fresh session; no other key of the session
    changes.  If the session held nothing but these two keys, it is now the
    session of the initial load, and every later execution proceeds as it
    would from the initial load.  The next execution without a click shows
    the title, the form, the run button and the input map, and no results
    panel. *)
Theorem reset_restores_initial_state (inp : Inputs) (w w' : World) :
  in_run inp = false →
  script inp w = Rerun w' →
  in_reset inp = true ∧
  session w' !! "results" = Some SNone ∧
  session w' !! "map_visible" = Some (SBool true) ∧
  session w' !! "results" = with_defaults ∅ !! "results" ∧
  session w' !! "map_visible" = with_defaults ∅ !! "map_visible" ∧
  (∀ k, k ≠ "results" → k ≠ "map_visible" → session w' !! k = session w !! k) ∧
  ((∀ k, is_Some (session w !! k) → k = "results" ∨ k = "map_visible") →
   session w' = with_defaults ∅ ∧
   ∀ inp', script inp' w'
           = script inp' (mkWorld (disk w') ∅ (ext w') (next_handle w') (trace w')
                            (page w'))) ∧
  (∀ inp' u w'',
     in_run inp' = false → script inp' w' = Done u w'' →
     session w'' = session w' ∧
     page w'' = page w'
                ++ [ui_title "KI-basierte Objekterkennung mit Meta's LangSAM"]
                ++ input_elements inp' ++ [ui_button "Starte Segmentierung"] ∧
     trace w'' = trace w' ++ input_map_events (next_handle w')).
Proof.
  intros Hrun Hscript.
  destruct (wp_rerun _ _ _ _ _ _ (script_idle_wp inp w Hrun) Hscript)
    as [Hreset Hs].
  assert (Hr : session w' !! "results" = Some SNone)
    by (rewrite Hs; apply cleared_lookup_results).
  assert (Hm : session w' !! "map_visible" = Some (SBool true))
    by (rewrite Hs; apply cleared_lookup_map_visible).
  split; [done|]. split; [done|]. split; [done|].
  split; [by rewrite Hr, with_defaults_lookup_results|].
  split; [by rewrite Hm, with_defaults_lookup_map_visible|].
  split; [|split].
  - intros k Hk1 Hk2. rewrite Hs. by apply cleared_lookup_other.
  - intros Hdom.
    assert (Hinit : session w' = with_defaults ∅)
      by (rewrite Hs; by apply cleared_initial).
    split; [done|]. intros inp'. by apply script_from_initial_session.
  - intros inp' u w'' Hrun' Hdone.
    exact (wp_done _ _ _ _ _ _ _ (script_input_state inp' w' Hrun' Hr Hm) Hdone).
Qed.


(** C8 (amended). In an execution that completes the run, [time.time()] is
    read exactly twice: right after the downloader has returned and right
    after [plt.savefig] and [plt.close] have.  The stored duration is the
    second reading minus the first; it is non-negative exactly when the
    wall clock has not been set back between the two readings. *)
Theorem duration_is_clock_difference (inp : Inputs) (w w' : World) :
  in_run inp = true →
  script inp w = Rerun w' →
  ∃ evs0 segment sam t0 t1 r,
    trace w' = trace w ++ evs0 ++ pipeline_events inp sam t0 t1 ∧
    pipeline_events inp sam t0 t1
    = [ ev_call (map_tiles_to_geotiff tiff_path (bbox (locals_of inp)) 18
                   "Satellite" true) None;
        ev_time t0 ]
      ++ segment
      ++ [ ev_call (plt_savefig vis_path "tight" 0) None;
           ev_call plt_close None;
           ev_time t1 ] ∧
    (∀ t, ev_time t ∉ evs0 ++ segment) ∧
    session w' !! "results" = Some (SDict r) ∧
    r !! "duration" = Some (VFloat (t1 - t0)) ∧
    ((0 <= t1 - t0)%Q ↔ (t0 <= t1)%Q).
Proof.
  intros Hrun Hscript. pose proof (script_run_wp inp w Hrun) as Hwp.
  destruct (wp_rerun _ _ _ _ _ _ Hwp Hscript)
    as (evs0 & sam & t0 & t1 & Ht & Hevs0 & Hs & Hn).
  exists evs0.
  exists (match in_mode inp with
          | Automatic =>
              [ ev_call (SamGeo_init sam (Some (mkSamGeoArgs "vit_h" 32 0.86 0.92)))
                  None;
                ev_call (sam_generate sam tiff_path mask_path true) None;
                ev_call (plt_subplots (12, 12)) None;
                ev_call (sam_show_anns sam "Greens" "red" "Automatic Segmentation"
                           true) None;
                ev_call (plt_axis "off") None ]
          | TextPrompt =>
              [ ev_call (LangSAM_init sam) None;
                ev_call (sam_predict sam tiff_path (in_text_prompt inp)
                           (in_box_threshold inp) (in_text_threshold inp)
                           mask_path) None;
                ev_call (plt_subplots (12, 12)) None;
                ev_call (sam_show_anns sam "Greens" "red"
                           ("Segmentation of " +:+ in_text_prompt inp) true) None;
                ev_call (plt_axis "off") None ]
          end).
  exists sam, t0, t1, (results_record inp sam (t1 - t0)).
  split; [done|]. split; [|split; [|split; [|split]]].
  - unfold pipeline_events. by destruct (in_mode inp).
  - intros t Hin. apply elem_of_app in Hin as [Hin|Hin].
    + destruct Hevs0 as [->| ->]; [by apply elem_of_nil in Hin|].
      unfold input_map_events in Hin.
      repeat (apply elem_of_cons in Hin as [Hin|Hin]; [discriminate Hin|]).
      by apply elem_of_nil in Hin.
    + destruct (in_mode inp);
        repeat (apply elem_of_cons in Hin as [Hin|Hin]; [discriminate Hin|]);
        by apply elem_of_nil in Hin.
  - rewrite Hs. apply stored_lookup_results.
  - unfold results_record. by destruct (in_mode inp).
  - split; intros H; lra.
Qed.



End Claims.

(** * The claims on concrete executions *)

(** C1 at work: [plt.savefig] raises in an automatic run; the execution
    raises and the session is the one the page was loaded with. *)
Lemma run_failure_keeps_session_state_witness :
  script Demo.run_automatic (Demo.loaded Demo.savefig_fails ∅ [10; 13]%Q)
  = Raised (LibraryError (lib_exn "failure"))
      (final (script Demo.run_automatic
                (Demo.loaded Demo.savefig_fails ∅ [10; 13]%Q))) ∧
  session (final (script Demo.run_automatic
                    (Demo.loaded Demo.savefig_fails ∅ [10; 13]%Q)))
  = session (Demo.loaded Demo.savefig_fails ∅ [10; 13]%Q).
Proof.
  assert (Hraised :
    script Demo.run_automatic (Demo.loaded Demo.savefig_fails ∅ [10; 13]%Q)
    = Raised (LibraryError (lib_exn "failure"))
        (final (script Demo.run_automatic
                  (Demo.loaded Demo.savefig_fails ∅ [10; 13]%Q))))
    by (apply raised_eq; vm_compute; reflexivity).
  split; [exact Hraised|].
  destruct (run_failure_keeps_session_state Demo.run_automatic
              (Demo.loaded Demo.savefig_fails ∅ [10; 13]%Q) eq_refl)
    as (Hscript & _).
  destruct (Hscript _ _ Hraised) as [_ Hloaded].
  apply Hloaded; eexists; vm_compute; reflexivity.
Defined.


(** The archive that cannot be opened: the export raises
    [PermissionError] for a protected file and [FileNotFoundError] for a
    directory that does not exist, and writes nothing. *)
Example create_shapefile_zip_refused_archive :
  create_shapefile_zip "masks.shp" "segmentation_shp.zip" Demo.protected_archive
  = Raised (PermissionError "segmentation_shp.zip") Demo.protected_archive ∧
  create_shapefile_zip "masks.shp" "missing/shapes.zip" Demo.protected_archive
  = Raised (FileNotFoundError "missing/shapes.zip") Demo.protected_archive.
Proof.
  split.
  - by apply (create_shapefile_zip_refused "masks.shp" _ Demo.protected_archive
                no_permission).
  - by apply (create_shapefile_zip_refused "masks.shp" _ Demo.protected_archive
                no_such_directory).
Qed.

(** C3 as stated fails: "masks.tif" exists and cannot be removed; the
    failure is not ignored, the execution raises [PermissionError] and the
    downloader is never called: the trace holds the three calls of the input
    map and nothing else. *)
Lemma cleanup_failure_aborts_run :
  script Demo.run_automatic (Demo.loaded Demo.reliable Demo.locked_mask [10; 13]%Q)
  = Raised (PermissionError "masks.tif")
      (final (script Demo.run_automatic
                (Demo.loaded Demo.reliable Demo.locked_mask [10; 13]%Q))) ∧
  trace (final (script Demo.run_automatic
                  (Demo.loaded Demo.reliable Demo.locked_mask [10; 13]%Q)))
  = input_map_events 0.
Proof. split; [apply raised_eq|]; vm_compute; reflexivity. Qed.

(** C3 (amended) at work: "satellite.tif" of an earlier run is removed
    before the downloader is called; the stale "masks.shx" is not. *)
Lemma cleanup_then_download_witness :
  ∃ d1,
    d1 !! "satellite.tif" = None ∧
    d1 !! "masks.shx" = Some (mkFile (Raw "stale index") true) ∧
    run_segmentation (locals_of Demo.run_automatic)
      (Demo.loaded Demo.reliable Demo.old_files [10; 13]%Q)
    = download_and_segment (locals_of Demo.run_automatic)
        (with_disk d1
           (final (emit (ui_spinner "Lade Satellitenbild...")
                     (Demo.loaded Demo.reliable Demo.old_files [10; 13]%Q)))).
Proof.
  assert (Hclear : Forall (clearable Demo.old_files)
                     [tiff_path; mask_path; vector_path]).
  { repeat (apply Forall_cons; split;
            [intros f Hf; vm_compute in Hf; by simplify_eq|]).
    constructor. }
  destruct (cleanup_then_download (locals_of Demo.run_automatic)
              (Demo.loaded Demo.reliable Demo.old_files [10; 13]%Q))
    as (Hok & _).
  destruct (Hok Hclear) as (d1 & Hd1 & Hrun).
  exists d1. split; [rewrite Hd1; reflexivity|].
  split; [rewrite Hd1; reflexivity|]. exact Hrun.
Defined.

(** C4 at work: a text-prompt run for "tree". *)
Lemma completed_run_stores_results_witness :
  ∃ w' r sam,
    script Demo.run_text_prompt (Demo.loaded Demo.reliable ∅ [10; 13]%Q) = Rerun w' ∧
    session w' !! "map_visible" = Some (SBool false) ∧
    session w' !! "results" = Some (SDict r) ∧
    r !! "text_prompt" = Some (VStr "tree") ∧
    r !! "sam" = Some (VHandle sam).
Proof.
  destruct (completed_run_stores_results Demo.run_text_prompt
              (Demo.loaded Demo.reliable ∅ [10; 13]%Q) eq_refl)
    as (w' & r & sam & d & Hrun & Hm & Hr & _ & _ & _ & _ & _ & _ & _ & _ & Htext).
  { intros e w0 Hraised. apply (f_equal reruns) in Hraised.
    vm_compute in Hraised. discriminate Hraised. }
  destruct (Htext eq_refl) as (Hp & Hsam & _).
  exists w', r, sam. exact (conj Hrun (conj Hm (conj Hr (conj Hp Hsam)))).
Defined.

(** C5 at work: after a text-prompt run the panel vectorises with the
    object on which the run called [LangSAM()] and creates no model; after
    an automatic run it vectorises with a model created for the purpose, not
    with the one of the run. *)
Lemma vectorization_handle_witness :
  (∃ evs,
     trace (final (render_results Demo.idle Demo.after_text_prompt_run))
     = trace Demo.after_text_prompt_run ++ evs ∧
     ev_call (LangSAM_init 1) None ∈ trace Demo.after_text_prompt_run ∧
     (∀ h m v o, ev_call (raster_to_vector h m v) o ∈ evs → h = 1%nat) ∧
     (∀ h a o, ev_call (SamGeo_init h a) o ∉ evs) ∧
     ∃ m v, ev_call (raster_to_vector 1 m v) None ∈ evs) ∧
  (∃ evs sam,
     trace (final (render_results Demo.idle Demo.after_automatic_run))
     = trace Demo.after_automatic_run ++ evs ∧
     ev_call (SamGeo_init sam (Some (mkSamGeoArgs "vit_h" 32 0.86 0.92))) None
     ∈ trace Demo.after_automatic_run ∧
     (∀ h m v o,
        ev_call (raster_to_vector h m v) o ∈ evs →
        h ≠ sam ∧ ev_call (SamGeo_init h None) None ∈ evs) ∧
     ∃ h m v, ev_call (raster_to_vector h m v) None ∈ evs).
Proof.
  split.
  - destruct (vectorization_handle Demo.idle Demo.after_text_prompt_run
                (text_prompt_record "Text-Prompt Suche" "tree" (13 - 10) 1))
      as (evs & Ht & Hstored & _ & _).
    { vm_compute. reflexivity. }
    destruct (Hstored 1%nat eq_refl eq_refl) as (Hrtv & Hinit & _ & Hdone).
    exists evs. split; [exact Ht|]. split.
    { vm_compute.
      repeat first [apply list_elem_of_here | apply list_elem_of_further]. }
    split; [exact Hrtv|]. split; [exact Hinit|].
    apply Hdone. intros e w' Hraised. apply (f_equal raised) in Hraised.
    vm_compute in Hraised. discriminate Hraised.
  - assert (Hrerun : script Demo.run_automatic
                       (Demo.loaded Demo.reliable ∅ [10; 13]%Q)
                     = Rerun Demo.after_automatic_run)
      by (unfold Demo.after_automatic_run; apply reruns_eq; vm_compute;
          reflexivity).
    destruct (vectorization_handle Demo.idle Demo.after_automatic_run
                (automatic_record "Automatische Segmentierung" (13 - 10)))
      as (evs & Ht & _ & Hfresh & Hrun).
    { vm_compute. reflexivity. }
    destruct (Hrun Demo.run_automatic _ _ eq_refl Hrerun eq_refl (le_n _))
      as (sam & Hmodel & Hother).
    destruct (Hfresh (VStr "Automatische Segmentierung") eq_refl) as (_ & Hdone).
    { discriminate. }
    exists evs, sam. split; [exact Ht|]. split; [exact Hmodel|].
    split; [exact Hother|].
    destruct Hdone as (h & m & v & _ & _ & Hin).
    { intros e w' Hraised. apply (f_equal raised) in Hraised.
      vm_compute in Hraised. discriminate Hraised. }
    exists h, m, v. exact Hin.
Defined.

(** C6 at work: the reset button after an automatic run. *)
Lemma reset_restores_initial_state_witness :
  session (final (script Demo.reset Demo.after_automatic_run)) !! "results"
  = Some SNone ∧
  session (final (script Demo.reset Demo.after_automatic_run)) !! "map_visible"
  = Some (SBool true).
Proof.
  assert (Hrerun : script Demo.reset Demo.after_automatic_run
                   = Rerun (final (script Demo.reset Demo.after_automatic_run)))
    by (apply reruns_eq; vm_compute; reflexivity).
  destruct (reset_restores_initial_state Demo.reset Demo.after_automatic_run _
              eq_refl Hrerun) as (_ & Hr & Hm & _).
  exact (conj Hr Hm).
Defined.



(** C8 as stated fails: the wall clock reads 10 and then 5 (it was set back
    during the run); the run completes and stores a negative duration. *)
Lemma clock_set_back_gives_negative_duration :
  script Demo.run_automatic (Demo.loaded Demo.reliable ∅ [10; 5]%Q)
  = Rerun (final (script Demo.run_automatic (Demo.loaded Demo.reliable ∅ [10; 5]%Q))) ∧
  session (final (script Demo.run_automatic
                    (Demo.loaded Demo.reliable ∅ [10; 5]%Q))) !! "results"
  = Some (SDict (automatic_record "Automatische Segmentierung" (5 - 10))) ∧
  automatic_record "Automatische Segmentierung" (5 - 10) !! "duration"
  = Some (VFloat (5 - 10)) ∧
  (5 - 10 < 0)%Q.
Proof.
  split; [apply reruns_eq; vm_compute; reflexivity|].
  split; [vm_compute; reflexivity|].
  split; [reflexivity|]. reflexivity.
Qed.

(** C8 (amended) at work: the clock reads 10 and then 13. *)
Lemma duration_is_clock_difference_witness :
  ∃ r t0 t1,
    session Demo.after_automatic_run !! "results" = Some (SDict r) ∧
    r !! "duration" = Some (VFloat (t1 - t0)) ∧
    ((0 <= t1 - t0)%Q ↔ (t0 <= t1)%Q).
Proof.
  assert (Hrerun : script Demo.run_automatic (Demo.loaded Demo.reliable ∅ [10; 13]%Q)
                   = Rerun Demo.after_automatic_run)
    by (unfold Demo.after_automatic_run; apply reruns_eq; vm_compute;
        reflexivity).
  destruct (duration_is_clock_difference Demo.run_automatic _ _ eq_refl Hrerun)
    as (evs0 & segment & sam & t0 & t1 & r & _ & _ & _ & Hr & Hd & Hsign).
  exists r, t0, t1. exact (conj Hr (conj Hd Hsign)).
Defined.



(** * Further properties *)

(** Properties of the script beyond the claims: the session across
    executions, the failures of the run handler, the calls and the page of
    the results panel, the exports. *)

(** ** The session across executions *)

Section SessionFacts.
Context `{Env : Environment}.

Lemma with_defaults_lookup_other s k :
  k ≠ "results" → k ≠ "map_visible" → with_defaults s !! k = s !! k.
Proof.
  intros Hr Hm. unfold with_defaults. by rewrite !with_default_lookup_ne.
Qed.

Lemma stored_lookup_other r s k :
  k ≠ "results" → k ≠ "map_visible" → stored r (with_defaults s) !! k = s !! k.
Proof.
  intros Hr Hm. unfold stored. rewrite !lookup_insert_ne by done.
  by apply with_defaults_lookup_other.
Qed.

Lemma complete_record_truthy r : complete_record r → truthy (SDict r) = true.
Proof.
  intros (tiff & _ & _ & _ & _ & _ & Ht & _). simpl.
  apply negb_true_iff, bool_decide_eq_false. intros ->. by rewrite lookup_empty in Ht.
Qed.

Lemma consistent_with_defaults s : consistent s → with_defaults s = s.
Proof.
  intros [[Hr Hm]|(r & Hr & _ & Hm)]; apply with_defaults_id; by eexists.
Qed.

Lemma consistent_initial : consistent (with_defaults ∅).
Proof. by left. Qed.

Lemma consistent_stored inp sam d s : consistent (stored (results_record inp sam d) s).
Proof.
  right. exists (results_record inp sam d).
  split; [apply stored_lookup_results|].
  split; [apply results_record_complete|apply stored_lookup_map_visible].
Qed.

Lemma consistent_cleared s : consistent (cleared s).
Proof. left. split; [apply cleared_lookup_results|apply cleared_lookup_map_visible]. Qed.

(** The session at the end of an execution, whatever its outcome. *)
Lemma script_session inp w :
  let s := session (final (script inp w)) in
  s = with_defaults (session w) ∨
  (∃ sam d, s = stored (results_record inp sam d) (with_defaults (session w))) ∨
  s = cleared (with_defaults (session w)).
Proof.
  cbv zeta. destruct (in_run inp) eqn:Hrun.
  - pose proof (script_run_wp inp w Hrun) as Hwp. unfold wp in Hwp.
    destruct (script inp w) as [u w'|e w'|w']; simpl; [done|by left|].
    destruct Hwp as (evs0 & sam & t0 & t1 & _ & _ & Hs & _).
    right; left. by exists sam, (t1 - t0)%Q.
  - pose proof (script_idle_wp inp w Hrun) as Hwp. unfold wp in Hwp.
    destruct (script inp w) as [u w'|e w'|w']; simpl; [by left|by left|].
    right; right. by destruct Hwp.
Qed.

(** Without a click on the run button, [st.rerun()] is reached only through
    the reset button, which is rendered only when the results are truthy. *)
Lemma script_idle_rerun inp w :
  in_run inp = false →
  wp (script inp) (λ _ _, True) (λ _ _, True)
    (λ _, in_reset inp = true ∧
          truthy (default SNone (session w !! "results")) = true)
    w.
Proof.
  intros Hrun. unfold script, show_input_map. rewrite Hrun. wp_script; try done.
  all: cbn [session] in *;
    match goal with
    | H : with_defaults _ !! "results" = Some _ |- _ =>
        rewrite with_defaults_lookup_results in H; injection H as <-
    end.
  all: eapply wp_mono;
    [eapply render_results_panel; cbn [session]; apply with_defaults_lookup_results
    |done|done|by intros w' (? & _)].
Qed.

End SessionFacts.

(** ** Failures of the run handler *)

Section HandlerFailures.
Context `{Env : Environment}.

Lemma run_segmentation_raises inp w :
  wp (run_segmentation (locals_of inp))
    (λ _ _, False) run_failure (λ _, True) w.
Proof.
  unfold run_segmentation. wp_step. wp_step. wp_step.
  eapply wp_mono; [apply remove_old_files_wp|..]; cbn beta; [| |done].
  - intros _ w1 _. unfold locals_of. destruct (in_mode inp).
    + eapply wp_mono; [by apply download_and_segment_automatic|..];
        cbn beta; [done| |done].
      intros e w' (_ & c & l & -> & Hlast). right. by exists c, l.
    + eapply wp_mono; [by eapply download_and_segment_text_prompt|..];
        cbn beta; [done| |done].
      intros e w' (_ & c & l & -> & Hlast). right. by exists c, l.
  - intros e w' (_ & (file & f & -> & Hin & _) & _). left. by exists file.
Qed.

Lemma script_run_raises inp w :
  in_run inp = true →
  wp (script inp) (λ _ _, False) run_failure (λ _, True) w.
Proof.
  intros Hrun. unfold script, show_input_map. rewrite Hrun. wp_script; try done.
  all: cbn [session] in *;
    try match goal with
        | H : with_defaults _ !! "map_visible" = None |- _ =>
            by rewrite with_defaults_lookup_map_visible in H
        end.
  all: try (right; eexists _, _; split; [done|apply last_snoc]).
  all: eapply wp_mono; [apply run_segmentation_raises|..]; cbn beta; done.
Qed.

(** Lines 60-61 on a list whose first undeletable file is [file]. *)
Lemma remove_old_files_stops before : ∀ file after f w,
  Forall (clearable (disk w)) before → file ∉ before →
  disk w !! file = Some f → removable f = false →
  ∃ d',
    remove_old_files (before ++ file :: after) w
    = Raised (PermissionError file) (with_disk d' w) ∧
    ∀ p, d' !! p = if decide (p ∈ before) then None else disk w !! p.
Proof.
  induction before as [|b before IH]; intros file after f w Hall Hnin Hf Hr.
  - exists (disk w). simpl app. rewrite remove_old_files_cons, Hf, Hr.
    split; [by rewrite with_disk_same|].
    intros p. by rewrite decide_False by apply not_elem_of_nil.
  - apply Forall_cons in Hall as [Hb Hall].
    apply not_elem_of_cons in Hnin as [Hne Hnin].
    simpl app. rewrite remove_old_files_cons.
    destruct (disk w !! b) as [fb|] eqn:Hfb.
    + rewrite (Hb fb Hfb).
      destruct (IH file after f (with_disk (delete b (disk w)) w)) as (d' & Hrun & Hd').
      * eapply Forall_impl; [exact Hall|]. intros p Hp f' Hf'. simpl in Hf'.
        destruct (decide (p = b)) as [->|Hpb]; [by rewrite lookup_delete_eq in Hf'|].
        rewrite lookup_delete_ne in Hf' by done. by apply Hp.
      * done.
      * simpl. by rewrite lookup_delete_ne.
      * done.
      * exists d'. split; [exact Hrun|].
        intros p. rewrite Hd'. simpl.
        destruct (decide (p = b)) as [->|Hpb].
        -- rewrite lookup_delete_eq.
           rewrite (decide_True (P := b ∈ b :: before)) by apply list_elem_of_here.
           by case_decide.
        -- rewrite lookup_delete_ne by done.
           destruct (decide (p ∈ before));
             [by rewrite decide_True by (apply elem_of_cons; auto)
             |by rewrite decide_False by (apply not_elem_of_cons; auto)].
    + destruct (IH file after f w Hall Hnin Hf Hr) as (d' & Hrun & Hd').
      exists d'. split; [exact Hrun|].
      intros p. rewrite Hd'.
      destruct (decide (p = b)) as [->|Hpb].
      * rewrite (decide_True (P := b ∈ b :: before)) by apply list_elem_of_here.
        by case_decide.
      * destruct (decide (p ∈ before));
          [by rewrite decide_True by (apply elem_of_cons; auto)
          |by rewrite decide_False by (apply not_elem_of_cons; auto)].
Qed.

Lemma failed_at_here c after l :
  failed_at (ev_call c None :: after) l [ev_call c (Some l)].
Proof. by exists [], c, after. Qed.

Lemma failed_at_later ev planned l evs :
  failed_at planned l evs → failed_at (ev :: planned) l (ev :: evs).
Proof.
  intros (before & c & after & -> & ->). by exists (ev :: before), c, after.
Qed.

Lemma failed_at_app_r pre planned l evs :
  failed_at planned l evs → failed_at (pre ++ planned) l (pre ++ evs).
Proof.
  intros (before & c & after & -> & ->). exists (pre ++ before), c, after.
  by rewrite <- !app_assoc.
Qed.

End HandlerFailures.

(** A failure at the end of a branch of the run handler. *)
Ltac solve_failed_at :=
  cbn [app]; repeat first [apply failed_at_here | apply failed_at_later].

(** The events of a run in which a collaborator raises. *)

Section HandlerTraces.
Context `{Env : Environment}.

Lemma download_and_segment_stops inp w :
  wp (download_and_segment (locals_of inp))
    (λ _ _, False)
    (λ e w', ∃ l t0 t1 evs,
       e = LibraryError l ∧ trace w' = trace w ++ evs ∧
       failed_at (pipeline_events inp (next_handle w) t0 t1) l evs)
    (λ _, True) w.
Proof.
  unfold download_and_segment, pipeline_events, locals_of, save_visualization.
  destruct (in_mode inp); simpl mode_label; simpl String.eqb; cbv iota;
    cbn [text_prompt box_threshold text_threshold bbox process_type name_lookup].
  - unfold automatic_events, visualization_events.
    repeat wp_step; try done.
    all: eexists _, _, _, _; split; [reflexivity|];
      split; [cbn [trace]; rewrite <- ?app_assoc; reflexivity|];
      solve_failed_at.
    Unshelve. all: exact 0%Q.
  - unfold text_prompt_events, visualization_events, name_lookup.
    repeat wp_step; try done.
    all: eexists _, _, _, _; split; [reflexivity|];
      split; [cbn [trace]; rewrite <- ?app_assoc; reflexivity|];
      solve_failed_at.
    Unshelve. all: exact 0%Q.
Qed.

Lemma run_segmentation_stops inp w :
  wp (run_segmentation (locals_of inp))
    (λ _ _, False)
    (λ e w', ∀ l, e = LibraryError l →
       ∃ sam t0 t1 evs,
         trace w' = trace w ++ evs ∧
         failed_at (pipeline_events inp sam t0 t1) l evs)
    (λ _, True) w.
Proof.
  unfold run_segmentation. wp_step. wp_step. wp_step.
  eapply wp_mono; [apply remove_old_files_wp|..]; cbn beta; [| |done].
  - intros _ w1 ((_ & _ & Hn & Ht & _) & _). simpl in Hn, Ht.
    eapply wp_mono; [apply download_and_segment_stops|..]; cbn beta; [done| |done].
    intros e w' (l & t0 & t1 & evs & -> & Htr & Hf) l' [= <-].
    exists (next_handle w1), t0, t1, evs. by rewrite Htr, Ht.
  - by intros e w' (_ & (file & f & -> & _) & _) l.
Qed.

Lemma script_run_stops inp w :
  in_run inp = true →
  wp (script inp)
    (λ _ _, False)
    (λ e w', ∀ l, e = LibraryError l →
       ∃ evs0 sam t0 t1 evs,
         (evs0 = [] ∨ evs0 = input_map_events (next_handle w)) ∧
         trace w' = trace w ++ evs ∧
         failed_at (evs0 ++ pipeline_events inp sam t0 t1) l evs)
    (λ _, True) w.
Proof.
  intros Hrun. unfold script, show_input_map. rewrite Hrun. wp_script; try done.
  - eapply wp_mono; [apply run_segmentation_stops|..]; cbn beta;
      cbn [disk session ext next_handle trace page]; [done| |done].
    intros e w' Hf l ->. destruct (Hf l eq_refl) as (sam & t0 & t1 & evs & Ht & Hfa).
    exists (input_map_events (next_handle w)), sam, t0, t1,
      (input_map_events (next_handle w) ++ evs).
    split; [by right|]. split; [by rewrite Ht, <- !app_assoc|].
    by apply failed_at_app_r.
  - intros l [= <-].
    exists (input_map_events (next_handle w)), 0%nat, 0%Q, 0%Q. eexists.
    split; [by right|]. split; [cbn [trace]; rewrite <- ?app_assoc; reflexivity|].
    unfold input_map_events. solve_failed_at.
  - intros l [= <-].
    exists (input_map_events (next_handle w)), 0%nat, 0%Q, 0%Q. eexists.
    split; [by right|]. split; [cbn [trace]; rewrite <- ?app_assoc; reflexivity|].
    unfold input_map_events. solve_failed_at.
  - intros l [= <-].
    exists (input_map_events (next_handle w)), 0%nat, 0%Q, 0%Q. eexists.
    split; [by right|]. split; [cbn [trace]; reflexivity|].
    unfold input_map_events. solve_failed_at.
  - eapply wp_mono; [apply run_segmentation_stops|..]; cbn beta;
      cbn [disk session ext next_handle trace page]; [done| |done].
    intros e w' Hf l ->. destruct (Hf l eq_refl) as (sam & t0 & t1 & evs & Ht & Hfa).
    exists [], sam, t0, t1, evs. by split; [left|].
Qed.

End HandlerTraces.

(** ** More facts about paths *)

Module SplitextFacts.
Import Path PathFacts.







End SplitextFacts.

(** ** More facts about the archive *)

Section ArchiveFacts.
Context `{Env : Environment}.





End ArchiveFacts.

(** ** The exports *)

Section KnownFiles.
Context `{Env : Environment}.

Lemma wp_open_rb_known p f Qd Qr Qn w :
  disk w !! p = Some f → Qd (data f) w → wp (open_rb p) Qd Qr Qn w.
Proof. intros Hf HQ. unfold wp, open_rb. by rewrite Hf. Qed.

Lemma wp_open_rb_missing p Qd Qr Qn w :
  disk w !! p = None → Qr (FileNotFoundError p) w → wp (open_rb p) Qd Qr Qn w.
Proof. intros Hf HQ. unfold wp, open_rb. by rewrite Hf. Qed.

End KnownFiles.

(** Symbolic execution when the values read are known: no case is split. *)
Ltac wp_known :=
  lazymatch goal with
  | |- wp (format_1f (VFloat _)) _ _ _ _ => apply wp_format_1f; wp_world
  | |- wp (as_path (VStr _)) _ _ _ _ => apply wp_as_path; wp_world
  | |- wp (method_receiver (VHandle _) _) _ _ _ _ =>
      apply wp_method_receiver; wp_world
  | |- wp (subscript (SDict ?r) ?k) _ _ _ _ =>
      lazymatch goal with
      | H : r !! k = Some ?v |- _ => apply (wp_subscript_known r k v); [exact H|]
      end
  | |- wp (open_rb ?p) _ _ _ _ =>
      lazymatch goal with
      | H : _ !! p = Some ?f |- _ => apply (wp_open_rb_known p f); [exact H|]
      | H : _ !! p = None |- _ => apply (wp_open_rb_missing p); [exact H|]
      end
  | |- wp (download_button _ _ _) _ _ _ _ => unfold download_button
  | |- wp (st_button _ _) _ _ _ _ => unfold st_button
  end.

(** Lines 208-246 when the two files to download exist. *)

Section DownloadFacts.
Context `{Env : Environment}.



End DownloadFacts.

(** ** The calls of the panel *)

Section CallFacts.
Context `{Env : Environment}.

Lemma field_of_lookup (r : gmap string Value) k v : r !! k = Some v → field_of r k = v.
Proof. intros H. unfold field_of. by rewrite H. Qed.

Lemma interrupted_app_l cs cs' l evs :
  interrupted cs l evs → interrupted (cs ++ cs') l evs.
Proof.
  intros (before & c & after & -> & ->). exists before, c, (after ++ cs').
  by rewrite <- app_assoc.
Qed.

Lemma interrupted_app_r cs cs' l evs :
  interrupted cs' l evs → interrupted (cs ++ cs') l ((returned <$> cs) ++ evs).
Proof.
  intros (before & c & after & -> & ->). exists (cs ++ before), c, after.
  by rewrite fmap_app, <- !app_assoc.
Qed.

Lemma grows_trans w1 w2 w3 evs1 evs2 :
  grows w1 w2 evs1 → grows w2 w3 evs2 → grows w1 w3 (evs1 ++ evs2).
Proof.
  intros (Ht1 & els1 & Hp1 & Hn1) (Ht2 & els2 & Hp2 & Hn2). split.
  - by rewrite Ht2, Ht1, app_assoc.
  - exists (els1 ++ els2). split; [by rewrite Hp2, Hp1, app_assoc|].
    rewrite elem_of_app. by intros [?|?].
Qed.

Lemma grows_completes w1 w2 w3 evs1 evs2 :
  grows w1 w2 evs1 → completes w2 w3 evs2 → completes w1 w3 (evs1 ++ evs2).
Proof.
  intros (Ht1 & els1 & Hp1 & Hn1) (Ht2 & els2 & Hp2 & Hn2). split.
  - by rewrite Ht2, Ht1, app_assoc.
  - exists (els1 ++ els2). split; [by rewrite Hp2, Hp1, <- !app_assoc|].
    rewrite elem_of_app. by intros [?|?].
Qed.

(** A block that makes calls, followed by the rest of the rendering. *)
Lemma renders_bind {A} (m : M A) (f : A → M unit) w cs1 cs2 Q :
  makes_calls m w cs1 Q →
  (∀ a w1, Q a w1 → renders (f a) w1 cs2) →
  renders (m ≫= f) w (cs1 ++ cs2).
Proof.
  intros Hm Hf. unfold renders. apply wp_bind.
  eapply wp_mono; [exact Hm|..]; cbv beta.
  - intros a w1 [Hg HQ]. eapply wp_mono; [exact (Hf a w1 HQ)|..]; cbv beta.
    + intros _ w2 Hc. rewrite fmap_app. by eapply grows_completes.
    + intros e w2 [(l & evs & -> & Hi & Hg2)|(He & Hg2)].
      * left. exists l, ((returned <$> cs1) ++ evs).
        split; [done|]. split; [by apply interrupted_app_r|].
        by eapply grows_trans.
      * right. split; [done|]. rewrite fmap_app. by eapply grows_trans.
    + intros w2 Hc. rewrite fmap_app. by eapply grows_completes.
  - intros e w1 (l & evs & -> & Hi & Hg). left. exists l, evs.
    split; [done|]. split; [by apply interrupted_app_l|done].
  - done.
Qed.

End CallFacts.

(** The goals at the end of a branch of a block. *)
Ltac no_reset_button :=
  let Hin := fresh "Hin" in
  intros Hin; cbn [app] in Hin;
  repeat (apply elem_of_cons in Hin as [Hin|Hin]; [discriminate Hin|]);
  by apply elem_of_nil in Hin.

Ltac solve_grows :=
  split;
  [ cbn [trace]; rewrite <- ?app_assoc;
    first [reflexivity | symmetry; apply app_nil_r]
  | eexists; split;
    [ cbn [page]; rewrite <- ?app_assoc;
      first [reflexivity | symmetry; apply app_nil_r]
    | no_reset_button ] ].

Ltac solve_interrupted :=
  eexists _, _; split; [reflexivity|];
  split; [|solve_grows];
  first [ eexists [], _, _; split; reflexivity
        | eexists [_], _, _; split; reflexivity
        | eexists [_; _], _, _; split; reflexivity
        | eexists [_; _; _], _, _; split; reflexivity ].

Ltac known_fields :=
  repeat match goal with
         | H : ?r !! ?k = Some ?v |- context [field_of ?r ?k] =>
             rewrite (field_of_lookup r k v H)
         end.

(** The blocks of the panel for a complete record. *)

Section PanelBlocks.
Context `{Env : Environment}.

Lemma show_heading_calls r w :
  complete_record r →
  makes_calls (show_heading (SDict r)) w [] (λ _ w', next_handle w' = next_handle w).
Proof.
  intros (tiff & mask & vector & vis & pt & d & Ht & Hm & Hv & Hvis & Hpt & Hd
          & Htext).
  unfold makes_calls, show_heading.
  repeat first [wp_step | wp_known].
  destruct (String.eqb_spec pt "Text-Prompt Suche") as [Heq|Hne].
  - destruct (Htext Heq) as (p & h & Hp & Hsam).
    change (value_eq_str (VStr pt) "Text-Prompt Suche")
      with (String.eqb pt "Text-Prompt Suche").
    rewrite (proj2 (String.eqb_eq _ _) Heq).
    repeat first [wp_step | wp_known]. split; [solve_grows|done].
  - change (value_eq_str (VStr pt) "Text-Prompt Suche")
      with (String.eqb pt "Text-Prompt Suche").
    rewrite (proj2 (String.eqb_neq _ _) Hne).
    repeat first [wp_step | wp_known]. split; [solve_grows|done].
Qed.

Lemma show_comparison_calls r w :
  complete_record r →
  makes_calls (show_comparison (SDict r)) w (comparison_calls r)
    (λ _ w', next_handle w' = next_handle w).
Proof.
  intros (tiff & mask & vector & vis & pt & d & Ht & Hm & Hv & Hvis & Hpt & Hd
          & Htext).
  unfold makes_calls, show_comparison, comparison_calls. known_fields.
  repeat first [wp_step | wp_known].
  - split; [solve_grows|done].
  - solve_interrupted.
Qed.

Lemma show_result_map_calls r w :
  complete_record r →
  makes_calls (show_result_map (SDict r)) w (result_map_calls r (next_handle w))
    (λ m w', m = next_handle w ∧ next_handle w' = S (next_handle w)).
Proof.
  intros (tiff & mask & vector & vis & pt & d & Ht & Hm & Hv & Hvis & Hpt & Hd
          & Htext).
  unfold makes_calls, show_result_map, result_map_calls. known_fields.
  repeat first [wp_step | wp_known].
  all: first [ split; [solve_grows|done] | solve_interrupted ].
Qed.

Lemma vectorize_calls_made r w :
  complete_record r →
  makes_calls (vectorize (SDict r)) w (vectorize_calls r (next_handle w))
    (λ _ _, True).
Proof.
  intros (tiff & mask & vector & vis & pt & d & Ht & Hm & Hv & Hvis & Hpt & Hd
          & Htext).
  unfold makes_calls, vectorize, vectorize_calls. known_fields.
  repeat first [wp_step | wp_known].
  change (value_eq_str (VStr pt) "Text-Prompt Suche")
    with (String.eqb pt "Text-Prompt Suche").
  destruct (String.eqb_spec pt "Text-Prompt Suche") as [Heq|Hne].
  - destruct (Htext Heq) as (p & h & Hp & Hsam). rewrite Hsam.
    repeat first [wp_step | wp_known].
    all: first [ split; [solve_grows|done] | solve_interrupted ].
  - repeat first [wp_step | wp_known].
    all: first [ split; [solve_grows|done] | solve_interrupted ].
Qed.

Lemma show_vector_layer_calls r m w :
  complete_record r →
  makes_calls (show_vector_layer (SDict r) m) w (vector_layer_calls r m)
    (λ _ _, True).
Proof.
  intros (tiff & mask & vector & vis & pt & d & Ht & Hm & Hv & Hvis & Hpt & Hd
          & Htext).
  unfold makes_calls, show_vector_layer, vector_layer_calls. known_fields.
  repeat first [wp_step | wp_known].
  all: first [ split; [solve_grows|done] | solve_interrupted ].
Qed.

(** Lines 208-252: the exports and the reset button make no call. *)
Lemma exports_render r inp w :
  complete_record r →
  renders (show_downloads (SDict r) ≫= λ _, reset_button inp) w [].
Proof.
  intros (tiff & mask & vector & vis & pt & d & Ht & Hm & Hv & Hvis & Hpt & Hd
          & Htext).
  unfold renders, show_downloads, reset_button.
  repeat first [wp_step | wp_known].
  apply wp_open_rb;
    [intros fm _|intros _; right; split; [left; by eexists|solve_grows]].
  repeat first [wp_step | wp_known].
  apply wp_open_rb;
    [intros fv _|intros _; right; split; [left; by eexists|solve_grows]].
  repeat first [wp_step | wp_known].
  apply wp_create_shapefile_zip;
    [ apply archive_is_no_sidecar
    |
    | intros _; right; split; [by right|solve_grows]
    | intros _; right; split; [left; by eexists|solve_grows] ].
  intros _ d' _ _. wp_world.
  repeat first [wp_step | wp_known].
  apply wp_open_rb;
    [intros fz _|intros _; right; split; [left; by eexists|solve_grows]].
  repeat first [wp_step | wp_known].
  assert (Hc : ∀ w' : World,
            trace w' = trace w →
            page w' = (((((page w ++ [ui_header "Ergebnisse exportieren"])
                          ++ [ui_download_button "GeoTIFF herunterladen" (data fm)
                                "segmentation.tif"])
                         ++ [ui_download_button "Visualisierung herunterladen"
                               (data fv) "visualization.png"])
                        ++ [ui_download_button "Vektordaten (Shapefile)" (data fz)
                              "segmentation_shp.zip"])
                       ++ [ui_button "Neue Segmentierung starten"]) →
            completes w w' []).
  { intros w' Htr Hpg. split; [by rewrite Htr, app_nil_r|].
    exists [ ui_header "Ergebnisse exportieren";
             ui_download_button "GeoTIFF herunterladen" (data fm) "segmentation.tif";
             ui_download_button "Visualisierung herunterladen" (data fv)
               "visualization.png";
             ui_download_button "Vektordaten (Shapefile)" (data fz)
               "segmentation_shp.zip" ].
    split; [by rewrite Hpg, <- !app_assoc|no_reset_button]. }
  apply wp_when; intros Hclick.
  - repeat wp_step. by apply Hc.
  - by apply Hc.
Qed.

(** One rendering of the panel for a complete record. *)
Lemma render_results_calls inp w r :
  session w !! "results" = Some (SDict r) →
  complete_record r →
  renders (render_results inp) w (panel_calls r (next_handle w)).
Proof.
  intros Hres Hr. unfold renders, render_results.
  apply wp_bind, (wp_session_get_known _ (SDict r)); [done|].
  change (panel_calls r (next_handle w))
    with ([] ++ comparison_calls r ++ result_map_calls r (next_handle w)
          ++ vectorize_calls r (S (next_handle w))
          ++ vector_layer_calls r (next_handle w) ++ []).
  eapply renders_bind; [by apply show_heading_calls|]. intros [] w1 Hn1; cbv beta in Hn1.
  eapply renders_bind; [by apply show_comparison_calls|].
  intros [] w2 Hn2; cbv beta in Hn2.
  rewrite <- Hn1, <- Hn2.
  eapply renders_bind; [by apply show_result_map_calls|].
  intros m w3 [Hm Hn3]; cbv beta in Hm, Hn3.
  rewrite <- Hn3, <- Hm.
  eapply renders_bind; [by apply vectorize_calls_made|]. intros [] w4 _.
  eapply renders_bind; [by apply show_vector_layer_calls|]. intros [] w5 _.
  by apply exports_render.
Qed.

End PanelBlocks.

(** ** The calls of one execution *)

Section ScriptCalls.
Context `{Env : Environment}.

Lemma returned_elem (cs : list Call) c o :
  ev_call c o ∈ returned <$> cs → c ∈ cs ∧ o = None.
Proof.
  intros (c' & Heq & Hin)%list_elem_of_fmap. unfold returned in Heq.
  by simplify_eq.
Qed.

Lemma interrupted_elem (cs : list Call) l evs ev :
  interrupted cs l evs → ev ∈ evs → ∃ c o, ev = ev_call c o ∧ c ∈ cs.
Proof.
  intros (before & c & after & -> & ->) Hin.
  apply elem_of_app in Hin as [Hin|Hin].
  - apply list_elem_of_fmap in Hin as (c' & -> & Hin). exists c', None.
    split; [done|]. apply elem_of_app. by left.
  - apply list_elem_of_singleton in Hin as ->. exists c, (Some l).
    split; [done|]. apply elem_of_app. right. apply list_elem_of_here.
Qed.

Lemma calls_until_failure_elem (cs : list Call) evs ev :
  calls_until_failure cs evs → ev ∈ evs → ∃ c o, ev = ev_call c o ∧ c ∈ cs.
Proof.
  intros [->|[l Hi]] Hin; [|by eapply interrupted_elem].
  apply list_elem_of_fmap in Hin as (c & -> & Hin). by exists c, None.
Qed.

Lemma input_elements_no_reset inp :
  ui_button "Neue Segmentierung starten" ∉ form_page inp.
Proof.
  unfold form_page, input_elements. destruct (in_mode inp); no_reset_button.
Qed.

(** An execution without a click on a session that holds a complete record
    and hides the input map: the form, then the panel. *)
Lemma script_results_wp inp w r :
  in_run inp = false →
  session w !! "results" = Some (SDict r) → complete_record r →
  session w !! "map_visible" = Some (SBool false) →
  let w1 := mkWorld (disk w) (session w) (ext w) (next_handle w) (trace w)
              (page w ++ form_page inp) in
  wp (script inp)
    (λ _ w', completes w1 w' (returned <$> panel_calls r (next_handle w)))
    (λ e w',
       (∃ l evs, e = LibraryError l ∧
                 interrupted (panel_calls r (next_handle w)) l evs ∧
                 grows w1 w' evs) ∨
       (export_failure e ∧
        grows w1 w' (returned <$> panel_calls r (next_handle w))))
    (λ w', completes w1 w' (returned <$> panel_calls r (next_handle w)))
    w.
Proof.
  intros Hrun Hres Hr Hmap w1. unfold script, show_input_map. rewrite Hrun.
  wp_step. wp_step. wp_step. apply wp_init_session_state. wp_world.
  rewrite (with_defaults_id (session w)) by by eexists.
  wp_script; try done.
  - subst w1. unfold form_page. rewrite !app_assoc.
    set (w1 := mkWorld _ _ _ _ _ _).
    exact (render_results_calls inp w1 r Hres Hr).
  - match goal with H : truthy _ = false |- _ =>
      by rewrite complete_record_truthy in H end.
Qed.

(** An execution without a click on the session of the initial load: the
    input map, then the form. *)
Lemma script_input_wp inp w :
  in_run inp = false →
  session w !! "results" = Some SNone →
  session w !! "map_visible" = Some (SBool true) →
  wp (script inp)
    (λ _ w', trace w' = trace w ++ (returned <$> input_map_calls (next_handle w)) ∧
             page w' = page w ++ form_page inp)
    (λ e w', ∃ l evs,
       e = LibraryError l ∧ interrupted (input_map_calls (next_handle w)) l evs ∧
       trace w' = trace w ++ evs ∧
       page w' = page w ++ [ui_title "KI-basierte Objekterkennung mit Meta's LangSAM"])
    (λ _, False)
    w.
Proof.
  intros Hrun Hres Hmap. unfold script, show_input_map. rewrite Hrun.
  wp_step. wp_step. wp_step. apply wp_init_session_state. wp_world.
  rewrite (with_defaults_id (session w)) by by eexists.
  wp_script; try done.
  - cbn [trace page]. unfold form_page. by rewrite <- !app_assoc.
  - eexists _, _. split; [done|]. cbn [trace page]. rewrite <- !app_assoc.
    split; [|done]. by eexists [_; _], _, _.
  - eexists _, _. split; [done|]. cbn [trace page]. rewrite <- !app_assoc.
    split; [|done]. by eexists [_], _, _.
  - eexists _, _. split; [done|]. cbn [trace page].
    split; [|done]. by eexists [], _, _.
Qed.

(** The one call of the panel that adds the layer "Segmentierung". *)
Lemma mask_layer_in_panel_calls r n m source opacity pal nodata :
  Map_add_raster m source "Segmentierung" opacity pal nodata ∈ panel_calls r n →
  m = n ∧ source = field_of r "mask_path" ∧ opacity = Some 0.7%Q ∧
  pal = Some (if value_eq_str (field_of r "process_type") "Automatische Segmentierung"
              then "viridis" else "Greens") ∧
  nodata = Some 0.
Proof.
  unfold panel_calls, comparison_calls, result_map_calls, vectorize_calls,
    vector_layer_calls.
  intros Hin. rewrite !elem_of_app in Hin.
  destruct Hin as [Hin|[Hin|[Hin|Hin]]].
  - in_events Hin.
  - in_events Hin. done.
  - destruct (value_eq_str _ _); [destruct (r !! "sam") as [[]|]|]; in_events Hin.
  - in_events Hin.
Qed.

Lemma to_streamlit_in_panel_calls r n m height key :
  Map_to_streamlit m height key ∈ panel_calls r n → m = n ∧ key = "result_map".
Proof.
  unfold panel_calls, comparison_calls, result_map_calls, vectorize_calls,
    vector_layer_calls.
  intros Hin. rewrite !elem_of_app in Hin.
  destruct Hin as [Hin|[Hin|[Hin|Hin]]].
  - in_events Hin.
  - in_events Hin.
  - destruct (value_eq_str _ _); [destruct (r !! "sam") as [[]|]|]; in_events Hin.
  - in_events Hin. done.
Qed.

Lemma to_streamlit_in_input_map_calls n m height key :
  Map_to_streamlit m height key ∈ input_map_calls n → m = n ∧ key = "main_map".
Proof. unfold input_map_calls. intros Hin. in_events Hin. done. Qed.

Lemma results_record_mode inp sam d :
  field_of (results_record inp sam d) "process_type" = VStr (mode_label (in_mode inp)) ∧
  field_of (results_record inp sam d) "mask_path" = VStr "masks.tif".
Proof. unfold results_record. by destruct (in_mode inp). Qed.

End ScriptCalls.

(** How an outcome without a value ends, from what can be observed of it. *)

Section Completion.
Context {W : Type}.

Lemma done_eq (o : Outcome W ()) :
  raised o = None → reruns o = false → o = Done tt (final o).
Proof. by destruct o as [[] w| |]. Qed.

End Completion.

(** ** The properties *)

Section Further.
Context `{Env : Environment}.

(** X1. Lines 16-19 give "results" and "map_visible" a value only when the
    session has none: a value already stored is kept, [None] and [False]
    included.  No other key changes, nor the disk, the trace or the page, and
    running the lines a second time changes nothing. *)
Theorem session_defaults_keep_existing (w : World) :
  ∃ w',
    init_session_state w = Done tt w' ∧
    disk w' = disk w ∧ trace w' = trace w ∧ page w' = page w ∧
    session w' !! "results" = Some (default SNone (session w !! "results")) ∧
    session w' !! "map_visible"
    = Some (default (SBool true) (session w !! "map_visible")) ∧
    (∀ k, k ≠ "results" → k ≠ "map_visible" →
          session w' !! k = session w !! k) ∧
    init_session_state w' = Done tt w'.
Proof.
  eexists. split; [apply init_session_state_eq|]. cbn [disk trace page session].
  split; [done|]. split; [done|]. split; [done|].
  split; [apply with_defaults_lookup_results|].
  split; [apply with_defaults_lookup_map_visible|].
  split; [intros k Hr Hm; by apply with_defaults_lookup_other|].
  rewrite init_session_state_eq. cbn [disk trace page session ext next_handle].
  rewrite (with_defaults_id (with_defaults (session w))); [done|..].
  - rewrite with_defaults_lookup_results. by eexists.
  - rewrite with_defaults_lookup_map_visible. by eexists.
Qed.

(** X2. Starting from the empty session of a first load, or from a
    consistent one, every execution leaves a consistent session, however it
    ends and whatever the inputs and the collaborators do: either no results
    and the input map visible, or a complete record and the input map
    hidden.  In particular "results" is truthy exactly when "map_visible" is
    not. *)
Theorem session_stays_consistent (inp : Inputs) (w : World) :
  session w = ∅ ∨ consistent (session w) →
  let s := session (final (script inp w)) in
  consistent s ∧
  ∃ results map_visible,
    s !! "results" = Some results ∧ s !! "map_visible" = Some map_visible ∧
    truthy results = negb (truthy map_visible).
Proof.
  intros Hw. cbv zeta.
  assert (Hc : consistent (session (final (script inp w)))).
  { assert (Hd : consistent (with_defaults (session w))).
    { destruct Hw as [->|Hc]; [apply consistent_initial|].
      by rewrite consistent_with_defaults. }
    destruct (script_session inp w) as [->|[(sam & d & ->)| ->]];
      [done|apply consistent_stored|apply consistent_cleared]. }
  split; [done|].
  destruct Hc as [[Hr Hm]|(r & Hr & Hc & Hm)].
  - by exists SNone, (SBool true).
  - exists (SDict r), (SBool false). split; [done|]. split; [done|].
    by rewrite complete_record_truthy.
Qed.

(** X3. The script writes no key of the session other than "results" and
    "map_visible": every other key holds after an execution what it held
    before, however the execution ends. *)
Theorem script_writes_two_keys_only (inp : Inputs) (w : World) (k : string) :
  k ≠ "results" → k ≠ "map_visible" →
  session (final (script inp w)) !! k = session w !! k.
Proof.
  intros Hr Hm.
  destruct (script_session inp w) as [->|[(sam & d & ->)| ->]].
  - by apply with_defaults_lookup_other.
  - by apply stored_lookup_other.
  - by apply cleared_lookup_other.
Qed.

(** X4. [st.rerun()] is reached only through a button: an execution that
    ends in it had a click on the run button, or a click on the reset button
    with truthy results.  An execution in which no button reports a click
    never asks for another one, so a widget event leads to at most two
    executions. *)
Theorem rerun_needs_click (inp : Inputs) (w : World) :
  (∀ w', script inp w = Rerun w' →
     in_run inp = true ∨
     (in_reset inp = true ∧
      truthy (default SNone (session w !! "results")) = true)) ∧
  reruns (script (no_clicks inp) w) = false ∧
  reruns (interact inp w) = false.
Proof.
  assert (Hquiet : ∀ w0, reruns (script (no_clicks inp) w0) = false).
  { intros w0. pose proof (script_idle_rerun (no_clicks inp) w0 eq_refl) as Hwp.
    unfold wp in Hwp. destruct (script (no_clicks inp) w0); try done.
    by destruct Hwp. }
  split; [|split; [done|]].
  - intros w' Hrerun. destruct (in_run inp) eqn:Hrun; [by left|right].
    exact (wp_rerun _ _ _ _ _ _ (script_idle_rerun inp w Hrun) Hrerun).
  - unfold interact. destruct (script inp (clear_page w)); [done|done|apply Hquiet].
Qed.

(** X5. On the session of the initial load and without a click, the only
    statements that can raise are the three calls of the input map.  When one
    does, the calls before it have returned, the session is unchanged, and
    the page holds the title only: neither the form nor the run button is
    rendered. *)
Theorem input_map_failure_hides_form (inp : Inputs) (w w' : World) (e : Exn) :
  in_run inp = false →
  session w !! "results" = Some SNone →
  session w !! "map_visible" = Some (SBool true) →
  script inp w = Raised e w' →
  page w' = page w ++ [ui_title "KI-basierte Objekterkennung mit Meta's LangSAM"] ∧
  session w' = session w ∧
  ∃ l evs,
    e = LibraryError l ∧ interrupted (input_map_calls (next_handle w)) l evs ∧
    trace w' = trace w ++ evs.
Proof.
  intros Hrun Hres Hmap Hraised.
  destruct (wp_raised _ _ _ _ _ _ _ (script_input_wp inp w Hrun Hres Hmap) Hraised)
    as (l & evs & -> & Hi & Ht & Hp).
  split; [done|]. split.
  - pose proof (wp_raised _ _ _ _ _ _ _ (script_idle_wp inp w Hrun) Hraised) as Hs.
    cbv beta in Hs. rewrite Hs. apply with_defaults_id; by eexists.
  - by exists l, evs.
Qed.

(** X6. In an execution without a click on the run button, from a
    consistent session: with no results the calls made are those of the
    input map, with results those of the panel, in order and up to the first
    that raises, and the clock is not read.  So every map rendered has the
    key "main_map" in the first case and "result_map" in the second: the
    two maps are never drawn in the same execution. *)
Theorem one_map_per_execution (inp : Inputs) (w : World) :
  in_run inp = false →
  consistent (session w) →
  ∃ evs,
    trace (final (script inp w)) = trace w ++ evs ∧
    match session w !! "results" with
    | Some (SDict r) => calls_until_failure (panel_calls r (next_handle w)) evs
    | _ => calls_until_failure (input_map_calls (next_handle w)) evs
    end ∧
    ∀ m height key o,
      ev_call (Map_to_streamlit m height key) o ∈ evs →
      m = next_handle w ∧
      key = if truthy (default SNone (session w !! "results"))
            then "result_map" else "main_map".
Proof.
  intros Hrun [[Hres Hmap]|(r & Hres & Hr & Hmap)].
  - assert (Hevs : ∃ evs, trace (final (script inp w)) = trace w ++ evs ∧
                          calls_until_failure (input_map_calls (next_handle w)) evs).
    { pose proof (script_input_wp inp w Hrun Hres Hmap) as Hwp. unfold wp in Hwp.
      destruct (script inp w) as [u w'|e w'|w']; simpl; [| |done].
      - destruct Hwp as [Ht _]. eexists. split; [exact Ht|by left].
      - destruct Hwp as (l & evs & _ & Hi & Ht & _). exists evs.
        split; [done|]. right. by exists l. }
    destruct Hevs as (evs & Ht & Hcalls). exists evs. rewrite Hres.
    split; [done|]. split; [done|].
    intros m height key o Hin.
    destruct (calls_until_failure_elem _ _ _ Hcalls Hin) as (c & o' & Heq & Hc).
    injection Heq as <- <-. by apply to_streamlit_in_input_map_calls in Hc.
  - assert (Hevs : ∃ evs, trace (final (script inp w)) = trace w ++ evs ∧
                          calls_until_failure (panel_calls r (next_handle w)) evs).
    { pose proof (script_results_wp inp w r Hrun Hres Hr Hmap) as Hwp.
      cbv zeta in Hwp. unfold wp in Hwp.
      destruct (script inp w) as [u w'|e w'|w']; simpl.
      - destruct Hwp as [Ht _]. eexists. split; [exact Ht|by left].
      - destruct Hwp as [(l & evs & _ & Hi & Ht & _)|(_ & Ht & _)].
        + exists evs. split; [done|]. right. by exists l.
        + eexists. split; [exact Ht|by left].
      - destruct Hwp as [Ht _]. eexists. split; [exact Ht|by left]. }
    destruct Hevs as (evs & Ht & Hcalls). exists evs. rewrite Hres.
    split; [done|]. split; [done|].
    intros m height key o Hin. simpl default. rewrite complete_record_truthy by done.
    destruct (calls_until_failure_elem _ _ _ Hcalls Hin) as (c & o' & Heq & Hc).
    injection Heq as <- <-. by apply to_streamlit_in_panel_calls in Hc.
Qed.

(** X7. Whatever the session holds, an execution with a click on the run
    button that raises raises [PermissionError] for one of the three output
    files, or the exception of a collaborator whose failed call is the last
    event.  It raises no [NameError], although the three text-prompt
    variables are unbound in automatic mode, and no [KeyError],
    [AttributeError], [TypeError], [ValueError] or [FileNotFoundError]: the
    results panel is not reached, whatever record the session holds. *)
Theorem run_click_exceptions (inp : Inputs) (w w' : World) (e : Exn) :
  in_run inp = true →
  script inp w = Raised e w' →
  ((∃ p, e = PermissionError p ∧
         p ∈ ["satellite.tif"; "masks.tif"; "masks.shp"]) ∨
   (∃ c l, e = LibraryError l ∧ last (trace w') = Some (ev_call c (Some l)))) ∧
  (∀ x, e ≠ NameError x) ∧ (∀ k, e ≠ KeyError k) ∧
  (∀ a, e ≠ AttributeError a) ∧ e ≠ TypeError ∧ e ≠ ValueError ∧
  (∀ p, e ≠ FileNotFoundError p).
Proof.
  intros Hrun Hraised.
  pose proof (wp_raised _ _ _ _ _ _ _ (script_run_raises inp w Hrun) Hraised) as He.
  split; [exact He|].
  destruct He as [(p & -> & _)|(c & l & -> & _)]; by repeat split.
Qed.

(** X8. The loop of lines 60-61 stops at the first file it cannot remove:
    the files before it in the list are gone; that file, the files after it
    and every other path are as they were; [PermissionError] names that file.
    For the list of the script: when "masks.tif" cannot be removed,
    "satellite.tif" has already been deleted and "masks.shp" has not. *)
Theorem cleanup_stops_at_first_failure (before after : list string)
  (file : string) (f : File) (w : World) :
  Forall (clearable (disk w)) before → file ∉ before →
  disk w !! file = Some f → removable f = false →
  ∃ w',
    remove_old_files (before ++ file :: after) w = Raised (PermissionError file) w' ∧
    same_but_disk w w' ∧
    (∀ p, p ∈ before → disk w' !! p = None) ∧
    (∀ p, p ∉ before → disk w' !! p = disk w !! p) ∧
    disk w' !! file = Some f.
Proof.
  intros Hall Hnin Hf Hr.
  destruct (remove_old_files_stops before file after f w Hall Hnin Hf Hr)
    as (d' & Hrun & Hd').
  exists (with_disk d' w). split; [exact Hrun|]. split; [done|]. simpl.
  split; [|split].
  - intros p Hp. by rewrite Hd', decide_True.
  - intros p Hp. by rewrite Hd', decide_False.
  - by rewrite Hd', decide_False.
Qed.

(** X9. When a collaborator raises in an execution with a click on the run
    button, the events of the execution are those of a completed run up to
    the call that raised, followed by this call: nothing that comes after it
    in the script has happened.  For instance no model is created when the
    download fails. *)
Theorem run_stops_at_first_failure (inp : Inputs) (w w' : World) (l : LibExn) :
  in_run inp = true →
  script inp w = Raised (LibraryError l) w' →
  ∃ evs0 sam t0 t1 before c after,
    (evs0 = [] ∨ evs0 = input_map_events (next_handle w)) ∧
    evs0 ++ pipeline_events inp sam t0 t1 = before ++ ev_call c None :: after ∧
    trace w' = trace w ++ before ++ [ev_call c (Some l)].
Proof.
  intros Hrun Hraised.
  destruct (wp_raised _ _ _ _ _ _ _ (script_run_stops inp w Hrun) Hraised l eq_refl)
    as (evs0 & sam & t0 & t1 & evs & Hevs0 & Ht & before & c & after & Hplan & ->).
  by exists evs0, sam, t0, t1, before, c, after.
Qed.


(** X11. After a completed run, the panel adds the mask "masks.tif" as the
    layer "Segmentierung" of the result map with opacity 0.7 and nodata 0,
    and with the palette "viridis" when the run was automatic, "Greens" when
    it was a text-prompt run. *)
Theorem mask_layer_palette (inp0 inp : Inputs) (w0 w1 w : World) :
  in_run inp0 = true →
  script inp0 w0 = Rerun w1 →
  session w !! "results" = session w1 !! "results" →
  let palette := match in_mode inp0 with
                 | Automatic => "viridis"
                 | TextPrompt => "Greens"
                 end in
  ∃ evs,
    trace (final (render_results inp w)) = trace w ++ evs ∧
    (∀ m source opacity pal nodata o,
       ev_call (Map_add_raster m source "Segmentierung" opacity pal nodata) o ∈ evs →
       m = next_handle w ∧ source = VStr "masks.tif" ∧ opacity = Some 0.7%Q ∧
       pal = Some palette ∧ nodata = Some 0) ∧
    ((∀ e w', render_results inp w ≠ Raised e w') →
     ev_call (Map_add_raster (next_handle w) (VStr "masks.tif") "Segmentierung"
                (Some 0.7%Q) (Some palette) (Some 0)) None ∈ evs).
Proof.
  intros Hrun Hscript Hsame palette.
  destruct (wp_rerun _ _ _ _ _ _ (script_run_wp inp0 w0 Hrun) Hscript)
    as (evs0 & sam & t0 & t1 & _ & _ & Hs & _).
  rewrite Hs, stored_lookup_results in Hsame.
  set (r := results_record inp0 sam (t1 - t0)) in *.
  assert (Hr : complete_record r) by apply results_record_complete.
  destruct (results_record_mode inp0 sam (t1 - t0)) as [Hmode Hmask].
  fold r in Hmode, Hmask.
  assert (Hpal : (if value_eq_str (field_of r "process_type") "Automatische Segmentierung"
                  then "viridis" else "Greens") = palette).
  { rewrite Hmode. unfold palette. by destruct (in_mode inp0). }
  assert (Hevs : ∃ evs,
            trace (final (render_results inp w)) = trace w ++ evs ∧
            calls_until_failure (panel_calls r (next_handle w)) evs ∧
            ((∀ e w', render_results inp w ≠ Raised e w') →
             evs = returned <$> panel_calls r (next_handle w))).
  { pose proof (render_results_calls inp w r Hsame Hr) as Hwp.
    unfold renders, wp in Hwp.
    destruct (render_results inp w) as [u w'|e w'|w'] eqn:Hrender; simpl.
    - destruct Hwp as [Ht _]. eexists. split; [exact Ht|]. split; [by left|done].
    - destruct Hwp as [(l & evs & -> & Hi & Ht & _)|(_ & Ht & _)].
      + exists evs. split; [done|]. split; [right; by exists l|].
        intros Hok. by destruct (Hok (LibraryError l) w').
      + eexists. split; [exact Ht|]. split; [by left|done].
    - destruct Hwp as [Ht _]. eexists. split; [exact Ht|]. split; [by left|done]. }
  destruct Hevs as (evs & Ht & Hcalls & Hall).
  exists evs. split; [done|]. split.
  - intros m source opacity pal nodata o Hin.
    destruct (calls_until_failure_elem _ _ _ Hcalls Hin) as (c & o' & Heq & Hc).
    injection Heq as <- <-.
    apply mask_layer_in_panel_calls in Hc as (-> & -> & -> & -> & ->).
    by rewrite Hmask, Hpal.
  - intros Hok. rewrite (Hall Hok). apply list_elem_of_fmap.
    eexists. split; [reflexivity|].
    unfold panel_calls, result_map_calls. rewrite Hmask, Hpal.
    apply elem_of_app. right. apply elem_of_app. left.
    do 2 apply list_elem_of_further. apply list_elem_of_here.
Qed.


(** X13. [open] on a missing file is not guarded.  When the mask is
    missing, lines 208-246 raise [FileNotFoundError] for it with only the
    header on the page; when the visualisation is missing, for it, after the
    first button.  In both cases the archive is not written: the disk is
    unchanged. *)
Theorem missing_file_stops_exports (r : gmap string Value)
  (mask vis : string) (w : World) :
  r !! "mask_path" = Some (VStr mask) →
  r !! "vis_path" = Some (VStr vis) →
  (disk w !! mask = None →
   show_downloads (SDict r) w
   = Raised (FileNotFoundError mask)
       (mkWorld (disk w) (session w) (ext w) (next_handle w) (trace w)
          (page w ++ [ui_header "Ergebnisse exportieren"]))) ∧
  (∀ fm, disk w !! mask = Some fm → disk w !! vis = None →
   show_downloads (SDict r) w
   = Raised (FileNotFoundError vis)
       (mkWorld (disk w) (session w) (ext w) (next_handle w) (trace w)
          (page w ++
           [ ui_header "Ergebnisse exportieren";
             ui_download_button "GeoTIFF herunterladen" (data fm)
               "segmentation.tif" ]))).
Proof.
  intros Hmask Hvis. split.
  - intros Hfm.
    assert (Hwp : wp (show_downloads (SDict r)) (λ _ _, False)
                    (λ e w', e = FileNotFoundError mask ∧
                       w' = mkWorld (disk w) (session w) (ext w) (next_handle w)
                              (trace w)
                              (page w ++ [ui_header "Ergebnisse exportieren"]))
                    (λ _, False) w).
    { unfold show_downloads. repeat first [wp_step | wp_known]. done. }
    unfold wp in Hwp. destruct (show_downloads (SDict r) w); [done| |done].
    by destruct Hwp as [-> ->].
  - intros fm Hfm Hfv.
    assert (Hwp : wp (show_downloads (SDict r)) (λ _ _, False)
                    (λ e w', e = FileNotFoundError vis ∧
                       w' = mkWorld (disk w) (session w) (ext w) (next_handle w)
                              (trace w)
                              (page w ++
                               [ ui_header "Ergebnisse exportieren";
                                 ui_download_button "GeoTIFF herunterladen"
                                   (data fm) "segmentation.tif" ]))
                    (λ _, False) w).
    { unfold show_downloads. repeat first [wp_step | wp_known].
      by rewrite <- !app_assoc. }
    unfold wp in Hwp. destruct (show_downloads (SDict r) w); [done| |done].
    by destruct Hwp as [-> ->].
Qed.

(** X14. The reset button is the last element the panel renders.  In an
    execution without a click on the run button, on a session with a
    complete record: when the panel raises, the page holds the form and the
    run button but not the reset button, and the session is unchanged even if
    the inputs report a click on the reset button; when it does not raise,
    the reset button is the last element of the page. *)
Theorem failed_panel_blocks_reset (inp : Inputs) (w : World)
  (r : gmap string Value) :
  in_run inp = false →
  session w !! "results" = Some (SDict r) →
  complete_record r →
  session w !! "map_visible" = Some (SBool false) →
  match script inp w with
  | Raised e w' =>
      session w' = session w ∧
      ∃ elements,
        page w' = page w ++ form_page inp ++ elements ∧
        ui_button "Neue Segmentierung starten" ∉ elements
  | Done _ w' =>
      session w' = session w ∧
      ∃ elements,
        page w' = page w ++ form_page inp ++ elements
                  ++ [ui_button "Neue Segmentierung starten"]
  | Rerun w' =>
      in_reset inp = true ∧
      ∃ elements,
        page w' = page w ++ form_page inp ++ elements
                  ++ [ui_button "Neue Segmentierung starten"]
  end.
Proof.
  intros Hrun Hres Hr Hmap.
  pose proof (script_results_wp inp w r Hrun Hres Hr Hmap) as Hp.
  pose proof (script_idle_wp inp w Hrun) as Hs.
  rewrite (with_defaults_id (session w)) in Hs by by eexists.
  cbv zeta in Hp. unfold wp, completes, grows in Hp. unfold wp in Hs.
  cbn [page] in Hp.
  destruct (script inp w) as [u w'|e w'|w'].
  - split; [done|]. destruct Hp as (_ & els & Hpage & _). exists els.
    by rewrite Hpage, <- app_assoc.
  - split; [done|].
    destruct Hp as [(l & evs & _ & _ & _ & els & Hpage & Hno)
                   |(_ & _ & els & Hpage & Hno)];
      exists els; by rewrite Hpage, <- app_assoc.
  - destruct Hs as [Hreset _]. split; [done|].
    destruct Hp as (_ & els & Hpage & _). exists els.
    by rewrite Hpage, <- app_assoc.
Qed.




(** X18. A widget event with a click on the run button that ends normally
    consists of two executions: the run, which ends in [st.rerun()], and an
    execution without a click that renders the panel.  The session is the one
    the run left, with the record and the input map hidden; the events after
    the run are the calls of the panel; the page is the form followed by the
    panel, the reset button last. *)
Theorem completed_run_shows_results (inp : Inputs) (w w' : World) :
  in_run inp = true →
  interact inp w = Done tt w' →
  ∃ w1 r,
    script inp (clear_page w) = Rerun w1 ∧
    script (no_clicks inp) (clear_page w1) = Done tt w' ∧
    session w' = session w1 ∧
    session w' !! "results" = Some (SDict r) ∧
    session w' !! "map_visible" = Some (SBool false) ∧
    trace w' = trace w1 ++ (returned <$> panel_calls r (next_handle w1)) ∧
    ∃ elements,
      page w' = form_page (no_clicks inp) ++ elements
                ++ [ui_button "Neue Segmentierung starten"].
Proof.
  intros Hrun Hdone. unfold interact in Hdone.
  pose proof (script_run_wp inp (clear_page w) Hrun) as Hwp. unfold wp in Hwp.
  destruct (script inp (clear_page w)) as [u w1|e w1|w1]; [done|done|].
  destruct Hwp as (evs0 & sam & t0 & t1 & _ & _ & Hs & _).
  set (r := results_record inp sam (t1 - t0)) in *.
  assert (Hres : session (clear_page w1) !! "results" = Some (SDict r))
    by (simpl; rewrite Hs; apply stored_lookup_results).
  assert (Hmap : session (clear_page w1) !! "map_visible" = Some (SBool false))
    by (simpl; rewrite Hs; apply stored_lookup_map_visible).
  assert (Hr : complete_record r) by apply results_record_complete.
  pose proof (wp_done _ _ _ _ _ _ _
                (script_results_wp (no_clicks inp) (clear_page w1) r eq_refl
                   Hres Hr Hmap) Hdone) as (Ht & els & Hp & _).
  pose proof (wp_done _ _ _ _ _ _ _
                (script_idle_wp (no_clicks inp) (clear_page w1) eq_refl) Hdone)
    as Hs'.
  cbv beta in Hs'. rewrite with_defaults_id in Hs' by by eexists.
  simpl in Hs', Ht, Hp.
  exists w1, r. split; [done|]. split; [done|]. split; [done|].
  split; [by rewrite Hs'|]. split; [by rewrite Hs'|]. split; [done|].
  by exists els.
Qed.

End Further.

(** * The further properties on concrete executions *)

(** X2 at work: an automatic run from the session of the initial load. *)
Lemma session_stays_consistent_witness :
  consistent (session (final (script Demo.run_automatic
                                (Demo.loaded Demo.reliable ∅ [10; 13]%Q)))).
Proof.
  apply (session_stays_consistent Demo.run_automatic
           (Demo.loaded Demo.reliable ∅ [10; 13]%Q)).
  right. left. split; reflexivity.
Defined.

(** X3 at work: the key "user" survives an automatic run. *)
Lemma script_writes_two_keys_only_witness :
  session (final (script Demo.run_automatic Demo.with_user_key)) !! "user"
  = Some (SBool true).
Proof.
  rewrite (script_writes_two_keys_only Demo.run_automatic Demo.with_user_key
             "user"); [reflexivity|discriminate|discriminate].
Defined.

(** X4 at work: the reset after an automatic run ends in [st.rerun()]; the
    reset button was clicked and the results were truthy. *)
Lemma rerun_needs_click_witness :
  in_reset Demo.reset = true ∧
  truthy (default SNone (session Demo.after_automatic_run !! "results")) = true.
Proof.
  assert (Hrerun : script Demo.reset Demo.after_automatic_run
                   = Rerun (final (script Demo.reset Demo.after_automatic_run)))
    by (apply reruns_eq; vm_compute; reflexivity).
  destruct (rerun_needs_click Demo.reset Demo.after_automatic_run) as (Hclick & _).
  destruct (Hclick _ Hrerun) as [Hrun|H]; [discriminate Hrun|exact H].
Defined.

(** X5 at work: [add_basemap] raises; only the title is on the page. *)
Lemma input_map_failure_hides_form_witness :
  page (final (script Demo.idle (Demo.loaded Demo.basemap_fails ∅ [])))
  = [ui_title "KI-basierte Objekterkennung mit Meta's LangSAM"].
Proof.
  assert (Hraised : script Demo.idle (Demo.loaded Demo.basemap_fails ∅ [])
                    = Raised (LibraryError (lib_exn "failure"))
                        (final (script Demo.idle
                                  (Demo.loaded Demo.basemap_fails ∅ []))))
    by (apply raised_eq; vm_compute; reflexivity).
  destruct (input_map_failure_hides_form Demo.idle
              (Demo.loaded Demo.basemap_fails ∅ []) _ _ eq_refl eq_refl eq_refl
              Hraised) as (Hpage & _).
  exact Hpage.
Defined.

(** X6 at work: after an automatic run, the only map rendered is the
    result map. *)
Lemma one_map_per_execution_witness :
  ∃ evs,
    trace (final (script Demo.idle Demo.after_automatic_run))
    = trace Demo.after_automatic_run ++ evs ∧
    ∀ m height key o,
      ev_call (Map_to_streamlit m height key) o ∈ evs → key = "result_map".
Proof.
  destruct (one_map_per_execution Demo.idle Demo.after_automatic_run eq_refl)
    as (evs & Ht & _ & Hkey).
  { right. exists (automatic_record "Automatische Segmentierung" (13 - 10)).
    split; [vm_compute; reflexivity|].
    split; [apply automatic_record_complete|vm_compute; reflexivity]. }
  exists evs. split; [exact Ht|].
  intros m height key o Hin. destruct (Hkey m height key o Hin) as [_ ->].
  vm_compute. reflexivity.
Defined.

(** X7 at work: [plt.savefig] raises in an automatic run; the failed call
    is the last event. *)
Lemma run_click_exceptions_witness :
  ∃ c,
    last (trace (final (script Demo.run_automatic
                          (Demo.loaded Demo.savefig_fails ∅ [10; 13]%Q))))
    = Some (ev_call c (Some (lib_exn "failure"))).
Proof.
  assert (Hraised :
    script Demo.run_automatic (Demo.loaded Demo.savefig_fails ∅ [10; 13]%Q)
    = Raised (LibraryError (lib_exn "failure"))
        (final (script Demo.run_automatic
                  (Demo.loaded Demo.savefig_fails ∅ [10; 13]%Q))))
    by (apply raised_eq; vm_compute; reflexivity).
  destruct (run_click_exceptions Demo.run_automatic _ _ _ eq_refl Hraised)
    as ([(p & Hp & _)|(c & l & Hl & Hlast)] & _); [discriminate Hp|].
  exists c. injection Hl as <-. exact Hlast.
Defined.

(** X8 at work: "masks.tif" cannot be removed; "satellite.tif" is gone,
    "masks.shp" is not. *)
Lemma cleanup_stops_at_first_failure_witness :
  ∃ w',
    remove_old_files ["satellite.tif"; "masks.tif"; "masks.shp"]
      (Demo.loaded Demo.reliable Demo.locked_second [])
    = Raised (PermissionError "masks.tif") w' ∧
    disk w' !! "satellite.tif" = None ∧
    disk w' !! "masks.tif" = Some (mkFile (Raw "old mask") false) ∧
    disk w' !! "masks.shp" = Some (mkFile (Raw "old shapes") true).
Proof.
  destruct (cleanup_stops_at_first_failure ["satellite.tif"] ["masks.shp"]
              "masks.tif" (mkFile (Raw "old mask") false)
              (Demo.loaded Demo.reliable Demo.locked_second []))
    as (w' & Hrun & _ & Hgone & Hkept & Hfile).
  { apply Forall_cons; split; [|constructor].
    intros f Hf. vm_compute in Hf. by simplify_eq. }
  { distinct_path. }
  { reflexivity. }
  { reflexivity. }
  exists w'. split; [exact Hrun|].
  split; [apply Hgone, list_elem_of_here|].
  split; [exact Hfile|].
  rewrite Hkept; [reflexivity|distinct_path].
Defined.

(** X9 at work: the download fails; no model has been created. *)
Lemma run_stops_at_first_failure_witness :
  ∃ before c,
    trace (final (script Demo.run_automatic
                    (Demo.loaded Demo.download_fails ∅ [10; 13]%Q)))
    = before ++ [ev_call c (Some (lib_exn "failure"))] ∧
    ∀ h a o, ev_call (SamGeo_init h a) o ∉ before.
Proof.
  assert (Hraised :
    script Demo.run_automatic (Demo.loaded Demo.download_fails ∅ [10; 13]%Q)
    = Raised (LibraryError (lib_exn "failure"))
        (final (script Demo.run_automatic
                  (Demo.loaded Demo.download_fails ∅ [10; 13]%Q))))
    by (apply raised_eq; vm_compute; reflexivity).
  pose proof (run_stops_at_first_failure Demo.run_automatic
                (Demo.loaded Demo.download_fails ∅ [10; 13]%Q) _ _ eq_refl Hraised)
    as H.
  destruct H as (evs0 & sam & t0 & t1 & before & c & after & Hevs0 & Hplan & Ht).
  exists before, c. split; [exact Ht|].
  intros h a o Hin.
  assert (Hin' : ev_call (SamGeo_init h a) o
                 ∈ trace (final (script Demo.run_automatic
                                   (Demo.loaded Demo.download_fails ∅ [10; 13]%Q)))).
  { rewrite Ht. apply elem_of_app. right. apply elem_of_app. left. exact Hin. }
  vm_compute in Hin'.
  repeat (apply elem_of_cons in Hin' as [Hin'|Hin']; [discriminate Hin'|]).
  apply elem_of_nil in Hin'. destruct Hin'.
Defined.


(** X11 at work: after an automatic run the mask layer is drawn in
    "viridis". *)
Lemma mask_layer_palette_witness :
  ∃ evs,
    trace (final (render_results Demo.idle Demo.after_automatic_run))
    = trace Demo.after_automatic_run ++ evs ∧
    ev_call (Map_add_raster (next_handle Demo.after_automatic_run)
               (VStr "masks.tif") "Segmentierung" (Some 0.7%Q) (Some "viridis")
               (Some 0)) None ∈ evs.
Proof.
  assert (Hrerun : script Demo.run_automatic (Demo.loaded Demo.reliable ∅ [10; 13]%Q)
                   = Rerun Demo.after_automatic_run)
    by (unfold Demo.after_automatic_run; apply reruns_eq; vm_compute;
        reflexivity).
  destruct (mask_layer_palette Demo.run_automatic Demo.idle _ _
              Demo.after_automatic_run eq_refl Hrerun eq_refl)
    as (evs & Ht & _ & Hin).
  exists evs. split; [exact Ht|]. apply Hin.
  intros e w' Hraised. apply (f_equal raised) in Hraised.
  vm_compute in Hraised. discriminate Hraised.
Defined.


(** X13 at work: no "masks.tif" on the disk. *)
Lemma missing_file_stops_exports_witness :
  raised (show_downloads (SDict (automatic_record "Automatische Segmentierung" 3))
            (Demo.loaded Demo.reliable Demo.two_sidecars []))
  = Some (FileNotFoundError "masks.tif") ∧
  page (final (show_downloads
                 (SDict (automatic_record "Automatische Segmentierung" 3))
                 (Demo.loaded Demo.reliable Demo.two_sidecars [])))
  = [ui_header "Ergebnisse exportieren"].
Proof.
  destruct (missing_file_stops_exports
              (automatic_record "Automatische Segmentierung" 3)
              "masks.tif" "visualization.png"
              (Demo.loaded Demo.reliable Demo.two_sidecars []))
    as (Hmask & _); try reflexivity.
  rewrite Hmask by reflexivity. split; reflexivity.
Defined.

(** X14 at work: the files of the run are gone; the panel raises and the
    click on the reset button has no effect. *)
Lemma failed_panel_blocks_reset_witness :
  raised (script Demo.reset Demo.results_without_files)
  = Some (FileNotFoundError "masks.tif") ∧
  session (final (script Demo.reset Demo.results_without_files))
  = session Demo.results_without_files.
Proof.
  assert (Hraised : script Demo.reset Demo.results_without_files
                    = Raised (FileNotFoundError "masks.tif")
                        (final (script Demo.reset Demo.results_without_files)))
    by (apply raised_eq; vm_compute; reflexivity).
  split; [rewrite Hraised; reflexivity|].
  pose proof (failed_panel_blocks_reset Demo.reset Demo.results_without_files
                (automatic_record "Automatische Segmentierung" (13 - 10))) as H.
  rewrite Hraised in H. apply H.
  - reflexivity.
  - vm_compute. reflexivity.
  - apply automatic_record_complete.
  - vm_compute. reflexivity.
Defined.




(** X18 at work: a text-prompt run with collaborators that never raise. *)
Lemma completed_run_shows_results_witness :
  ∃ r,
    session (final (interact Demo.run_text_prompt
                      (Demo.loaded Demo.reliable ∅ [10; 13]%Q))) !! "results"
    = Some (SDict r) ∧
    session (final (interact Demo.run_text_prompt
                      (Demo.loaded Demo.reliable ∅ [10; 13]%Q))) !! "map_visible"
    = Some (SBool false).
Proof.
  assert (Hdone : interact Demo.run_text_prompt
                    (Demo.loaded Demo.reliable ∅ [10; 13]%Q)
                  = Done tt (final (interact Demo.run_text_prompt
                                      (Demo.loaded Demo.reliable ∅ [10; 13]%Q))))
    by (apply done_eq; vm_compute; reflexivity).
  pose proof (completed_run_shows_results Demo.run_text_prompt
                (Demo.loaded Demo.reliable ∅ [10; 13]%Q) _ eq_refl Hdone) as H.
  destruct H as (w1 & r & H1 & H2 & H3 & Hr & Hm & H4).
  exists r. exact (conj Hr Hm).
Defined.
